(** * Latency recorder (latency.cpp): shallow embedding and verified properties

    The recorder keeps, per measurement tag, a power-of-two histogram with
    running statistics, plus a capped buffer of raw samples.  The C++ code
    is embedded as pure state-passing functions over records; every way the
    C++ code can stop without returning (abort, undefined behaviour, a thrown
    [std::out_of_range]) is an explicit [fault]. *)

From Stdlib Require Import ZArith Lia Ascii String DecimalString.
From stdpp Require Import base numbers list strings sorting.

Local Open Scope Z_scope.

(** ** Constants of the translation unit *)

Definition LATENCY_MAX_DIST : nat := 127.
Definition LATENCY_DIST_POOL_SIZE : nat := 5.
Definition LATENCY_HISTOGRAM_WIDTH : Z := 50.
Definition LATENCY_NUM_BUCKETS : nat := 65.
Definition MAX_ITERATIONS : Z := 1000000.

(** ** Machine integers: [uint64_t] and [uint32_t] values are integers kept
    in range by an explicit reduction after every arithmetic operation. *)

Definition u64 (z : Z) : Z := z mod 2 ^ 64.
Definition u32 (z : Z) : Z := z mod 2 ^ 32.
Definition UINT64_MAX : Z := 2 ^ 64 - 1.

(** ** Outcomes: a call either returns or stops the program. *)

Inductive fault : Type :=
  | Abort        (* abort(), also reached through a failed assert *)
  | Undefined    (* undefined behaviour: null or out-of-bounds access,
                    division by zero, oversized shift *)
  | OutOfRange   (* std::out_of_range thrown by vector::at *)
  | OutOfFuel.   (* an unbounded loop of the model ran out of fuel *)

Inductive outcome (A : Type) : Type :=
  | Done (a : A)
  | Fault (f : fault).
Arguments Done {A} a.
Arguments Fault {A} f.

#[global] Instance outcome_ret : MRet outcome := fun A a => Done a.
#[global] Instance outcome_bind : MBind outcome := fun A B k m =>
  match m with
  | Done a => k a
  | Fault f => Fault f
  end.

(** Reading through a pointer or an array index that may be invalid. *)
Definition deref {A} (o : option A) : outcome A :=
  match o with
  | Some a => Done a
  | None => Fault Undefined
  end.

(** ** Data model *)

Module Dist.
(** [Latency_Dist_t]; [type] is the tag character, as its code. *)
Record t : Type := mk {
  min : Z;
  max : Z;
  total : Z;
  count : Z;
  buckets : list Z;
  type : nat
}.

Definition set_buckets (d : t) (bs : list Z) : t :=
  mk (min d) (max d) (total d) (count d) bs (type d).
Definition set_type (d : t) (ty : nat) : t :=
  mk (min d) (max d) (total d) (count d) (buckets d) ty.
Definition set_min (d : t) (v : Z) : t :=
  mk v (max d) (total d) (count d) (buckets d) (type d).
Definition set_max (d : t) (v : Z) : t :=
  mk (min d) v (total d) (count d) (buckets d) (type d).
Definition set_total (d : t) (v : Z) : t :=
  mk (min d) (max d) v (count d) (buckets d) (type d).
Definition set_count (d : t) (v : Z) : t :=
  mk (min d) (max d) (total d) v (buckets d) (type d).
End Dist.

Abbreviation Latency_Dist_t := Dist.t.

(** [dmtr_latency_t].  A pointer into [distPool] is the index of the slot
    it points to; [None] is the null pointer. *)
Record dmtr_latency : Type := mk_latency {
  name : string;
  dists : list (option nat);
  distPool : list Latency_Dist_t;
  distPoolNext : nat;
  latencies : list Z
}.

Definition set_dists (l : dmtr_latency) (ds : list (option nat)) : dmtr_latency :=
  mk_latency (name l) ds (distPool l) (distPoolNext l) (latencies l).
Definition set_distPool (l : dmtr_latency) (p : list Latency_Dist_t) : dmtr_latency :=
  mk_latency (name l) (dists l) p (distPoolNext l) (latencies l).
Definition set_distPoolNext (l : dmtr_latency) (n : nat) : dmtr_latency :=
  mk_latency (name l) (dists l) (distPool l) n (latencies l).
Definition set_latencies (l : dmtr_latency) (v : list Z) : dmtr_latency :=
  mk_latency (name l) (dists l) (distPool l) (distPoolNext l) v.

(** ** Recording *)

Definition LatencyAddStat (l : dmtr_latency) (type : nat) (val : Z) : dmtr_latency :=
  if Z.of_nat (length (latencies l)) <? MAX_ITERATIONS
  then set_latencies l (latencies l ++ [val])
  else l.

(** The loop [while (val) { val >>= 1; ++bucket; }]. *)
Fixpoint bucket_loop (fuel : nat) (val : Z) (bucket : nat) : option nat :=
  match fuel with
  | O => None
  | S fuel' =>
      if val =? 0 then Some bucket
      else bucket_loop fuel' (val ≫ 1) (S bucket)
  end.

(** [int bucket = 0; val >>= 1; while (val) ...], with one unit of fuel per
    bit of a [uint64_t]. *)
Definition bucket_index (val : Z) : outcome nat :=
  match bucket_loop 64 (val ≫ 1) 0 with
  | Some bucket => Done bucket
  | None => Fault OutOfFuel
  end.

(** The lazy creation of the distribution of a tag. *)
Definition claim_dist (l : dmtr_latency) (type : nat) : outcome dmtr_latency :=
  slot ← deref (dists l !! type);
  match slot with
  | Some _ => Done l
  | None =>
      if decide (distPoolNext l = LATENCY_DIST_POOL_SIZE) then Fault Abort
      else
        d ← deref (distPool l !! distPoolNext l);
        Done (set_distPoolNext
                (set_distPool
                   (set_dists l (<[type := Some (distPoolNext l)]> (dists l)))
                   (<[distPoolNext l := Dist.set_type d type]> (distPool l)))
                (S (distPoolNext l)))
  end.

Definition LatencyAddHist (l : dmtr_latency) (type : nat) (val : Z) (count : Z)
  : outcome (dmtr_latency * nat) :=
  l ← claim_dist l type;
  slot ← deref (dists l !! type);
  di ← deref slot;
  d ← deref (distPool l !! di);
  bucket ← bucket_index val;
  if decide (bucket < LATENCY_NUM_BUCKETS)%nat then
    b ← deref (Dist.buckets d !! bucket);
    Done (set_distPool l
            (<[di := Dist.set_buckets d (<[bucket := u32 (b + count)]> (Dist.buckets d))]>
               (distPool l)),
          di)
  else Fault Abort.

Definition LatencyAdd (l : dmtr_latency) (type : nat) (val : Z) : outcome dmtr_latency :=
  '(l, di) ← LatencyAddHist l type val 1;
  let l := LatencyAddStat l type val in
  d ← deref (distPool l !! di);
  let d := if val <? Dist.min d then Dist.set_min d val else d in
  let d := if val >? Dist.max d then Dist.set_max d val else d in
  let d := Dist.set_total d (u64 (Dist.total d + val)) in
  let d := Dist.set_count d (u64 (Dist.count d + 1)) in
  Done (set_distPool l (<[di := d]> (distPool l))).

(** ** Creation and the public recording entry point *)

(** A pool slot as [dmtr_new_latency] leaves it: the object is zeroed by
    [new dmtr_latency_t()], then [min] is set to [~0ll]. *)
Definition fresh_dist : Latency_Dist_t :=
  Dist.mk UINT64_MAX 0 0 0 (replicate LATENCY_NUM_BUCKETS 0) 0.

Definition dmtr_new_latency (name : string) : dmtr_latency :=
  mk_latency name
    (replicate LATENCY_MAX_DIST None)
    (replicate LATENCY_DIST_POOL_SIZE fresh_dist)
    0
    [].

(** The code of the character ['=']. *)
Definition TAG_DEFAULT : nat := 61.

(** The result pairs the recorder with the returned status. *)
Definition dmtr_record_latency (latency : dmtr_latency) (ns : Z)
  : outcome (dmtr_latency * Z) :=
  if ns =? 0 then Done (latency, 0)
  else
    latency ← LatencyAdd latency TAG_DEFAULT ns;
    Done (latency, 0).

(** ** Merge *)

(** A [for] loop over a fixed range, its body threading the state. *)
Fixpoint for_each {S A : Type} (body : S -> A -> outcome S) (s : S) (xs : list A)
  : outcome S :=
  match xs with
  | [] => Done s
  | x :: xs => s ← body s x; for_each body s xs
  end.

(** [(uint64_t)1 << b], also the value [1ll << b] takes once converted to
    [uint64_t]; shifting by the width or more is undefined. *)
Definition shl1 (b : nat) : outcome Z :=
  if decide (b < 64)%nat then Done (1 ≪ Z.of_nat b) else Fault Undefined.

Definition Latency_Sum_bucket (d : Latency_Dist_t) (dest : dmtr_latency) (b : nat)
  : outcome dmtr_latency :=
  c ← deref (Dist.buckets d !! b);
  if c =? 0 then Done dest
  else
    v ← shl1 b;
    '(dest, _) ← LatencyAddHist dest (Dist.type d) v c;
    Done dest.

Definition Latency_Sum_hist (summand : dmtr_latency) (dest : dmtr_latency) (i : nat)
  : outcome dmtr_latency :=
  d ← deref (distPool summand !! i);
  for_each (Latency_Sum_bucket d) dest (seq 0 LATENCY_NUM_BUCKETS).

Definition Latency_Sum_stats (summand : dmtr_latency) (dest : dmtr_latency) (i : nat)
  : outcome dmtr_latency :=
  dd ← deref (dists dest !! i);
  ds ← deref (dists summand !! i);
  match ds with
  | None => Done dest
  | Some si =>
      ds ← deref (distPool summand !! si);
      di ← deref dd;
      dd ← deref (distPool dest !! di);
      let dd := if Dist.min ds <? Dist.min dd then Dist.set_min dd (Dist.min ds) else dd in
      let dd := if Dist.max ds >? Dist.max dd then Dist.set_max dd (Dist.max ds) else dd in
      let dd := Dist.set_total dd (u64 (Dist.total dd + Dist.total ds)) in
      let dd := Dist.set_count dd (u64 (Dist.count dd + Dist.count ds)) in
      Done (set_distPool dest (<[di := dd]> (distPool dest)))
  end.

(** [dest] and [summand] are two distinct recorders; [summand] is only
    read. *)
Definition Latency_Sum (dest summand : dmtr_latency) : outcome dmtr_latency :=
  dest ← for_each (Latency_Sum_hist summand) dest (seq 0 (distPoolNext summand));
  for_each (Latency_Sum_stats summand) dest (seq 0 LATENCY_MAX_DIST).

(** ** Formatting *)

Definition string_of_Z (z : Z) : string :=
  NilZero.string_of_uint (N.to_uint (Z.to_N z)).

Definition units : list string := ["ns"; "us"; "ms"; "s"]%string.

(** [while (ns >= 10000 && unit < 3) { ns /= 1000; ++unit; }]; the loop
    body runs at most three times. *)
Fixpoint LatencyFmtNS_loop (fuel : nat) (ns : Z) (unit : nat) : Z * nat :=
  match fuel with
  | O => (ns, unit)
  | S fuel' =>
      if (10000 <=? ns) && bool_decide (unit < length units - 1)%nat
      then LatencyFmtNS_loop fuel' (ns / 1000) (S unit)
      else (ns, unit)
  end.

Definition LatencyFmtNS (ns : Z) : string :=
  let '(ns, unit) := LatencyFmtNS_loop 3 ns 0 in
  string_of_Z ns +:+ " " +:+ default ""%string (units !! unit).

(** A character array read as a C string: up to the first NUL. *)
Fixpoint c_str (s : string) : string :=
  match s with
  | EmptyString => EmptyString
  | String c s' => if Ascii.eqb c Ascii.zero then EmptyString else String c (c_str s')
  end.

Definition string_replicate (n : nat) (c : ascii) : string :=
  string_of_list_ascii (replicate n c).

(** The [printf] conversion [%10s]: right-justified in ten columns. *)
Definition pad10 (s : string) : string :=
  string_replicate (10 - String.length s) " "%char +:+ s.

Definition newline : string := String (Ascii.ascii_of_nat 10) EmptyString.

(** ** Tail-percentile indices

    [(int)((float)size * 0.99)]: the size is converted to [float], widened
    to [double], multiplied by the [double] nearest to the decimal constant
    and truncated.  IEEE 754 arithmetic is exact integer arithmetic followed
    by rounding to a fixed number of significant bits, ties to even. *)

Definition round_sig (prec : Z) (p : Z) : Z :=
  let sh := Z.log2 p + 1 - prec in
  if sh <=? 0 then p
  else
    let q := p / 2 ^ sh in
    let r := p mod 2 ^ sh in
    let half := 2 ^ (sh - 1) in
    let q := if (half <? r) || ((r =? half) && Z.odd q) then q + 1 else q in
    q * 2 ^ sh.

(** The [double] constants, as multiples of [2^-53]. *)
Definition DBL_0_99 : Z := 8917127262193582.
Definition DBL_0_999 : Z := 8998192055486251.
Definition DBL_0_9999 : Z := 9006298534815518.

(** The index for a buffer of [size] elements; converting a [double] of
    [2^31] or more to [int] is undefined. *)
Definition tail_index (size : Z) (dbl : Z) : outcome Z :=
  let f := round_sig 24 size in
  let i := round_sig 53 (f * dbl) / 2 ^ 53 in
  if i <? 2 ^ 31 then Done i else Fault Undefined.

(** [vector::at]. *)
Definition at_ (v : list Z) (i : Z) : outcome Z :=
  match (if i <? 0 then None else v !! Z.to_nat i) with
  | Some x => Done x
  | None => Fault OutOfRange
  end.

(** ** Dump *)

(** The median scan: [for (mb = 0; mb < 65; ++mb) { accum += ...; if (...) break; }];
    [n] counts the iterations left. *)
Fixpoint median_loop (n : nat) (d : Latency_Dist_t) (medianBucket : nat) (accum : Z)
  : outcome nat :=
  match n with
  | O => Done medianBucket
  | S n' =>
      b ← deref (Dist.buckets d !! medianBucket);
      let accum := u64 (accum + b) in
      if Dist.count d / 2 <=? accum then Done medianBucket
      else median_loop n' d (S medianBucket) accum
  end.

(** The arguments of the summary [fprintf], formatted. *)
Record summary : Type := mk_summary {
  s_name : string;
  s_extra : string;
  s_min : string;
  s_mean : string;
  s_median : string;
  s_max : string;
  s_count : Z;
  s_total : string
}.

Definition render_summary (s : summary) : string :=
  "LATENCY " +:+ s_name s +:+ s_extra s +:+ ": " +:+ s_min s +:+ " "
    +:+ s_mean s +:+ "/" +:+ s_median s +:+ " " +:+ s_max s
    +:+ " (" +:+ string_of_Z (s_count s) +:+ " samples, " +:+ s_total s
    +:+ " total)" +:+ newline.

Definition tag_char (type : nat) : ascii := Ascii.ascii_of_nat type.

Definition Latency_Dump_summary (l : dmtr_latency) (type : nat) (d : Latency_Dist_t)
  : outcome summary :=
  medianBucket ← median_loop LATENCY_NUM_BUCKETS d 0 0;
  let extra :=
    if decide (type = TAG_DEFAULT) then EmptyString
    else c_str (String "/" (String (tag_char type) EmptyString)) in
  mean ← (if Dist.count d =? 0 then Fault Undefined
          else Done (Dist.total d / Dist.count d));
  median ← shl1 medianBucket;
  Done (mk_summary (name l) extra (LatencyFmtNS (Dist.min d)) (LatencyFmtNS mean)
          (LatencyFmtNS median) (LatencyFmtNS (Dist.max d)) (Dist.count d)
          (LatencyFmtNS (Dist.total d))).

(** The first loop of [Latency_Dump]: one summary per used tag, in tag
    order; the tags found are the chain [firstType], [nextTypes]. *)
Definition Latency_Dump_summaries (l : dmtr_latency)
  : outcome (list summary * list nat) :=
  for_each
    (fun (acc : list summary * list nat) type =>
       slot ← deref (dists l !! type);
       match slot with
       | None => Done acc
       | Some di =>
           d ← deref (distPool l !! di);
           s ← Latency_Dump_summary l type d;
           Done (acc.1 ++ [s], acc.2 ++ [type])
       end)
    ([], []) (seq 0 LATENCY_MAX_DIST).

Definition Latency_Dump_tail (latencies : list Z) : outcome string :=
  let size := Z.of_nat (length latencies) in
  i99 ← tail_index size DBL_0_99;
  p99 ← at_ latencies i99;
  i999 ← tail_index size DBL_0_999;
  p999 ← at_ latencies i999;
  i9999 ← tail_index size DBL_0_9999;
  p9999 ← at_ latencies i9999;
  Done ("TAIL LATENCY 99=" +:+ LatencyFmtNS p99 +:+ " 99.9=" +:+ LatencyFmtNS p999
          +:+ " 99.99=" +:+ LatencyFmtNS p9999 +:+ newline).

(** The sum of bucket [i] over the pool slots in use. *)
Definition pool_bucket_total (l : dmtr_latency) (i : nat) : outcome Z :=
  for_each
    (fun total dist =>
       d ← deref (distPool l !! dist);
       b ← deref (Dist.buckets d !! i);
       Done (u64 (total + b)))
    0 (seq 0 (distPoolNext l)).

Definition Latency_Dump_largest (l : dmtr_latency) : outcome Z :=
  for_each
    (fun largestCount i =>
       total ← pool_bucket_total l i;
       Done (if largestCount <? total then total else largestCount))
    LATENCY_HISTOGRAM_WIDTH (seq 0 LATENCY_NUM_BUCKETS).

(** Conversion of a [uint64_t] to [int]. *)
Definition to_int (z : Z) : Z := (z + 2 ^ 31) mod 2 ^ 32 - 2 ^ 31.

(** The stacked bar of bucket [i]: the state is [(pos, total, bar)];
    [char bar[51]] is written at the indices below [goal]. *)
Definition Latency_Dump_bar (l : dmtr_latency) (largestCount : Z) (i : nat)
    (types : list nat) : outcome (Z * Z * string) :=
  for_each
    (fun '(pos, total, bar) type =>
       slot ← deref (dists l !! type);
       match slot with
       | None => Done (pos, total, bar)
       | Some di =>
           d ← deref (distPool l !! di);
           b ← deref (Dist.buckets d !! i);
           let total := u64 (total + b) in
           let goal := to_int (u64 (total * LATENCY_HISTOGRAM_WIDTH) / largestCount) in
           if pos <? goal then
             if goal <=? LATENCY_HISTOGRAM_WIDTH + 1 then
               Done (goal, total,
                     bar +:+ string_replicate (Z.to_nat (goal - pos)) (tag_char type))
             else Fault Undefined
           else Done (pos, total, bar)
       end)
    (0, 0, EmptyString) types.

(** The rows of the histogram. *)
Inductive hist_row : Type :=
  | RowEllipsis
  | RowZero (bucket : Z)
  | RowBar (bucket : Z) (total : Z) (bar : string).

Definition render_row (r : hist_row) : string :=
  match r with
  | RowEllipsis => pad10 "..." +:+ " |" +:+ newline
  | RowZero b =>
      pad10 (LatencyFmtNS (1 ≪ b)) +:+ " | " +:+ pad10 (string_of_Z 0) +:+ " |" +:+ newline
  | RowBar b total bar =>
      pad10 (LatencyFmtNS (1 ≪ b)) +:+ " | " +:+ pad10 (string_of_Z total) +:+ " | "
        +:+ c_str bar +:+ newline
  end.

(** [for (++lastPrinted; lastPrinted < i; ++lastPrinted)] prints a zero row
    per skipped bucket; [n] counts the iterations left. *)
Fixpoint zero_rows (n : nat) (lastPrinted : Z) : list hist_row :=
  match n with
  | O => []
  | S n' => RowZero lastPrinted :: zero_rows n' (lastPrinted + 1)
  end.

(** What the histogram loop prints before the row of a non-empty bucket
    [i]. *)
Definition gap_rows (lastPrinted : Z) (i : Z) : list hist_row :=
  if lastPrinted <? i - 3 then [RowEllipsis]
  else zero_rows (Z.to_nat (i - (lastPrinted + 1))) (lastPrinted + 1).

(** One iteration of the histogram loop, given the total and the bar of
    bucket [i]; the state is [lastPrinted] and the rows printed so far. *)
Definition hist_step (i : Z) (total : Z) (bar : string)
    (st : Z * list hist_row) : Z * list hist_row :=
  let '(lastPrinted, rows) := st in
  if 0 <? total
  then (i, rows ++ gap_rows lastPrinted i ++ [RowBar i total bar])
  else (lastPrinted, rows).

(** The body of the histogram loop for bucket [i]. *)
Definition Latency_Dump_hist_step (l : dmtr_latency) (largestCount : Z)
    (types : list nat) (st : Z * list hist_row) (i : nat)
  : outcome (Z * list hist_row) :=
  '(pos, total, bar) ← Latency_Dump_bar l largestCount i types;
  if 0 <? total then
    if pos <=? LATENCY_HISTOGRAM_WIDTH then
      _ ← shl1 i;
      Done (hist_step (Z.of_nat i) total bar st)
    else Fault Undefined
  else Done st.

Definition Latency_Dump_hist (l : dmtr_latency) (largestCount : Z) (types : list nat)
  : outcome (list hist_row) :=
  st ← for_each (Latency_Dump_hist_step l largestCount types)
         (Z.of_nat LATENCY_NUM_BUCKETS, []) (seq 0 LATENCY_NUM_BUCKETS);
  Done st.2.

(** [Latency_Dump]: the text written to [f], one string per [fprintf], and
    the recorder, whose raw samples are left sorted.  A fault loses the
    text written before it. *)
Definition Latency_Dump (l : dmtr_latency) : outcome (list string * dmtr_latency * Z) :=
  if decide (distPoolNext l = 0%nat) then Done ([], l, 0)
  else
    '(sums, types) ← Latency_Dump_summaries l;
    let l := set_latencies l (merge_sort Z.le (latencies l)) in
    tail ← Latency_Dump_tail (latencies l);
    largestCount ← Latency_Dump_largest l;
    rows ← Latency_Dump_hist l largestCount types;
    Done ((render_summary <$> sums) ++ [tail] ++ (render_row <$> rows), l, 0).

Definition dmtr_dump_latency (latency : dmtr_latency)
  : outcome (list string * dmtr_latency * Z) :=
  '(out, latency, r) ← Latency_Dump latency;
  if r =? 0 then Done (out, latency, 0) else Fault Abort.

(** ** Well-formed recorders and the view by tag *)

Definition sum_list_Z (xs : list Z) : Z := foldr Z.add 0 xs.
Arguments sum_list_Z : simpl never.

Record dist_wf (d : Latency_Dist_t) : Prop := mk_dist_wf {
  dwf_len : length (Dist.buckets d) = LATENCY_NUM_BUCKETS;
  dwf_range : Forall (fun b => 0 <= b < 2 ^ 32) (Dist.buckets d);
  dwf_last : Dist.buckets d !! 64%nat = Some 0;
  dwf_min : 0 <= Dist.min d < 2 ^ 64;
  dwf_max : 0 <= Dist.max d < 2 ^ 64;
  dwf_total : 0 <= Dist.total d < 2 ^ 64;
  dwf_count : 0 <= Dist.count d < 2 ^ 64
}.

(** The shape every recorder built by the functions of this file has: the
    slots below [distPoolNext] are the targets of the non-null entries of
    [dists], each under its own tag, and the slots above are untouched. *)
Record wf (l : dmtr_latency) : Prop := mk_wf {
  wf_dists_len : length (dists l) = LATENCY_MAX_DIST;
  wf_pool_len : length (distPool l) = LATENCY_DIST_POOL_SIZE;
  wf_next : (distPoolNext l <= LATENCY_DIST_POOL_SIZE)%nat;
  wf_ptr : forall t i, dists l !! t = Some (Some i) ->
    (i < distPoolNext l)%nat /\ exists d, distPool l !! i = Some d /\ Dist.type d = t;
  wf_used : forall i d, (i < distPoolNext l)%nat -> distPool l !! i = Some d ->
    dists l !! Dist.type d = Some (Some i);
  wf_free : forall i, (distPoolNext l <= i < LATENCY_DIST_POOL_SIZE)%nat ->
    distPool l !! i = Some fresh_dist;
  wf_dist : forall i d, distPool l !! i = Some d -> dist_wf d
}.

(** The distribution of a tag, if the tag has one. *)
Definition dist_of (l : dmtr_latency) (t : nat) : option Latency_Dist_t :=
  match dists l !! t with
  | Some (Some i) => distPool l !! i
  | _ => None
  end.

(** The distribution a tag has, or would start from. *)
Definition base (l : dmtr_latency) (t : nat) : Latency_Dist_t :=
  default (Dist.set_type fresh_dist t) (dist_of l t).

(** [d->buckets[b] += c]. *)
Definition bump (d : Latency_Dist_t) (b : nat) (c : Z) : Latency_Dist_t :=
  Dist.set_buckets d (<[b := u32 (default 0 (Dist.buckets d !! b) + c)]> (Dist.buckets d)).

(** The statistics update of [LatencyAdd]. *)
Definition add_stats (d : Latency_Dist_t) (val : Z) : Latency_Dist_t :=
  let d := if val <? Dist.min d then Dist.set_min d val else d in
  let d := if val >? Dist.max d then Dist.set_max d val else d in
  let d := Dist.set_total d (u64 (Dist.total d + val)) in
  Dist.set_count d (u64 (Dist.count d + 1)).

(** The two halves of a merge, on one distribution. *)
Definition hist_merge (dd ds : Latency_Dist_t) : Latency_Dist_t :=
  Dist.set_buckets dd
    (zip_with (fun x y => u32 (x + y)) (Dist.buckets dd) (Dist.buckets ds)).

Definition stats_merge (dd ds : Latency_Dist_t) : Latency_Dist_t :=
  let dd := if Dist.min ds <? Dist.min dd then Dist.set_min dd (Dist.min ds) else dd in
  let dd := if Dist.max ds >? Dist.max dd then Dist.set_max dd (Dist.max ds) else dd in
  let dd := Dist.set_total dd (u64 (Dist.total dd + Dist.total ds)) in
  Dist.set_count dd (u64 (Dist.count dd + Dist.count ds)).

Definition all_zero (d : Latency_Dist_t) : Prop :=
  Forall (fun b => b = 0) (Dist.buckets d).

(** The samples buffer after [LatencyAddStat]. *)
Definition push_sample (l : dmtr_latency) (v : Z) : list Z :=
  if Z.of_nat (length (latencies l)) <? MAX_ITERATIONS
  then latencies l ++ [v] else latencies l.

(** Buckets [xs] once the buckets of [ys] from index [k] on are added. *)
Definition add_from (k : nat) (xs ys : list Z) : list Z :=
  imap (fun j x => if decide (k <= j)%nat then u32 (x + default 0 (ys !! j)) else x) xs.

#[global] Instance all_zero_dec (d : Latency_Dist_t) : Decision (all_zero d).
Proof. unfold all_zero. apply _. Defined.

(** The view by tag after the first loop of [Latency_Sum], after its
    second loop started from [dest1], and after the whole merge. *)
Definition hist_view (dest summand : dmtr_latency) (t : nat) : option Latency_Dist_t :=
  match dist_of summand t with
  | None => dist_of dest t
  | Some ds =>
      if decide (all_zero ds) then dist_of dest t
      else Some (hist_merge (base dest t) ds)
  end.

Definition stats_view (dest1 summand : dmtr_latency) (t : nat) : option Latency_Dist_t :=
  match dist_of summand t with
  | None => dist_of dest1 t
  | Some ds => (fun dd => stats_merge dd ds) <$> dist_of dest1 t
  end.

Definition merge_view (dest summand : dmtr_latency) (t : nat) : option Latency_Dist_t :=
  match dist_of summand t with
  | None => dist_of dest t
  | Some ds => Some (stats_merge (hist_merge (base dest t) ds) ds)
  end.

(** ** Reachable recorders *)

Definition every_dist (Q : Latency_Dist_t -> Prop) (l : dmtr_latency) : Prop :=
  forall i d, distPool l !! i = Some d -> Q d.

(** The recorders built by creation, recording under any tag, merging and
    dumping (which leaves the raw samples sorted, whether it returns or
    throws), every recorder on the way keeping all its distributions
    within [Q]. *)
Inductive reachable_in (Q : Latency_Dist_t -> Prop) : dmtr_latency -> Prop :=
  | reach_new (n : string) : reachable_in Q (dmtr_new_latency n)
  | reach_record (l l' : dmtr_latency) (t : nat) (v : Z) :
      reachable_in Q l -> 0 <= v < 2 ^ 64 ->
      LatencyAdd l t v = Done l' -> every_dist Q l' ->
      reachable_in Q l'
  | reach_merge (dest summand dest' : dmtr_latency) :
      reachable_in Q dest -> reachable_in Q summand ->
      Latency_Sum dest summand = Done dest' -> every_dist Q dest' ->
      reachable_in Q dest'
  | reach_dump (l : dmtr_latency) :
      reachable_in Q l ->
      reachable_in Q (set_latencies l (merge_sort Z.le (latencies l))).

Definition reachable : dmtr_latency -> Prop := reachable_in (fun _ => True).

(** The recorders a client of the public functions can hold: [LatencyAdd]
    is static and only ever called with the tag ['='].  A dump, whether it
    returns or throws, leaves the raw samples sorted. *)
Inductive api_reachable : dmtr_latency -> Prop :=
  | api_new (n : string) : api_reachable (dmtr_new_latency n)
  | api_record (l l' : dmtr_latency) (ns st : Z) :
      api_reachable l -> 0 <= ns < 2 ^ 64 ->
      dmtr_record_latency l ns = Done (l', st) ->
      api_reachable l'
  | api_merge (dest summand dest' : dmtr_latency) :
      api_reachable dest -> api_reachable summand ->
      Latency_Sum dest summand = Done dest' ->
      api_reachable dest'
  | api_dump (l : dmtr_latency) :
      api_reachable l ->
      api_reachable (set_latencies l (merge_sort Z.le (latencies l))).

(** No tag but ['='] has a distribution. *)
Definition only_default (l : dmtr_latency) : Prop :=
  forall t, t <> TAG_DEFAULT -> dist_of l t = None.

(** Recording a sequence of samples through the public entry point. *)
Definition record_all (l : dmtr_latency) (samples : list Z) : outcome dmtr_latency :=
  for_each (fun l ns => '(l, _) ← dmtr_record_latency l ns; Done l) l samples.

(** Recording tagged samples. *)
Definition add_all (l : dmtr_latency) (samples : list (nat * Z)) : outcome dmtr_latency :=
  for_each (fun l s => LatencyAdd l s.1 s.2) l samples.

(** Doubling a recorder by two merges through a fresh copy. *)
Definition double (x : dmtr_latency) : outcome dmtr_latency :=
  y ← Latency_Sum (dmtr_new_latency "copy") x;
  Latency_Sum x y.

Fixpoint iter_double (n : nat) (x : dmtr_latency) : outcome dmtr_latency :=
  match n with
  | O => Done x
  | S n' => x' ← double x; iter_double n' x'
  end.

(** One sample of 1 ns, doubled [n] times. *)
Definition record_doubled (l : dmtr_latency) (n : nat) : outcome dmtr_latency :=
  '(x, _) ← dmtr_record_latency l 1;
  iter_double n x.

(** [2^32] samples in bucket 0. *)
Definition wrapped_recorder : outcome dmtr_latency :=
  record_doubled (dmtr_new_latency "x") 32.

(** The scenario of the report format: five samples in a recorder ["t"]. *)
Definition scenario_t : outcome dmtr_latency :=
  record_all (dmtr_new_latency "t") [1; 2; 4; 1000; 1000000].

(** The congruence of the sample count and the buckets, and their
    equality. *)
Definition count_cong (d : Latency_Dist_t) : Prop :=
  Dist.count d mod 2 ^ 32 = sum_list_Z (Dist.buckets d) mod 2 ^ 32.

Definition count_exact (d : Latency_Dist_t) : Prop :=
  Dist.count d = sum_list_Z (Dist.buckets d).

Definition count_small (d : Latency_Dist_t) : Prop := Dist.count d < 2 ^ 32.

(** Concrete recorders used to exercise the statements below. *)
Definition full_recorder : outcome dmtr_latency :=
  add_all (dmtr_new_latency "f")
    [(65%nat, 1); (66%nat, 2); (67%nat, 3); (68%nat, 4); (69%nat, 5)].

Definition recorder_a : outcome dmtr_latency :=
  add_all (dmtr_new_latency "a") [(61%nat, 5); (61%nat, 1000); (65%nat, 3)].

Definition recorder_b : outcome dmtr_latency :=
  add_all (dmtr_new_latency "b") [(61%nat, 2); (61%nat, 7); (61%nat, 1500); (66%nat, 9)].

(** Two samples three buckets apart. *)
Definition recorder_gap : outcome dmtr_latency :=
  record_all (dmtr_new_latency "g") [1; 16].

(** The order the three tail indices of a buffer of [size] elements are
    claimed to be in. *)
Definition tail_ordered (size : Z) : Prop :=
  exists i99 i999 i9999,
    tail_index size DBL_0_99 = Done i99
    /\ tail_index size DBL_0_999 = Done i999
    /\ tail_index size DBL_0_9999 = Done i9999
    /\ 0 <= i99 < i999 /\ i999 < i9999 <= size - 1.

Definition tail_ordered_b (size : Z) : bool :=
  match tail_index size DBL_0_99, tail_index size DBL_0_999,
        tail_index size DBL_0_9999 with
  | Done i99, Done i999, Done i9999 =>
      (0 <=? i99) && (i99 <? i999) && (i999 <? i9999) && (i9999 <=? size - 1)
  | _, _, _ => false
  end.

(** How a run of empty buckets strictly between the printed buckets [j] and
    [i] is shown when runs of up to [threshold] buckets are printed in
    full. *)
Definition shown_gap (threshold : Z) (j i : Z) : list hist_row :=
  if decide (i - j - 1 <= threshold) then RowZero <$> seqZ (j + 1) (i - j - 1)
  else [RowEllipsis].

(** A full pool with no distribution for tag [t]. *)
Definition pool_full_without (t : nat) (l : dmtr_latency) : Prop :=
  wf l /\ distPoolNext l = LATENCY_DIST_POOL_SIZE /\ dist_of l t = None.

(** ** Notions used by the further properties *)

(** The three tail indices of a buffer of [size] elements are in range and
    in order. *)
Definition tail_in_range (size : Z) : Prop :=
  exists i99 i999 i9999,
    tail_index size DBL_0_99 = Done i99
    /\ tail_index size DBL_0_999 = Done i999
    /\ tail_index size DBL_0_9999 = Done i9999
    /\ 0 <= i99 <= i999 /\ i999 <= i9999 <= size - 1.

Definition tail_in_range_b (size : Z) : bool :=
  match tail_index size DBL_0_99, tail_index size DBL_0_999,
        tail_index size DBL_0_9999 with
  | Done i99, Done i999, Done i9999 =>
      (0 <=? i99) && (i99 <=? i999) && (i999 <=? i9999) && (i9999 <=? size - 1)
  | _, _, _ => false
  end.

(** The [TAIL LATENCY] line for three values. *)
Definition tail_line (p99 p999 p9999 : Z) : string :=
  "TAIL LATENCY 99=" +:+ LatencyFmtNS p99 +:+ " 99.9=" +:+ LatencyFmtNS p999
    +:+ " 99.99=" +:+ LatencyFmtNS p9999 +:+ newline.

(** The tags that have a distribution, in increasing order, and the pool
    slot of a tag. *)
Definition live_tags (l : dmtr_latency) : list nat :=
  filter (fun t => is_Some (dist_of l t)) (seq 0 LATENCY_MAX_DIST).

Definition slot_of (l : dmtr_latency) (t : nat) : nat :=
  match dists l !! t with
  | Some (Some i) => i
  | _ => 0%nat
  end.

#[global] Instance fault_eq_dec : EqDecision fault.
Proof. solve_decision. Defined.

#[global] Instance outcome_eq_dec {A : Type} `{EqDecision A} : EqDecision (outcome A).
Proof. solve_decision. Defined.

(** The samples the public entry point passes on to [LatencyAdd]: the
    non-zero ones. *)
Definition recorded (samples : list Z) : list Z := filter (fun v => v <> 0) samples.

(** The number of values of a list that fall in bucket [b]. *)
Definition in_bucket (b : nat) (vs : list Z) : Z :=
  Z.of_nat (length (filter (fun v => bucket_index v = Done b) vs)).

(** The number of samples in the buckets below [k]. *)
Definition cumulative (d : Latency_Dist_t) (k : nat) : Z :=
  sum_list_Z (take k (Dist.buckets d)).

(** The body of the first loop of [Latency_Dump]. *)
Definition summaries_step (l : dmtr_latency) (acc : list summary * list nat) (type : nat)
  : outcome (list summary * list nat) :=
  slot ← deref (dists l !! type);
  match slot with
  | None => Done acc
  | Some di =>
      d ← deref (distPool l !! di);
      s ← Latency_Dump_summary l type d;
      Done (acc.1 ++ [s], acc.2 ++ [type])
  end.

(** Bucket [i] of pool slot [j], and of the distribution of tag [t]. *)
Definition bucket_at (l : dmtr_latency) (i : nat) (j : nat) : Z :=
  default 0 (distPool l !! j ≫= fun d => Dist.buckets d !! i).

Definition bucket_of_tag (l : dmtr_latency) (i : nat) (t : nat) : Z :=
  default 0 (dist_of l t ≫= fun d => Dist.buckets d !! i).

(** The body of the loop of [Latency_Dump_bar]. *)
Definition bar_step (l : dmtr_latency) (largestCount : Z) (i : nat)
  : Z * Z * string -> nat -> outcome (Z * Z * string) :=
  fun '(pos, total, bar) type =>
  slot ← deref (dists l !! type);
  match slot with
  | None => Done (pos, total, bar)
  | Some di =>
      d ← deref (distPool l !! di);
      b ← deref (Dist.buckets d !! i);
      let total := u64 (total + b) in
      let goal := to_int (u64 (total * LATENCY_HISTOGRAM_WIDTH) / largestCount) in
      if pos <? goal then
        if goal <=? LATENCY_HISTOGRAM_WIDTH + 1 then
          Done (goal, total,
                bar +:+ string_replicate (Z.to_nat (goal - pos)) (tag_char type))
        else Fault Undefined
      else Done (pos, total, bar)
  end.

(** The total of bucket [i] over the tags in use. *)
Definition bucket_total (l : dmtr_latency) (i : nat) : Z :=
  sum_list_Z (bucket_of_tag l i <$> live_tags l).

(** The bucket and the total a bar row shows. *)
Definition bar_of (r : hist_row) : option (Z * Z) :=
  match r with
  | RowBar bucket total _ => Some (bucket, total)
  | _ => None
  end.

(** ** Bucketing *)

(** ** Inversion of the outcome monad *)

Lemma bind_Done {A B : Type} (m : outcome A) (k : A -> outcome B) (b : B) :
  m ≫= k = Done b -> exists a, m = Done a /\ k a = Done b.
Proof. destruct m as [a|f]; [by exists a | done]. Qed.

Lemma Done_bind {A B : Type} (a : A) (k : A -> outcome B) : Done a ≫= k = k a.
Proof. reflexivity. Qed.

Lemma deref_Some {A : Type} (a : A) : deref (Some a) = Done a.
Proof. reflexivity. Qed.

Lemma deref_Done {A : Type} (o : option A) (a : A) : deref o = Done a -> o = Some a.
Proof. destruct o; by intros [= ->]. Qed.

Lemma bucket_loop_S (fuel : nat) (val : Z) (bucket : nat) :
  bucket_loop (S fuel) val bucket =
    if val =? 0 then Some bucket else bucket_loop fuel (val ≫ 1) (S bucket).
Proof. reflexivity. Qed.

Lemma shiftr1_bounds (v : Z) (n : Z) :
  0 <= n -> 0 <= v < 2 ^ (n + 1) -> 0 <= v ≫ 1 < 2 ^ n.
Proof.
  intros Hn Hv. rewrite Z.shiftr_div_pow2 by lia. change (2 ^ 1) with 2.
  rewrite Z.pow_add_r, Z.pow_1_r in Hv by lia.
  split; [apply Z.div_pos; lia|]. apply Z.div_lt_upper_bound; lia.
Qed.

Lemma shiftr1_zero (v : Z) : 0 <= v -> v ≫ 1 = 0 <-> v = 0 \/ v = 1.
Proof.
  intros Hv. rewrite Z.shiftr_div_pow2 by lia. change (2 ^ 1) with 2.
  rewrite Z.div_small_iff by lia. lia.
Qed.

Lemma log2_shiftr1 (v : Z) : 2 <= v -> Z.log2 (v ≫ 1) = Z.log2 v - 1.
Proof.
  intros Hv. rewrite Z.log2_shiftr by lia.
  assert (0 < Z.log2 v) by (apply Z.log2_pos; lia). lia.
Qed.

Lemma bucket_loop_log2 (fuel : nat) (val : Z) (bucket : nat) :
  0 <= val < 2 ^ Z.of_nat fuel ->
  bucket_loop (S fuel) val bucket =
    Some (if val =? 0 then bucket else (bucket + Z.to_nat (Z.log2 val) + 1)%nat).
Proof.
  revert val bucket. induction fuel as [|fuel IH]; intros val bucket Hv.
  - assert (val = 0) as -> by (simpl in Hv; lia). reflexivity.
  - rewrite bucket_loop_S. destruct (Z.eqb_spec val 0) as [->|Hnz]; [reflexivity|].
    rewrite IH
      by (apply shiftr1_bounds; [lia|];
          by replace (Z.of_nat fuel + 1) with (Z.of_nat (S fuel)) by lia).
    f_equal. destruct (Z.eqb_spec (val ≫ 1) 0) as [H0|H0].
    + apply shiftr1_zero in H0; [|lia].
      assert (val = 1) as -> by lia. simpl. lia.
    + rewrite shiftr1_zero in H0 by lia.
      rewrite log2_shiftr1 by lia.
      assert (0 < Z.log2 val) by (apply Z.log2_pos; lia). lia.
Qed.

Lemma bucket_index_log2 (v : Z) :
  0 <= v < 2 ^ 64 ->
  bucket_index v = Done (Z.to_nat (Z.log2 (Z.max v 1))).
Proof.
  intros Hv. unfold bucket_index.
  rewrite (bucket_loop_log2 63) by (by apply shiftr1_bounds).
  destruct (Z.eqb_spec (v ≫ 1) 0) as [H0|H0].
  - apply shiftr1_zero in H0; [|lia]. by destruct H0 as [-> | ->].
  - rewrite shiftr1_zero in H0 by lia.
    rewrite log2_shiftr1, Z.max_l by lia.
    assert (0 < Z.log2 v) by (apply Z.log2_pos; lia).
    f_equal. lia.
Qed.

Lemma bucket_index_lt (v : Z) (b : nat) :
  0 <= v < 2 ^ 64 -> bucket_index v = Done b -> (b < 64)%nat.
Proof.
  intros Hv. rewrite bucket_index_log2 by done. intros [= <-].
  destruct (Z.eq_dec v 0) as [->|]; [simpl; lia|].
  assert (Z.log2 (Z.max v 1) < 64); [|lia].
  apply Z.log2_lt_pow2; lia.
Qed.

(** ** Well-formedness and the view by tag *)

Lemma u32_range (z : Z) : 0 <= u32 z < 2 ^ 32.
Proof. unfold u32. apply Z.mod_pos_bound. lia. Qed.

Lemma u64_range (z : Z) : 0 <= u64 z < 2 ^ 64.
Proof. unfold u64. apply Z.mod_pos_bound. lia. Qed.

Lemma u32_small (z : Z) : 0 <= z < 2 ^ 32 -> u32 z = z.
Proof. intros. unfold u32. by apply Z.mod_small. Qed.

Lemma u64_small (z : Z) : 0 <= z < 2 ^ 64 -> u64 z = z.
Proof. intros. unfold u64. by apply Z.mod_small. Qed.

Lemma fresh_dist_wf : dist_wf fresh_dist.
Proof.
  split; try done; try (cbn; unfold UINT64_MAX; lia).
  apply Forall_replicate. lia.
Qed.

Lemma set_type_wf (d : Latency_Dist_t) (t : nat) : dist_wf d -> dist_wf (Dist.set_type d t).
Proof. intros []. by split. Qed.

Lemma bump_wf (d : Latency_Dist_t) (b : nat) (c : Z) :
  dist_wf d -> (b < 64)%nat -> dist_wf (bump d b c).
Proof.
  intros [] Hb. split; try done; cbn.
  - by rewrite length_insert.
  - apply Forall_insert; [done|]. apply u32_range.
  - rewrite list_lookup_insert_ne by lia. done.
Qed.

Lemma add_stats_wf (d : Latency_Dist_t) (v : Z) :
  dist_wf d -> 0 <= v < 2 ^ 64 -> dist_wf (add_stats d v).
Proof.
  intros [] Hv. unfold add_stats.
  destruct (v <? Dist.min d); cbn; destruct (v >? Dist.max d);
    split; cbn; try done; apply u64_range.
Qed.

Lemma stats_merge_wf (dd ds : Latency_Dist_t) :
  dist_wf dd -> dist_wf ds -> dist_wf (stats_merge dd ds).
Proof.
  intros [] []. unfold stats_merge.
  destruct (Dist.min ds <? Dist.min dd); cbn; destruct (Dist.max ds >? Dist.max dd);
    split; cbn; try done; apply u64_range.
Qed.

Lemma add_stats_type (d : Latency_Dist_t) (v : Z) :
  Dist.type (add_stats d v) = Dist.type d.
Proof.
  unfold add_stats. destruct (v <? Dist.min d); cbn; by destruct (v >? Dist.max d).
Qed.

Lemma add_stats_buckets (d : Latency_Dist_t) (v : Z) :
  Dist.buckets (add_stats d v) = Dist.buckets d.
Proof.
  unfold add_stats. destruct (v <? Dist.min d); cbn; by destruct (v >? Dist.max d).
Qed.

Lemma add_stats_count (d : Latency_Dist_t) (v : Z) :
  Dist.count (add_stats d v) = u64 (Dist.count d + 1).
Proof.
  unfold add_stats. destruct (v <? Dist.min d); cbn; by destruct (v >? Dist.max d).
Qed.

Lemma stats_merge_type (dd ds : Latency_Dist_t) :
  Dist.type (stats_merge dd ds) = Dist.type dd.
Proof.
  unfold stats_merge.
  destruct (Dist.min ds <? Dist.min dd); cbn; by destruct (Dist.max ds >? Dist.max dd).
Qed.

Lemma stats_merge_buckets (dd ds : Latency_Dist_t) :
  Dist.buckets (stats_merge dd ds) = Dist.buckets dd.
Proof.
  unfold stats_merge.
  destruct (Dist.min ds <? Dist.min dd); cbn; by destruct (Dist.max ds >? Dist.max dd).
Qed.

Lemma stats_merge_count (dd ds : Latency_Dist_t) :
  Dist.count (stats_merge dd ds) = u64 (Dist.count dd + Dist.count ds).
Proof.
  unfold stats_merge.
  destruct (Dist.min ds <? Dist.min dd); cbn; by destruct (Dist.max ds >? Dist.max dd).
Qed.

Lemma stats_merge_total (dd ds : Latency_Dist_t) :
  Dist.total (stats_merge dd ds) = u64 (Dist.total dd + Dist.total ds).
Proof.
  unfold stats_merge.
  destruct (Dist.min ds <? Dist.min dd); cbn; by destruct (Dist.max ds >? Dist.max dd).
Qed.

Lemma stats_merge_min (dd ds : Latency_Dist_t) :
  Dist.min (stats_merge dd ds) = Z.min (Dist.min dd) (Dist.min ds).
Proof.
  unfold stats_merge.
  destruct (Z.ltb_spec (Dist.min ds) (Dist.min dd)); cbn;
    destruct (Dist.max ds >? Dist.max dd); cbn; lia.
Qed.

Lemma stats_merge_max (dd ds : Latency_Dist_t) :
  Dist.max (stats_merge dd ds) = Z.max (Dist.max dd) (Dist.max ds).
Proof.
  unfold stats_merge.
  destruct (Dist.min ds <? Dist.min dd); cbn;
    destruct (Z.gtb_spec (Dist.max ds) (Dist.max dd)); cbn; lia.
Qed.

Lemma wf_new (n : string) : wf (dmtr_new_latency n).
Proof.
  split; unfold dmtr_new_latency; cbn [dists distPool distPoolNext].
  - apply length_replicate.
  - apply length_replicate.
  - unfold LATENCY_DIST_POOL_SIZE. lia.
  - intros t i [? ?]%lookup_replicate. done.
  - intros i d Hi. lia.
  - intros i Hi. apply lookup_replicate_2. lia.
  - intros i d [-> _]%lookup_replicate. apply fresh_dist_wf.
Qed.

Lemma dist_of_Some (l : dmtr_latency) (t : nat) (d : Latency_Dist_t) :
  wf l -> dist_of l t = Some d ->
  exists i, dists l !! t = Some (Some i) /\ distPool l !! i = Some d
            /\ (i < distPoolNext l)%nat /\ Dist.type d = t /\ dist_wf d.
Proof.
  intros Hwf Hd. unfold dist_of in Hd.
  destruct (dists l !! t) as [[i|]|] eqn:Ht; try done.
  exists i. destruct (wf_ptr l Hwf t i Ht) as (Hi & d' & Hd' & Hty).
  assert (d' = d) as -> by congruence.
  split_and!; try done. by eapply wf_dist.
Qed.

Lemma dist_of_lookup (l : dmtr_latency) (t i : nat) :
  dists l !! t = Some (Some i) -> dist_of l t = distPool l !! i.
Proof. intros H. unfold dist_of. by rewrite H. Qed.

Lemma dist_of_None (l : dmtr_latency) (t : nat) :
  wf l -> (t < LATENCY_MAX_DIST)%nat -> dist_of l t = None -> dists l !! t = Some None.
Proof.
  intros Hwf Ht Hd. unfold dist_of in Hd.
  destruct (dists l !! t) as [[i|]|] eqn:Hl; try done.
  - destruct (wf_ptr l Hwf t i Hl) as (_ & d & Hd' & _). congruence.
  - apply lookup_ge_None in Hl. rewrite (wf_dists_len l Hwf) in Hl. lia.
Qed.

Lemma dist_of_lt (l : dmtr_latency) (t : nat) :
  wf l -> is_Some (dist_of l t) -> (t < LATENCY_MAX_DIST)%nat.
Proof.
  intros Hwf [d Hd]. destruct (dist_of_Some l t d Hwf Hd) as (i & Hi & _).
  apply lookup_lt_Some in Hi. by rewrite (wf_dists_len l Hwf) in Hi.
Qed.

(** Overwriting the distribution of a tag in place. *)
Lemma wf_update_slot (l : dmtr_latency) (t i : nat) (d' : Latency_Dist_t) :
  wf l -> dists l !! t = Some (Some i) -> Dist.type d' = t -> dist_wf d' ->
  wf (set_distPool l (<[i := d']> (distPool l))).
Proof.
  intros Hwf Ht Hty Hd'.
  destruct (wf_ptr l Hwf t i Ht) as (Hi & d & Hd & Hdt).
  pose proof (lookup_lt_Some _ _ _ Hd) as Hlen.
  split; cbn.
  - by apply wf_dists_len.
  - rewrite length_insert. by apply wf_pool_len.
  - by apply wf_next.
  - intros t0 i0 Ht0. destruct (wf_ptr l Hwf t0 i0 Ht0) as (Hi0 & d0 & Hd0 & Hdt0).
    split; [done|]. destruct (decide (i0 = i)) as [->|Hne].
    + exists d'. rewrite list_lookup_insert_eq by done. split; [done|].
      congruence.
    + exists d0. by rewrite list_lookup_insert_ne.
  - intros i0 d0 Hi0. destruct (decide (i0 = i)) as [->|Hne].
    + rewrite list_lookup_insert_eq by done. intros [= <-]. by rewrite Hty.
    + rewrite list_lookup_insert_ne by done. by apply wf_used.
  - intros i0 Hi0. rewrite list_lookup_insert_ne by lia. by apply wf_free.
  - intros i0 d0. destruct (decide (i0 = i)) as [->|Hne].
    + rewrite list_lookup_insert_eq by done. by intros [= <-].
    + rewrite list_lookup_insert_ne by done. by apply wf_dist.
Qed.

Lemma dist_of_update_slot (l : dmtr_latency) (t i : nat) (d' : Latency_Dist_t) :
  wf l -> dists l !! t = Some (Some i) ->
  dist_of (set_distPool l (<[i := d']> (distPool l))) t = Some d'
  /\ forall t', t' <> t ->
       dist_of (set_distPool l (<[i := d']> (distPool l))) t' = dist_of l t'.
Proof.
  intros Hwf Ht.
  destruct (wf_ptr l Hwf t i Ht) as (Hi & d & Hd & Hdt).
  pose proof (lookup_lt_Some _ _ _ Hd) as Hlen.
  split.
  - unfold dist_of; cbn. rewrite Ht. by rewrite list_lookup_insert_eq.
  - intros t' Hne. unfold dist_of; cbn.
    destruct (dists l !! t') as [[i'|]|] eqn:Ht'; try done.
    destruct (decide (i' = i)) as [->|Hi'].
    + destruct (wf_ptr l Hwf t' i Ht') as (_ & d0 & Hd0 & Hdt0). congruence.
    + by rewrite list_lookup_insert_ne.
Qed.

(** ** The effect of [LatencyAddHist] and [LatencyAdd] *)

Lemma claim_dist_spec (l l' : dmtr_latency) (t : nat) :
  wf l -> claim_dist l t = Done l' ->
  wf l' /\ name l' = name l /\ latencies l' = latencies l
  /\ dist_of l' t = Some (base l t)
  /\ (forall t', t' <> t -> dist_of l' t' = dist_of l t')
  /\ distPoolNext l' = (if dist_of l t is Some _ then distPoolNext l
                        else S (distPoolNext l)).
Proof.
  intros Hwf H. unfold claim_dist in H.
  apply bind_Done in H as (slot & Hslot%deref_Done & H).
  destruct slot as [i|].
  - injection H as <-.
    destruct (wf_ptr l Hwf t i Hslot) as (Hi & d & Hd & Hdt).
    unfold base. rewrite (dist_of_lookup l t i Hslot), Hd. by cbn.
  - case_decide as Hfull; [done|].
    apply bind_Done in H as (d & Hd%deref_Done & H). injection H as <-.
    pose proof (wf_next l Hwf) as Hnext.
    assert (distPoolNext l < LATENCY_DIST_POOL_SIZE)%nat as Hlt by lia.
    rewrite (wf_free l Hwf) in Hd by lia. injection Hd as <-.
    pose proof (lookup_lt_Some _ _ _ Hslot) as Htlen.
    assert (dist_of l t = None) as Hnone by (unfold dist_of; by rewrite Hslot).
    assert (Hfree : distPool l !! distPoolNext l = Some fresh_dist)
      by (apply (wf_free l Hwf); lia).
    pose proof (lookup_lt_Some _ _ _ Hfree) as Hplen.
    split; [|split; [done|split; [done|split; [|split]]]].
    + split; cbn.
      * rewrite length_insert. by apply wf_dists_len.
      * rewrite length_insert. by apply wf_pool_len.
      * lia.
      * intros t0 i0. destruct (decide (t0 = t)) as [->|Hne].
        -- rewrite list_lookup_insert_eq by done. intros [= <-]. split; [lia|].
           eexists. rewrite list_lookup_insert_eq by done. done.
        -- rewrite list_lookup_insert_ne by done. intros Ht0.
           destruct (wf_ptr l Hwf t0 i0 Ht0) as (Hi0 & d0 & Hd0 & Hdt0).
           split; [lia|]. exists d0. by rewrite list_lookup_insert_ne by lia.
      * intros i0 d0 Hi0. destruct (decide (i0 = distPoolNext l)) as [->|Hne].
        -- rewrite list_lookup_insert_eq by done. intros [= <-]. cbn.
           by rewrite list_lookup_insert_eq.
        -- rewrite list_lookup_insert_ne by done. intros Hd0.
           assert (Hu : dists l !! Dist.type d0 = Some (Some i0))
             by (apply (wf_used l Hwf); [lia|done]).
           rewrite list_lookup_insert_ne; [done|]. intros Heq. congruence.
      * intros i0 Hi0. rewrite list_lookup_insert_ne by lia.
        apply (wf_free l Hwf). lia.
      * intros i0 d0. destruct (decide (i0 = distPoolNext l)) as [->|Hne].
        -- rewrite list_lookup_insert_eq by done. intros [= <-].
           apply set_type_wf, fresh_dist_wf.
        -- rewrite list_lookup_insert_ne by done. by apply wf_dist.
    + unfold dist_of, base; cbn. rewrite list_lookup_insert_eq by done.
      rewrite list_lookup_insert_eq by done. by rewrite Hnone.
    + intros t' Hne. unfold dist_of; cbn. rewrite list_lookup_insert_ne by done.
      destruct (dists l !! t') as [[i'|]|] eqn:Ht'; try done.
      destruct (wf_ptr l Hwf t' i' Ht') as (Hi' & _).
      by rewrite list_lookup_insert_ne by lia.
    + by rewrite Hnone.
Qed.

Lemma LatencyAddHist_spec (l l' : dmtr_latency) (t di : nat) (v c : Z) :
  wf l -> 0 <= v < 2 ^ 64 -> LatencyAddHist l t v c = Done (l', di) ->
  wf l' /\ name l' = name l /\ latencies l' = latencies l
  /\ dists l' !! t = Some (Some di)
  /\ (exists b, bucket_index v = Done b
                /\ dist_of l' t = Some (bump (base l t) b c))
  /\ (forall t', t' <> t -> dist_of l' t' = dist_of l t')
  /\ distPoolNext l' = (if dist_of l t is Some _ then distPoolNext l
                        else S (distPoolNext l)).
Proof.
  intros Hwf Hv H. unfold LatencyAddHist in H.
  apply bind_Done in H as (l1 & Hclaim & H).
  apply bind_Done in H as (slot & Hslot%deref_Done & H).
  apply bind_Done in H as (i & ->%deref_Done & H).
  apply bind_Done in H as (d & Hd%deref_Done & H).
  apply bind_Done in H as (b & Hb & H).
  destruct (claim_dist_spec l l1 t Hwf Hclaim)
    as (Hwf1 & Hn & Hl & Hbase & Hother & Hnext).
  case_decide as Hb65; [|done].
  apply bind_Done in H as (x0 & Hx0%deref_Done & H).
  injection H as <- <-.
  pose proof (bucket_index_lt v b Hv Hb) as Hb64.
  rewrite (dist_of_lookup l1 t i Hslot), Hd in Hbase. injection Hbase as ->.
  assert (Hbump : Dist.set_buckets (base l t)
                    (<[b:=u32 (x0 + c)]> (Dist.buckets (base l t)))
                  = bump (base l t) b c).
  { unfold bump. by rewrite Hx0. }
  rewrite Hbump.
  assert (Hty : Dist.type (bump (base l t) b c) = t).
  { destruct (wf_ptr l1 Hwf1 t i Hslot) as (_ & d0 & Hd0 & Hdt0). cbn. congruence. }
  assert (Hdwf : dist_wf (bump (base l t) b c)).
  { apply bump_wf; [|done]. by eapply wf_dist. }
  destruct (dist_of_update_slot l1 t i (bump (base l t) b c) Hwf1 Hslot) as [He Hne].
  split_and!; try done.
  - by eapply wf_update_slot.
  - by exists b.
  - intros t' Ht'. rewrite Hne by done. by apply Hother.
Qed.

Lemma claim_dist_ok (l : dmtr_latency) (t : nat) :
  wf l -> (t < LATENCY_MAX_DIST)%nat ->
  is_Some (dist_of l t) \/ (distPoolNext l < LATENCY_DIST_POOL_SIZE)%nat ->
  exists l', claim_dist l t = Done l'.
Proof.
  intros Hwf Ht Hroom. unfold claim_dist.
  destruct (lookup_lt_is_Some_2 (dists l) t) as [slot Hslot];
    [by rewrite (wf_dists_len l Hwf)|].
  rewrite Hslot. cbn. destruct slot as [i|]; [by eexists|].
  assert (dist_of l t = None) as Hnone by (unfold dist_of; by rewrite Hslot).
  destruct Hroom as [[d Hd]|Hroom]; [congruence|].
  case_decide; [lia|]. rewrite (wf_free l Hwf) by lia. cbn. by eexists.
Qed.

Lemma claim_dist_full (l : dmtr_latency) (t : nat) :
  dists l !! t = Some None -> distPoolNext l = LATENCY_DIST_POOL_SIZE ->
  claim_dist l t = Fault Abort.
Proof.
  intros Hslot Hfull. unfold claim_dist. rewrite Hslot. cbn.
  by case_decide.
Qed.

Lemma LatencyAddHist_ok (l : dmtr_latency) (t : nat) (v c : Z) :
  wf l -> (t < LATENCY_MAX_DIST)%nat -> 0 <= v < 2 ^ 64 ->
  is_Some (dist_of l t) \/ (distPoolNext l < LATENCY_DIST_POOL_SIZE)%nat ->
  exists l' di, LatencyAddHist l t v c = Done (l', di).
Proof.
  intros Hwf Ht Hv Hroom.
  destruct (claim_dist_ok l t Hwf Ht Hroom) as [l1 Hclaim].
  destruct (claim_dist_spec l l1 t Hwf Hclaim) as (Hwf1 & _ & _ & Hbase & _).
  destruct (dist_of_Some l1 t _ Hwf1 Hbase) as (i & Hi & Hd & _ & _ & Hdwf).
  unfold LatencyAddHist. rewrite Hclaim. cbn. rewrite Hi. cbn. rewrite Hd. cbn.
  rewrite (bucket_index_log2 v Hv). cbn.
  assert (Z.to_nat (Z.log2 (Z.max v 1)) < 64)%nat as Hb.
  { eapply bucket_index_lt; [done|]. by apply bucket_index_log2. }
  case_decide as Hlt; [|unfold LATENCY_NUM_BUCKETS in Hlt; lia].
  destruct (lookup_lt_is_Some_2 (Dist.buckets (base l t))
              (Z.to_nat (Z.log2 (Z.max v 1)))) as [x Hx].
  { by rewrite (dwf_len _ Hdwf). }
  rewrite Hx. cbn. by eexists _, _.
Qed.

Lemma LatencyAddHist_full (l : dmtr_latency) (t : nat) (v c : Z) :
  dists l !! t = Some None -> distPoolNext l = LATENCY_DIST_POOL_SIZE ->
  LatencyAddHist l t v c = Fault Abort.
Proof.
  intros Hslot Hfull. unfold LatencyAddHist.
  by rewrite (claim_dist_full l t Hslot Hfull).
Qed.

Lemma LatencyAddStat_frame (l : dmtr_latency) (t : nat) (v : Z) :
  dists (LatencyAddStat l t v) = dists l
  /\ distPool (LatencyAddStat l t v) = distPool l
  /\ distPoolNext (LatencyAddStat l t v) = distPoolNext l
  /\ name (LatencyAddStat l t v) = name l.
Proof. unfold LatencyAddStat. by case_match. Qed.

Lemma wf_frame (l l' : dmtr_latency) :
  dists l' = dists l -> distPool l' = distPool l -> distPoolNext l' = distPoolNext l ->
  wf l -> wf l'.
Proof.
  intros Hd Hp Hn []. split; rewrite ?Hd, ?Hp, ?Hn; done.
Qed.

Lemma dist_of_frame (l l' : dmtr_latency) (t : nat) :
  dists l' = dists l -> distPool l' = distPool l -> dist_of l' t = dist_of l t.
Proof. intros Hd Hp. unfold dist_of. by rewrite Hd, Hp. Qed.

Lemma LatencyAdd_spec (l l' : dmtr_latency) (t : nat) (v : Z) :
  wf l -> 0 <= v < 2 ^ 64 -> LatencyAdd l t v = Done l' ->
  wf l' /\ name l' = name l /\ latencies l' = push_sample l v
  /\ (exists b, bucket_index v = Done b
                /\ dist_of l' t = Some (add_stats (bump (base l t) b 1) v))
  /\ (forall t', t' <> t -> dist_of l' t' = dist_of l t')
  /\ distPoolNext l' = (if dist_of l t is Some _ then distPoolNext l
                        else S (distPoolNext l)).
Proof.
  intros Hwf Hv H. unfold LatencyAdd in H.
  apply bind_Done in H as ([l1 di] & Hhist & H).
  apply bind_Done in H as (d & Hd%deref_Done & H).
  change (Done (set_distPool (LatencyAddStat l1 t v)
                  (<[di := add_stats d v]> (distPool (LatencyAddStat l1 t v))))
          = Done l') in H.
  injection H as <-.
  destruct (LatencyAddHist_spec l l1 t di v 1 Hwf Hv Hhist)
    as (Hwf1 & Hn & Hl & Hslot & (b & Hb & Hdist) & Hother & Hnext).
  destruct (LatencyAddStat_frame l1 t v) as (Hfd & Hfp & Hfn & Hfname).
  set (l2 := LatencyAddStat l1 t v) in *.
  assert (Hwf2 : wf l2) by (by eapply wf_frame).
  rewrite Hfp in Hd.
  rewrite (dist_of_lookup l1 t di Hslot), Hd in Hdist. injection Hdist as ->.
  assert (Hslot2 : dists l2 !! t = Some (Some di)) by (by rewrite Hfd).
  assert (Hdwf : dist_wf (add_stats (bump (base l t) b 1) v)).
  { apply add_stats_wf; [|done]. by apply (wf_dist l1 Hwf1 di). }
  assert (Hty : Dist.type (add_stats (bump (base l t) b 1) v) = t).
  { destruct (wf_ptr l1 Hwf1 t di Hslot) as (_ & d0 & Hd0 & Hdt0).
    rewrite add_stats_type. congruence. }
  destruct (dist_of_update_slot l2 t di (add_stats (bump (base l t) b 1) v) Hwf2 Hslot2)
    as [He Hne].
  split_and!; try done.
  - by eapply wf_update_slot.
  - cbn. rewrite Hfname. done.
  - cbn. unfold l2, LatencyAddStat, push_sample. rewrite Hl.
    by destruct (Z.of_nat (length (latencies l)) <? MAX_ITERATIONS).
  - by exists b.
  - intros t' Ht'. rewrite Hne by done.
    rewrite (dist_of_frame l1 l2 t' Hfd Hfp). by apply Hother.
  - cbn. by rewrite Hfn.
Qed.

Lemma LatencyAdd_ok (l : dmtr_latency) (t : nat) (v : Z) :
  wf l -> (t < LATENCY_MAX_DIST)%nat -> 0 <= v < 2 ^ 64 ->
  is_Some (dist_of l t) \/ (distPoolNext l < LATENCY_DIST_POOL_SIZE)%nat ->
  exists l', LatencyAdd l t v = Done l'.
Proof.
  intros Hwf Ht Hv Hroom.
  destruct (LatencyAddHist_ok l t v 1 Hwf Ht Hv Hroom) as (l1 & di & Hhist).
  destruct (LatencyAddHist_spec l l1 t di v 1 Hwf Hv Hhist)
    as (Hwf1 & _ & _ & Hslot & _).
  destruct (wf_ptr l1 Hwf1 t di Hslot) as (_ & d & Hd & _).
  unfold LatencyAdd. rewrite Hhist. cbn.
  destruct (LatencyAddStat_frame l1 t v) as (_ & -> & _ & _).
  rewrite Hd. cbn. by eexists.
Qed.

Lemma LatencyAdd_full (l : dmtr_latency) (t : nat) (v : Z) :
  dists l !! t = Some None -> distPoolNext l = LATENCY_DIST_POOL_SIZE ->
  LatencyAdd l t v = Fault Abort.
Proof.
  intros Hslot Hfull. unfold LatencyAdd.
  by rewrite (LatencyAddHist_full l t v 1 Hslot Hfull).
Qed.

(** ** The effect of a merge *)

Lemma add_from_lookup (k j : nat) (xs ys : list Z) :
  add_from k xs ys !! j =
    (fun x => if decide (k <= j)%nat then u32 (x + default 0 (ys !! j)) else x) <$> xs !! j.
Proof. unfold add_from. by rewrite list_lookup_imap. Qed.

Lemma add_from_step (k : nat) (c : Z) (xs ys : list Z) :
  ys !! k = Some c ->
  add_from (S k) (<[k := u32 (default 0 (xs !! k) + c)]> xs) ys = add_from k xs ys.
Proof.
  intros Hc. apply list_eq. intros j. rewrite !add_from_lookup.
  destruct (decide (j = k)) as [->|Hne].
  - destruct (xs !! k) as [x|] eqn:Hx.
    + rewrite list_lookup_insert_eq by (by eapply lookup_lt_Some).
      cbn. rewrite Hc. cbn. repeat case_decide; try lia. done.
    + rewrite list_insert_ge by (by apply lookup_ge_None). by rewrite Hx.
  - rewrite list_lookup_insert_ne by done.
    destruct (xs !! j) as [x|]; [|done]. cbn.
    repeat case_decide; try lia; done.
Qed.

Lemma add_from_skip (k : nat) (xs ys : list Z) :
  ys !! k = Some 0 -> Forall (fun b => 0 <= b < 2 ^ 32) xs ->
  add_from (S k) xs ys = add_from k xs ys.
Proof.
  intros Hc Hr. apply list_eq. intros j. rewrite !add_from_lookup.
  destruct (xs !! j) as [x|] eqn:Hx; [|done]. cbn.
  destruct (decide (j = k)) as [->|Hne].
  - repeat case_decide; try lia. rewrite Hc. cbn. rewrite Z.add_0_r.
    rewrite u32_small; [done|]. apply (Forall_lookup_1 _ _ _ _ Hr Hx).
  - repeat case_decide; try lia; done.
Qed.

Lemma add_from_none (k : nat) (xs ys : list Z) :
  Forall (fun b => b = 0) (drop k ys) -> Forall (fun b => 0 <= b < 2 ^ 32) xs ->
  length xs = length ys ->
  add_from k xs ys = xs.
Proof.
  intros Hz Hr Hlen. apply list_eq. intros j. rewrite add_from_lookup.
  destruct (xs !! j) as [x|] eqn:Hx; [|done]. cbn.
  case_decide as Hkj; [|done].
  pose proof (lookup_lt_Some _ _ _ Hx) as Hj.
  destruct (lookup_lt_is_Some_2 ys j) as [y Hy]; [lia|].
  assert (y = 0) as ->.
  { apply (Forall_lookup_1 _ _ (j - k)%nat y Hz).
    rewrite lookup_drop. by replace (k + (j - k))%nat with j by lia. }
  rewrite Hy. cbn. rewrite Z.add_0_r, u32_small; [done|].
  apply (Forall_lookup_1 _ _ _ _ Hr Hx).
Qed.

Lemma add_from_0 (xs ys : list Z) :
  length xs = length ys ->
  add_from 0 xs ys = zip_with (fun x y => u32 (x + y)) xs ys.
Proof.
  intros Hlen. apply list_eq. intros j. rewrite add_from_lookup, lookup_zip_with.
  destruct (xs !! j) as [x|] eqn:Hx; [|done]. cbn.
  pose proof (lookup_lt_Some _ _ _ Hx) as Hj.
  destruct (lookup_lt_is_Some_2 ys j) as [y Hy]; [lia|].
  rewrite Hy. cbn. case_decide; [done|lia].
Qed.

Lemma base_wf (l : dmtr_latency) (t : nat) : wf l -> dist_wf (base l t).
Proof.
  intros Hwf. unfold base. destruct (dist_of l t) as [d|] eqn:Hd; cbn.
  - by destruct (dist_of_Some l t d Hwf Hd) as (_ & _ & _ & _ & _ & ?).
  - apply set_type_wf, fresh_dist_wf.
Qed.

Lemma base_live (l : dmtr_latency) (t : nat) (d : Latency_Dist_t) :
  dist_of l t = Some d -> base l t = d.
Proof. intros H. unfold base. by rewrite H. Qed.

Lemma shl1_Done (b : nat) (v : Z) :
  shl1 b = Done v -> (b < 64)%nat /\ v = 2 ^ Z.of_nat b /\ 0 <= v < 2 ^ 64.
Proof.
  unfold shl1. case_decide as Hb; [|done]. intros [= <-].
  rewrite Z.shiftl_1_l. split_and!; try done; [lia|].
  apply Z.pow_lt_mono_r; lia.
Qed.

Lemma bucket_index_pow2 (b : nat) :
  (b < 64)%nat -> bucket_index (2 ^ Z.of_nat b) = Done b.
Proof.
  intros Hb.
  assert (0 < 2 ^ Z.of_nat b) by (apply Z.pow_pos_nonneg; lia).
  rewrite bucket_index_log2.
  - rewrite Z.max_l by lia. rewrite Z.log2_pow2 by lia. by rewrite Nat2Z.id.
  - split; [lia|]. apply Z.pow_lt_mono_r; lia.
Qed.

Lemma Latency_Sum_bucket_spec (d : Latency_Dist_t) (cur cur1 : dmtr_latency) (k : nat) :
  wf cur -> Latency_Sum_bucket d cur k = Done cur1 ->
  exists c, Dist.buckets d !! k = Some c
    /\ ((c = 0 /\ cur1 = cur)
        \/ (c <> 0 /\ (k < 64)%nat /\ wf cur1 /\ name cur1 = name cur
            /\ latencies cur1 = latencies cur
            /\ dist_of cur1 (Dist.type d) = Some (bump (base cur (Dist.type d)) k c)
            /\ (forall t', t' <> Dist.type d -> dist_of cur1 t' = dist_of cur t')
            /\ distPoolNext cur1 =
                 (if dist_of cur (Dist.type d) is Some _ then distPoolNext cur
                  else S (distPoolNext cur)))).
Proof.
  intros Hwf H. unfold Latency_Sum_bucket in H.
  apply bind_Done in H as (c & Hc%deref_Done & H).
  exists c. split; [done|].
  destruct (Z.eqb_spec c 0) as [->|Hnz].
  - left. by injection H as <-.
  - right. apply bind_Done in H as (v & Hv & H).
    apply bind_Done in H as ([l1 di] & Hhist & H). injection H as <-.
    destruct (shl1_Done k v Hv) as (Hk & -> & Hrange).
    destruct (LatencyAddHist_spec cur l1 _ di _ c Hwf Hrange Hhist)
      as (Hwf1 & Hn & Hl & _ & (b & Hb & Hdist) & Hother & Hnext).
    rewrite bucket_index_pow2 in Hb by done. injection Hb as <-.
    by split_and!.
Qed.

Lemma Latency_Sum_bucket_loop (d : Latency_Dist_t) (n : nat) :
  forall (k : nat) (cur cur' : dmtr_latency),
  (k + n = LATENCY_NUM_BUCKETS)%nat -> wf cur -> dist_wf d ->
  for_each (Latency_Sum_bucket d) cur (seq k n) = Done cur' ->
  wf cur' /\ name cur' = name cur /\ latencies cur' = latencies cur
  /\ (forall t', t' <> Dist.type d -> dist_of cur' t' = dist_of cur t')
  /\ ((Forall (fun b => b = 0) (drop k (Dist.buckets d)) /\ cur' = cur)
      \/ (~ Forall (fun b => b = 0) (drop k (Dist.buckets d))
          /\ dist_of cur' (Dist.type d) =
               Some (Dist.set_buckets (base cur (Dist.type d))
                       (add_from k (Dist.buckets (base cur (Dist.type d)))
                          (Dist.buckets d))))).
Proof.
  induction n as [|n IH]; intros k cur cur' Hk Hwf Hd H.
  - cbn in H. injection H as <-. split_and!; try done. left. split; [|done].
    rewrite drop_ge; [done|]. rewrite (dwf_len d Hd). lia.
  - cbn [seq for_each] in H.
    apply bind_Done in H as (cur1 & Hstep & H).
    destruct (Latency_Sum_bucket_spec d cur cur1 k Hwf Hstep)
      as (c & Hc & [[-> ->]|(Hnz & Hk64 & Hwf1 & Hn1 & Hl1 & Hd1 & Ho1 & _)]).
    + destruct (IH (S k) cur cur' ltac:(lia) Hwf Hd H)
        as (Hwf' & Hn' & Hl' & Ho' & [[Hz ->]|[Hnz Hr]]).
      * split_and!; try done. left. split; [|done].
        rewrite (drop_S _ _ _ Hc). by constructor.
      * split_and!; try done. right. split.
        { rewrite (drop_S _ _ _ Hc). by intros [_ ?]%Forall_cons_1. }
        rewrite Hr. do 2 f_equal.
        apply add_from_skip; [done|]. apply dwf_range. by apply base_wf.
    + destruct (IH (S k) cur1 cur' ltac:(lia) Hwf1 Hd H)
        as (Hwf' & Hn' & Hl' & Ho' & Hcase).
      split_and!; try congruence.
      { intros t' Ht'. rewrite Ho' by done. by apply Ho1. }
      right. split.
      { rewrite (drop_S _ _ _ Hc). by intros [? _]%Forall_cons_1. }
      assert (Hb1 : base cur1 (Dist.type d) = bump (base cur (Dist.type d)) k c)
        by (by apply base_live).
      assert (Hgoal : Dist.set_buckets (base cur1 (Dist.type d))
                (add_from (S k) (Dist.buckets (base cur1 (Dist.type d))) (Dist.buckets d))
              = Dist.set_buckets (base cur (Dist.type d))
                  (add_from k (Dist.buckets (base cur (Dist.type d))) (Dist.buckets d))).
      { rewrite Hb1. unfold bump, Dist.set_buckets; cbn. f_equal.
        by apply add_from_step. }
      destruct Hcase as [[Hz ->]|[_ Hr]].
      * rewrite Hd1, <- Hgoal, Hb1. f_equal.
        destruct (bump (base cur (Dist.type d)) k c) as [] eqn:Hbd.
        unfold Dist.set_buckets; cbn. f_equal. symmetry.
        assert (Hbw : dist_wf (bump (base cur (Dist.type d)) k c))
          by (apply bump_wf; [by apply base_wf|done]).
        rewrite Hbd in Hbw. destruct Hbw; cbn in *.
        apply add_from_none; try done. by rewrite (dwf_len d Hd).
      * by rewrite Hr, Hgoal.
Qed.

Lemma hist_merge_wf (dd ds : Latency_Dist_t) :
  dist_wf dd -> dist_wf ds -> dist_wf (hist_merge dd ds).
Proof.
  intros [] []. split; try done; cbn.
  - rewrite length_zip_with. lia.
  - apply Forall_lookup_2. intros i x.
    intros (a & b & -> & _)%lookup_zip_with_Some. apply u32_range.
  - rewrite lookup_zip_with, dwf_last0, dwf_last1. done.
Qed.

Lemma hist_merge_zero (dd ds : Latency_Dist_t) :
  dist_wf dd -> dist_wf ds -> all_zero ds -> hist_merge dd ds = dd.
Proof.
  intros Hdd Hds Hz.
  assert (Hlen : length (Dist.buckets dd) = length (Dist.buckets ds))
    by (by rewrite (dwf_len _ Hdd), (dwf_len _ Hds)).
  pose proof (dwf_range _ Hdd) as Hr.
  destruct dd as [mn mx tot cnt bs ty]. unfold hist_merge; cbn in *.
  rewrite <- add_from_0 by done. unfold Dist.set_buckets; cbn.
  f_equal. by apply add_from_none.
Qed.

Lemma Latency_Sum_hist_spec (summand cur cur1 : dmtr_latency) (k : nat) :
  wf summand -> wf cur -> (k < distPoolNext summand)%nat ->
  Latency_Sum_hist summand cur k = Done cur1 ->
  exists d, distPool summand !! k = Some d
    /\ dists summand !! Dist.type d = Some (Some k)
    /\ wf cur1 /\ name cur1 = name cur /\ latencies cur1 = latencies cur
    /\ (forall t', t' <> Dist.type d -> dist_of cur1 t' = dist_of cur t')
    /\ dist_of cur1 (Dist.type d) =
         if decide (all_zero d) then dist_of cur (Dist.type d)
         else Some (hist_merge (base cur (Dist.type d)) d).
Proof.
  intros Hws Hwf Hk H. unfold Latency_Sum_hist in H.
  apply bind_Done in H as (d & Hd%deref_Done & H).
  exists d. split; [done|]. split; [by apply (wf_used summand Hws)|].
  pose proof (wf_dist summand Hws k d Hd) as Hdwf.
  destruct (Latency_Sum_bucket_loop d LATENCY_NUM_BUCKETS 0 cur cur1
              ltac:(done) Hwf Hdwf H)
    as (Hwf1 & Hn & Hl & Ho & Hcase).
  split_and!; try done.
  rewrite drop_0 in Hcase. destruct Hcase as [[Hz ->]|[Hnz Hr]].
  - by rewrite decide_True.
  - rewrite decide_False by done. rewrite Hr. f_equal. unfold hist_merge.
    f_equal. apply add_from_0.
    by rewrite (dwf_len _ (base_wf cur _ Hwf)), (dwf_len _ Hdwf).
Qed.

Lemma Latency_Sum_hist_loop (dest summand : dmtr_latency) (n : nat) :
  forall (k : nat) (cur cur' : dmtr_latency),
  (k + n = distPoolNext summand)%nat -> wf summand -> wf cur ->
  (forall t, dist_of cur t =
     match dists summand !! t with
     | Some (Some i) =>
         if decide (i < k)%nat then hist_view dest summand t else dist_of dest t
     | _ => dist_of dest t
     end) ->
  for_each (Latency_Sum_hist summand) cur (seq k n) = Done cur' ->
  wf cur' /\ name cur' = name cur /\ latencies cur' = latencies cur
  /\ forall t, dist_of cur' t = hist_view dest summand t.
Proof.
  induction n as [|n IH]; intros k cur cur' Hk Hws Hwf Hinv H.
  - cbn in H. injection H as <-. split_and!; try done.
    intros t. rewrite Hinv.
    destruct (dists summand !! t) as [[i|]|] eqn:Ht.
    + destruct (wf_ptr summand Hws t i Ht) as (Hi & _).
      by rewrite decide_True by lia.
    + assert (Hn : dist_of summand t = None) by (unfold dist_of; by rewrite Ht).
      unfold hist_view. by rewrite Hn.
    + assert (Hn : dist_of summand t = None) by (unfold dist_of; by rewrite Ht).
      unfold hist_view. by rewrite Hn.
  - cbn [seq for_each] in H.
    apply bind_Done in H as (cur1 & Hstep & H).
    destruct (Latency_Sum_hist_spec summand cur cur1 k Hws Hwf ltac:(lia) Hstep)
      as (d & Hd & Hdt & Hwf1 & Hn1 & Hl1 & Ho1 & Hd1).
    destruct (IH (S k) cur1 cur' ltac:(lia) Hws Hwf1) as (Hwf' & Hn' & Hl' & Hv');
      [|done|split_and!; congruence].
    intros t. destruct (decide (t = Dist.type d)) as [->|Hne].
    + rewrite Hdt, decide_True by lia. rewrite Hd1.
      pose proof (Hinv (Dist.type d)) as Hcur.
      rewrite Hdt, decide_False in Hcur by lia.
      unfold hist_view. rewrite (dist_of_lookup summand _ k Hdt), Hd.
      unfold base. by rewrite Hcur.
    + rewrite Ho1, Hinv by done.
      destruct (dists summand !! t) as [[i|]|] eqn:Ht; try done.
      assert (i <> k).
      { intros ->. destruct (wf_ptr summand Hws t k Ht) as (_ & d' & Hd' & Hdt').
        congruence. }
      repeat case_decide; try lia; done.
Qed.

Lemma Latency_Sum_stats_spec (summand cur cur' : dmtr_latency) (i : nat) :
  wf summand -> wf cur -> Latency_Sum_stats summand cur i = Done cur' ->
  wf cur' /\ name cur' = name cur /\ latencies cur' = latencies cur
  /\ (forall t, t <> i -> dist_of cur' t = dist_of cur t)
  /\ dist_of cur' i = stats_view cur summand i
  /\ (is_Some (dist_of summand i) -> is_Some (dist_of cur i)).
Proof.
  intros Hws Hwf H. unfold Latency_Sum_stats in H.
  apply bind_Done in H as (dd & Hdd%deref_Done & H).
  apply bind_Done in H as (ds & Hds%deref_Done & H).
  unfold stats_view. destruct ds as [si|].
  - apply bind_Done in H as (ds & Hsd%deref_Done & H).
    apply bind_Done in H as (di & ->%deref_Done & H).
    apply bind_Done in H as (d & Hd%deref_Done & H).
    change (Done (set_distPool cur (<[di := stats_merge d ds]> (distPool cur)))
            = Done cur') in H.
    injection H as <-.
    rewrite (dist_of_lookup summand i si Hds), Hsd.
    rewrite (dist_of_lookup cur i di Hdd), Hd. cbn.
    destruct (wf_ptr cur Hwf i di Hdd) as (_ & d0 & Hd0 & Hdt0).
    assert (d0 = d) as -> by congruence.
    destruct (dist_of_update_slot cur i di (stats_merge d ds) Hwf Hdd) as [He Hne].
    split_and!; try done.
    apply (wf_update_slot cur i); try done.
    + by rewrite stats_merge_type.
    + apply stats_merge_wf;
        [by apply (wf_dist cur Hwf di)|by apply (wf_dist summand Hws si)].
  - injection H as <-.
    assert (dist_of summand i = None) as -> by (unfold dist_of; by rewrite Hds).
    split_and!; try done.
Qed.

Lemma dist_of_ge (l : dmtr_latency) (t : nat) :
  wf l -> (LATENCY_MAX_DIST <= t)%nat -> dist_of l t = None.
Proof.
  intros Hwf Ht. unfold dist_of. rewrite lookup_ge_None_2; [done|].
  by rewrite (wf_dists_len l Hwf).
Qed.

Lemma Latency_Sum_stats_loop (dest1 summand : dmtr_latency) (n : nat) :
  forall (k : nat) (cur cur' : dmtr_latency),
  (k + n = LATENCY_MAX_DIST)%nat -> wf summand -> wf dest1 -> wf cur ->
  (forall t, dist_of cur t =
     if decide (t < k)%nat then stats_view dest1 summand t else dist_of dest1 t) ->
  (forall t, (t < k)%nat -> is_Some (dist_of summand t) -> is_Some (dist_of dest1 t)) ->
  for_each (Latency_Sum_stats summand) cur (seq k n) = Done cur' ->
  wf cur' /\ name cur' = name cur /\ latencies cur' = latencies cur
  /\ (forall t, dist_of cur' t = stats_view dest1 summand t)
  /\ (forall t, is_Some (dist_of summand t) -> is_Some (dist_of dest1 t)).
Proof.
  induction n as [|n IH]; intros k cur cur' Hk Hws Hwf1 Hwf Hinv Hsafe H.
  - cbn in H. injection H as <-. split_and!; try done.
    + intros t. rewrite Hinv. case_decide as Ht; [done|].
      unfold stats_view. rewrite (dist_of_ge summand t) by (done || lia). done.
    + intros t Hs. apply Hsafe; [|done].
      pose proof (dist_of_lt summand t Hws Hs). lia.
  - cbn [seq for_each] in H.
    apply bind_Done in H as (cur1 & Hstep & H).
    destruct (Latency_Sum_stats_spec summand cur cur1 k Hws Hwf Hstep)
      as (Hwfc & Hn1 & Hl1 & Ho1 & Hd1 & Hs1).
    pose proof (Hinv k) as Hcurk. rewrite decide_False in Hcurk by lia.
    destruct (IH (S k) cur1 cur' ltac:(lia) Hws Hwf1 Hwfc)
      as (Hwf' & Hn' & Hl' & Hv' & Hsafe'); [| |done|split_and!; (done || congruence)].
    + intros t. destruct (decide (t = k)) as [->|Hne].
      * rewrite decide_True by lia. rewrite Hd1. unfold stats_view.
        by rewrite Hcurk.
      * rewrite Ho1, Hinv by done. repeat case_decide; try lia; done.
    + intros t Ht Hs. destruct (decide (t = k)) as [->|Hne].
      * rewrite <- Hcurk. by apply Hs1.
      * apply Hsafe; [lia|done].
Qed.

Lemma Latency_Sum_halves (dest summand dest' : dmtr_latency) :
  Latency_Sum dest summand = Done dest' ->
  exists dest1,
    for_each (Latency_Sum_hist summand) dest (seq 0 (distPoolNext summand)) = Done dest1
    /\ for_each (Latency_Sum_stats summand) dest1 (seq 0 LATENCY_MAX_DIST) = Done dest'.
Proof. intros H. unfold Latency_Sum in H. by apply bind_Done in H. Qed.

Lemma Latency_Sum_hist_pass (dest summand dest1 : dmtr_latency) :
  wf dest -> wf summand ->
  for_each (Latency_Sum_hist summand) dest (seq 0 (distPoolNext summand)) = Done dest1 ->
  wf dest1 /\ name dest1 = name dest /\ latencies dest1 = latencies dest
  /\ forall t, dist_of dest1 t = hist_view dest summand t.
Proof.
  intros Hwd Hws H.
  apply (Latency_Sum_hist_loop dest summand (distPoolNext summand) 0%nat dest dest1);
    try done.
  intros t. by destruct (dists summand !! t) as [[i|]|].
Qed.

(** The whole merge, tag by tag. *)
Lemma Latency_Sum_spec (dest summand dest' : dmtr_latency) :
  wf dest -> wf summand -> Latency_Sum dest summand = Done dest' ->
  wf dest' /\ name dest' = name dest /\ latencies dest' = latencies dest
  /\ (forall t, dist_of dest' t = merge_view dest summand t)
  /\ (forall t ds, dist_of summand t = Some ds -> all_zero ds ->
        is_Some (dist_of dest t)).
Proof.
  intros Hwd Hws H.
  apply Latency_Sum_halves in H as (dest1 & H1 & H2).
  destruct (Latency_Sum_hist_pass dest summand dest1 Hwd Hws H1)
    as (Hwf1 & Hn1 & Hl1 & Hv1).
  destruct (Latency_Sum_stats_loop dest1 summand LATENCY_MAX_DIST 0%nat dest1 dest'
              ltac:(done) Hws Hwf1 Hwf1) as (Hwf' & Hn' & Hl' & Hv' & Hsafe);
    [by intros t|intros t Ht; lia|done|].
  assert (Hz : forall t ds, dist_of summand t = Some ds -> all_zero ds ->
                 is_Some (dist_of dest t)).
  { intros t ds Hds Hzero. specialize (Hsafe t ltac:(by rewrite Hds)).
    rewrite Hv1 in Hsafe. unfold hist_view in Hsafe.
    by rewrite Hds, decide_True in Hsafe by done. }
  split_and!; try (done || congruence).
  intros t. rewrite Hv'. unfold stats_view, merge_view. rewrite Hv1. unfold hist_view.
  destruct (dist_of summand t) as [ds|] eqn:Hds; [|done].
  case_decide as Hzero; [|done].
  destruct (Hz t ds Hds Hzero) as [dd Hdd]. rewrite Hdd. cbn.
  rewrite (base_live dest t dd Hdd).
  destruct (dist_of_Some dest t dd Hwd Hdd) as (_ & _ & _ & _ & _ & Hddwf).
  destruct (dist_of_Some summand t ds Hws Hds) as (_ & _ & _ & _ & _ & Hdswf).
  by rewrite hist_merge_zero.
Qed.

(** ** When a merge returns *)

Lemma Latency_Sum_bucket_ok (d : Latency_Dist_t) (cur : dmtr_latency) (k : nat) :
  wf cur -> dist_wf d -> (k < LATENCY_NUM_BUCKETS)%nat ->
  (Dist.type d < LATENCY_MAX_DIST)%nat ->
  is_Some (dist_of cur (Dist.type d))
    \/ (distPoolNext cur < LATENCY_DIST_POOL_SIZE)%nat ->
  exists cur1, Latency_Sum_bucket d cur k = Done cur1.
Proof.
  intros Hwf Hd Hk Ht Hroom. unfold Latency_Sum_bucket.
  destruct (lookup_lt_is_Some_2 (Dist.buckets d) k) as [c Hc];
    [by rewrite (dwf_len d Hd)|].
  rewrite Hc. cbn. destruct (Z.eqb_spec c 0) as [->|Hnz]; [by eexists|].
  assert (k < 64)%nat as Hk64.
  { destruct (decide (k = 64%nat)) as [->|]; [|unfold LATENCY_NUM_BUCKETS in Hk; lia].
    rewrite (dwf_last d Hd) in Hc. congruence. }
  unfold shl1. rewrite decide_True by done. cbn.
  destruct (LatencyAddHist_ok cur (Dist.type d) (1 ≪ Z.of_nat k) c Hwf Ht)
    as (l1 & di & Hhist); [|done|].
  { rewrite Z.shiftl_1_l. split; [lia|]. apply Z.pow_lt_mono_r; lia. }
  rewrite Hhist. cbn. by eexists.
Qed.

Lemma Latency_Sum_bucket_loop_ok (d : Latency_Dist_t) (n : nat) :
  forall (k : nat) (cur : dmtr_latency),
  (k + n = LATENCY_NUM_BUCKETS)%nat -> wf cur -> dist_wf d ->
  (Dist.type d < LATENCY_MAX_DIST)%nat ->
  is_Some (dist_of cur (Dist.type d))
    \/ (distPoolNext cur < LATENCY_DIST_POOL_SIZE)%nat ->
  exists cur', for_each (Latency_Sum_bucket d) cur (seq k n) = Done cur'.
Proof.
  induction n as [|n IH]; intros k cur Hk Hwf Hd Ht Hroom.
  - by eexists.
  - cbn [seq for_each].
    destruct (Latency_Sum_bucket_ok d cur k Hwf Hd ltac:(lia) Ht Hroom) as [cur1 Hstep].
    rewrite Hstep. cbn.
    destruct (Latency_Sum_bucket_spec d cur cur1 k Hwf Hstep)
      as (c & Hc & [[-> ->]|(Hnz & Hk64 & Hwf1 & _ & _ & Hd1 & _)]).
    + apply IH; (done || lia).
    + apply IH; try (done || lia). left. by rewrite Hd1.
Qed.

Lemma Latency_Sum_bucket_loop_next (d : Latency_Dist_t) (n : nat) :
  forall (k : nat) (cur cur' : dmtr_latency),
  wf cur -> for_each (Latency_Sum_bucket d) cur (seq k n) = Done cur' ->
  distPoolNext cur' = distPoolNext cur
  \/ (dist_of cur (Dist.type d) = None /\ distPoolNext cur' = S (distPoolNext cur)).
Proof.
  induction n as [|n IH]; intros k cur cur' Hwf H.
  - cbn in H. injection H as <-. by left.
  - cbn [seq for_each] in H.
    apply bind_Done in H as (cur1 & Hstep & H).
    destruct (Latency_Sum_bucket_spec d cur cur1 k Hwf Hstep)
      as (c & Hc & [[-> ->]|(Hnz & Hk64 & Hwf1 & _ & _ & Hd1 & _ & Hnext)]).
    + by apply (IH (S k)).
    + destruct (IH (S k) cur1 cur' Hwf1 H) as [Heq|[Hnone _]]; [|congruence].
      rewrite Heq, Hnext. destruct (dist_of cur (Dist.type d)); [by left|by right].
Qed.

Lemma Latency_Sum_hist_loop_ok (summand : dmtr_latency) (n : nat) :
  forall (k : nat) (cur : dmtr_latency),
  (k + n = distPoolNext summand)%nat -> wf summand -> wf cur ->
  (distPoolNext cur + n <= LATENCY_DIST_POOL_SIZE)%nat ->
  exists cur', for_each (Latency_Sum_hist summand) cur (seq k n) = Done cur'.
Proof.
  induction n as [|n IH]; intros k cur Hk Hws Hwf Hroom.
  - by eexists.
  - cbn [seq for_each].
    pose proof (wf_next summand Hws) as Hns.
    pose proof (wf_pool_len summand Hws) as Hpl.
    destruct (lookup_lt_is_Some_2 (distPool summand) k) as [d Hd]; [lia|].
    pose proof (wf_dist summand Hws k d Hd) as Hdwf.
    assert (Hdt : dists summand !! Dist.type d = Some (Some k))
      by (apply (wf_used summand Hws); [lia|done]).
    assert (Dist.type d < LATENCY_MAX_DIST)%nat as Ht.
    { apply lookup_lt_Some in Hdt. by rewrite (wf_dists_len summand Hws) in Hdt. }
    destruct (Latency_Sum_bucket_loop_ok d LATENCY_NUM_BUCKETS 0 cur
                ltac:(done) Hwf Hdwf Ht ltac:(right; lia)) as [cur1 Hloop].
    assert (Hstep : Latency_Sum_hist summand cur k = Done cur1).
    { unfold Latency_Sum_hist. rewrite Hd. done. }
    rewrite Hstep. cbn.
    destruct (Latency_Sum_hist_spec summand cur cur1 k Hws Hwf ltac:(lia) Hstep)
      as (_ & _ & _ & Hwf1 & _).
    apply IH; try (done || lia).
    destruct (Latency_Sum_bucket_loop_next d _ _ cur cur1 Hwf Hloop) as [->|[_ ->]]; lia.
Qed.

Lemma Latency_Sum_stats_ok (summand cur : dmtr_latency) (i : nat) :
  wf summand -> wf cur -> (i < LATENCY_MAX_DIST)%nat ->
  (is_Some (dist_of summand i) -> is_Some (dist_of cur i)) ->
  exists cur', Latency_Sum_stats summand cur i = Done cur'.
Proof.
  intros Hws Hwf Hi Hlive. unfold Latency_Sum_stats.
  destruct (lookup_lt_is_Some_2 (dists cur) i) as [dd Hdd];
    [by rewrite (wf_dists_len cur Hwf)|].
  destruct (lookup_lt_is_Some_2 (dists summand) i) as [ds Hds];
    [by rewrite (wf_dists_len summand Hws)|].
  rewrite Hdd, Hds. cbn. destruct ds as [si|]; [|by eexists].
  destruct (wf_ptr summand Hws i si Hds) as (_ & ds & Hsd & _).
  rewrite Hsd. cbn.
  destruct Hlive as [d Hd]; [by rewrite (dist_of_lookup summand i si Hds), Hsd|].
  destruct (dist_of_Some cur i d Hwf Hd) as (di & Hdi & Hpd & _).
  assert (dd = Some di) as -> by congruence. cbn. rewrite Hpd. cbn. by eexists.
Qed.

Lemma Latency_Sum_stats_loop_ok (summand : dmtr_latency) (n : nat) :
  forall (k : nat) (cur : dmtr_latency),
  (k + n = LATENCY_MAX_DIST)%nat -> wf summand -> wf cur ->
  (forall t, is_Some (dist_of summand t) -> is_Some (dist_of cur t)) ->
  exists cur', for_each (Latency_Sum_stats summand) cur (seq k n) = Done cur'.
Proof.
  induction n as [|n IH]; intros k cur Hk Hws Hwf Hlive.
  - by eexists.
  - cbn [seq for_each].
    destruct (Latency_Sum_stats_ok summand cur k Hws Hwf ltac:(lia) (Hlive k))
      as [cur1 Hstep].
    rewrite Hstep. cbn.
    destruct (Latency_Sum_stats_spec summand cur cur1 k Hws Hwf Hstep)
      as (Hwf1 & _ & _ & Ho1 & Hd1 & _).
    apply IH; try (done || lia).
    intros t Hs. destruct (decide (t = k)) as [->|Hne].
    + rewrite Hd1. unfold stats_view. destruct Hs as [ds Hds]. rewrite Hds.
      destruct (Hlive k ltac:(by rewrite Hds)) as [dd Hdd]. by rewrite Hdd.
    + rewrite Ho1 by done. by apply Hlive.
Qed.

(** After the first loop every tag of [summand] with a non-empty bucket
    has a distribution in [dest]. *)
Lemma hist_view_live (dest summand : dmtr_latency) (t : nat) (ds : Latency_Dist_t) :
  dist_of summand t = Some ds -> ~ all_zero ds \/ is_Some (dist_of dest t) ->
  is_Some (hist_view dest summand t).
Proof.
  intros Hds Hcase. unfold hist_view. rewrite Hds.
  case_decide as Hz; [|done]. by destruct Hcase.
Qed.

Lemma Latency_Sum_ok (dest summand : dmtr_latency) :
  wf dest -> wf summand ->
  (distPoolNext dest + distPoolNext summand <= LATENCY_DIST_POOL_SIZE)%nat ->
  (forall t ds, dist_of summand t = Some ds -> all_zero ds -> is_Some (dist_of dest t)) ->
  exists dest', Latency_Sum dest summand = Done dest'.
Proof.
  intros Hwd Hws Hroom Hz.
  destruct (Latency_Sum_hist_loop_ok summand (distPoolNext summand) 0 dest
              ltac:(done) Hws Hwd Hroom) as [dest1 H1].
  destruct (Latency_Sum_hist_pass dest summand dest1 Hwd Hws H1) as (Hwf1 & _ & _ & Hv1).
  destruct (Latency_Sum_stats_loop_ok summand LATENCY_MAX_DIST 0 dest1
              ltac:(done) Hws Hwf1) as [dest' H2].
  - intros t [ds Hds]. rewrite Hv1. apply (hist_view_live dest summand t ds Hds).
    destruct (decide (all_zero ds)); [right; by eapply Hz|by left].
  - exists dest'. unfold Latency_Sum. rewrite H1. done.
Qed.

(** ** Invariants of reachable recorders *)

Lemma reachable_wf (Q : Latency_Dist_t -> Prop) (l : dmtr_latency) :
  reachable_in Q l -> wf l.
Proof.
  induction 1 as [n|l l' t v _ IH Hv Hadd _|dest summand dest' _ IHd _ IHs Hsum _
                 |l _ IH].
  - apply wf_new.
  - by destruct (LatencyAdd_spec l l' t v IH Hv Hadd) as (? & _).
  - by destruct (Latency_Sum_spec dest summand dest' IHd IHs Hsum) as (? & _).
  - by apply (wf_frame l).
Qed.

Lemma reachable_in_weaken (Q : Latency_Dist_t -> Prop) (l : dmtr_latency) :
  reachable_in Q l -> reachable l.
Proof.
  induction 1 as [n|l l' t v _ IH Hv Hadd _|dest summand dest' _ IHd _ IHs Hsum _
                 |l _ IH].
  - apply reach_new.
  - by apply (reach_record _ l l' t v).
  - by apply (reach_merge _ dest summand dest').
  - by apply reach_dump.
Qed.

Lemma dmtr_record_latency_nonzero (l : dmtr_latency) (ns : Z) :
  ns <> 0 ->
  dmtr_record_latency l ns = (l' ← LatencyAdd l TAG_DEFAULT ns; Done (l', 0)).
Proof. intros Hns. unfold dmtr_record_latency. by destruct (Z.eqb_spec ns 0). Qed.

Lemma api_reachable_inv (l : dmtr_latency) :
  api_reachable l -> wf l /\ only_default l.
Proof.
  induction 1 as [n|l l' ns st _ [Hwf Hod] Hns Hrec
                 |dest summand dest' _ [Hwd Hod] _ [Hws Hos] Hsum
                 |l _ [Hwf Hod]].
  - split; [apply wf_new|]. intros t _. unfold dist_of.
    destruct (dists (dmtr_new_latency n) !! t) as [[i|]|] eqn:Ht; try done.
    by apply lookup_replicate in Ht as [? _].
  - destruct (decide (ns = 0)) as [->|Hnz].
    + cbn in Hrec. by injection Hrec as <- <-.
    + rewrite dmtr_record_latency_nonzero in Hrec by done.
      apply bind_Done in Hrec as (l1 & Hadd & Hrec). injection Hrec as <- <-.
      destruct (LatencyAdd_spec l l1 _ ns Hwf Hns Hadd) as (Hwf1 & _ & _ & _ & Ho & _).
      split; [done|]. intros t Ht. rewrite Ho by done. by apply Hod.
  - destruct (Latency_Sum_spec dest summand dest' Hwd Hws Hsum) as (Hwf' & _ & _ & Hv & _).
    split; [done|]. intros t Ht. rewrite Hv. unfold merge_view.
    rewrite (Hos t Ht). by apply Hod.
  - split; [by apply (wf_frame l)|]. intros t Ht. rewrite <- (Hod t Ht).
    by apply dist_of_frame.
Qed.

Lemma only_default_room (l : dmtr_latency) :
  wf l -> only_default l ->
  is_Some (dist_of l TAG_DEFAULT) \/ (distPoolNext l < LATENCY_DIST_POOL_SIZE)%nat.
Proof.
  intros Hwf Hod. destruct (dist_of l TAG_DEFAULT) as [d|] eqn:Hd; [by left|right].
  destruct (decide (distPoolNext l = 0%nat)) as [->|Hnz];
    [unfold LATENCY_DIST_POOL_SIZE; lia|].
  pose proof (wf_pool_len l Hwf) as Hlen. pose proof (wf_next l Hwf) as Hnext.
  destruct (lookup_lt_is_Some_2 (distPool l) 0) as [d0 Hd0]; [lia|].
  assert (Hu : dists l !! Dist.type d0 = Some (Some 0%nat))
    by (apply (wf_used l Hwf); [lia|done]).
  assert (Hlive : dist_of l (Dist.type d0) = Some d0)
    by (by rewrite (dist_of_lookup l _ 0 Hu)).
  destruct (decide (Dist.type d0 = TAG_DEFAULT)) as [Heq|Hne].
  - rewrite Heq in Hlive. congruence.
  - rewrite (Hod _ Hne) in Hlive. done.
Qed.

Lemma dmtr_record_latency_ok (l : dmtr_latency) (ns : Z) :
  wf l -> only_default l -> 0 <= ns < 2 ^ 64 ->
  exists l', dmtr_record_latency l ns = Done (l', 0).
Proof.
  intros Hwf Hod Hns.
  destruct (decide (ns = 0)) as [->|Hnz]; [by exists l|].
  destruct (LatencyAdd_ok l TAG_DEFAULT ns Hwf) as [l' Hadd]; try done.
  { unfold TAG_DEFAULT, LATENCY_MAX_DIST. lia. }
  { by apply only_default_room. }
  exists l'. rewrite dmtr_record_latency_nonzero by done. by rewrite Hadd.
Qed.

(** ** The bucket of a recorded value *)

Lemma bump_lookup (d : Latency_Dist_t) (b : nat) (c : Z) (k : nat) (x : Z) :
  Dist.buckets d !! k = Some x ->
  Dist.buckets (bump d b c) !! k = Some (if decide (k = b) then u32 (x + c) else x).
Proof.
  intros Hx. unfold bump. cbn [Dist.buckets Dist.set_buckets].
  case_decide as Hk.
  - subst k. rewrite Hx. cbn [default]. apply list_lookup_insert_eq.
    by apply lookup_lt_Some in Hx.
  - by rewrite list_lookup_insert_ne.
Qed.

(** C1.  For every 64-bit value [v] the bucket computed when recording [v]
    is [floor (log2 (max v 1))]: it is [floor (log2 v)] for [v >= 1] and [0]
    for [v = 0], it lies in [0, 64], and for [v >= 1] the bucket is [b]
    exactly when [2^b <= v < 2^(b+1)].  That bucket, and no other, is the
    one a recording of [v] adds to: [LatencyAddHist] adds its weight to it
    in the distribution of the tag, [LatencyAdd] adds one, and so does a
    call of [dmtr_record_latency], which returns on every recorder a client
    can hold. *)
Theorem bucket_index_floor_log2 (v : Z) :
  0 <= v < 2 ^ 64 ->
  bucket_index v = Done (Z.to_nat (Z.log2 (Z.max v 1)))
  /\ (1 <= v -> bucket_index v = Done (Z.to_nat (Z.log2 v)))
  /\ (v = 0 -> bucket_index v = Done 0%nat)
  /\ 0 <= Z.log2 (Z.max v 1) <= 64
  /\ (forall b : nat,
        1 <= v ->
        bucket_index v = Done b <-> 2 ^ Z.of_nat b <= v < 2 ^ (Z.of_nat b + 1))
  /\ (forall l l' t di c,
        wf l -> LatencyAddHist l t v c = Done (l', di) ->
        exists d', dist_of l' t = Some d'
          /\ forall k x, Dist.buckets (base l t) !! k = Some x ->
               Dist.buckets d' !! k
               = Some (if decide (k = Z.to_nat (Z.log2 (Z.max v 1)))
                       then u32 (x + c) else x))
  /\ (forall l l' t,
        wf l -> LatencyAdd l t v = Done l' ->
        exists d', dist_of l' t = Some d'
          /\ forall k x, Dist.buckets (base l t) !! k = Some x ->
               Dist.buckets d' !! k
               = Some (if decide (k = Z.to_nat (Z.log2 (Z.max v 1)))
                       then u32 (x + 1) else x))
  /\ (forall l,
        api_reachable l -> v <> 0 ->
        exists l' d', dmtr_record_latency l v = Done (l', 0)
          /\ dist_of l' TAG_DEFAULT = Some d'
          /\ forall k x, Dist.buckets (base l TAG_DEFAULT) !! k = Some x ->
               Dist.buckets d' !! k
               = Some (if decide (k = Z.to_nat (Z.log2 (Z.max v 1)))
                       then u32 (x + 1) else x)).
Proof.
  intros Hv. pose proof (bucket_index_log2 v Hv) as Hb.
  assert (Hadd : forall l l' t,
             wf l -> LatencyAdd l t v = Done l' ->
             exists d', dist_of l' t = Some d'
               /\ forall k x, Dist.buckets (base l t) !! k = Some x ->
                    Dist.buckets d' !! k
                    = Some (if decide (k = Z.to_nat (Z.log2 (Z.max v 1)))
                            then u32 (x + 1) else x)).
  { intros l l' t Hwf H.
    destruct (LatencyAdd_spec l l' t v Hwf Hv H) as (_ & _ & _ & (b & Hb' & Hd) & _).
    rewrite Hb in Hb'. injection Hb' as <-.
    eexists. split; [exact Hd|]. intros k x Hx.
    rewrite add_stats_buckets. by apply bump_lookup. }
  split; [done|]. split; [intros; by rewrite Hb, Z.max_l by lia|].
  split; [by intros ->|]. split.
  { split; [apply Z.log2_nonneg|].
    assert (Z.log2 (Z.max v 1) < 64); [apply Z.log2_lt_pow2|]; lia. }
  split.
  { intros b H1. rewrite Hb, Z.max_l by lia. split.
    + intros [= <-]. rewrite Z2Nat.id by apply Z.log2_nonneg.
      apply (Z.log2_spec v). lia.
    + intros Hr. f_equal. rewrite (Z.log2_unique v (Z.of_nat b)); lia. }
  split.
  { intros l l' t di c Hwf H.
    destruct (LatencyAddHist_spec l l' t di v c Hwf Hv H)
      as (_ & _ & _ & _ & (b & Hb' & Hd) & _).
    rewrite Hb in Hb'. injection Hb' as <-.
    eexists. split; [exact Hd|]. intros k x Hx. by apply bump_lookup. }
  split; [exact Hadd|].
  intros l Hl Hnz. destruct (api_reachable_inv l Hl) as [Hwf Hod].
  destruct (dmtr_record_latency_ok l v Hwf Hod Hv) as [l' Hrec].
  pose proof Hrec as Hrec'.
  rewrite dmtr_record_latency_nonzero in Hrec' by done.
  apply bind_Done in Hrec' as (l1 & H1 & [= <-]).
  destruct (Hadd l l1 TAG_DEFAULT Hwf H1) as (d' & Hd & Hk).
  by exists l1, d'.
Qed.

Lemma bucket_index_floor_log2_witness :
  bucket_index 1000 = Done 9%nat /\ 2 ^ 9 <= 1000 < 2 ^ 10
  /\ exists l' d', dmtr_record_latency (dmtr_new_latency "w") 1000 = Done (l', 0)
       /\ dist_of l' TAG_DEFAULT = Some d'
       /\ Dist.buckets d' !! 9%nat = Some 1
       /\ Dist.buckets d' !! 8%nat = Some 0
       /\ Dist.buckets d' !! 10%nat = Some 0.
Proof.
  destruct (bucket_index_floor_log2 1000 ltac:(lia))
    as (_ & _ & _ & _ & H & _ & _ & Hrec).
  split; [apply (H 9%nat); lia|]. split; [lia|].
  destruct (Hrec (dmtr_new_latency "w") (api_new "w") ltac:(lia))
    as (l' & d' & Hr & Hd & Hk).
  exists l', d'. split; [exact Hr|]. split; [exact Hd|].
  split; [exact (Hk 9%nat 0 eq_refl)|].
  split; [exact (Hk 8%nat 0 eq_refl)|exact (Hk 10%nat 0 eq_refl)].
Defined.

(** C9.  Recording [0] returns success and the recorder unchanged; on every
    recorder a client can hold, recording any [uint64_t] value returns, with
    the success status. *)
Theorem dmtr_record_latency_succeeds :
  (forall l, dmtr_record_latency l 0 = Done (l, 0))
  /\ (forall l ns, api_reachable l -> 0 <= ns < 2 ^ 64 ->
        exists l', dmtr_record_latency l ns = Done (l', 0)).
Proof.
  split; [done|]. intros l ns Hl Hns.
  destruct (api_reachable_inv l Hl) as [Hwf Hod].
  by apply dmtr_record_latency_ok.
Qed.

Lemma dmtr_record_latency_succeeds_witness :
  exists l', dmtr_record_latency (dmtr_new_latency "t") 5 = Done (l', 0).
Proof.
  destruct dmtr_record_latency_succeeds as [_ H].
  apply (H (dmtr_new_latency "t") 5); [apply api_new|lia].
Defined.

(** ** Sample count and buckets *)

Lemma sum_list_Z_cons (a : Z) (xs : list Z) :
  sum_list_Z (a :: xs) = a + sum_list_Z xs.
Proof. reflexivity. Qed.

Lemma sum_list_Z_insert (xs : list Z) (b : nat) (x y : Z) :
  xs !! b = Some x -> sum_list_Z (<[b := y]> xs) = sum_list_Z xs - x + y.
Proof.
  revert b. induction xs as [|a xs IH]; intros [|b] Hx; try done.
  - injection Hx as ->. change (<[0%nat:=y]> (x :: xs)) with (y :: xs).
    rewrite !sum_list_Z_cons. lia.
  - change (<[S b:=y]> (a :: xs)) with (a :: <[b:=y]> xs).
    rewrite !sum_list_Z_cons, (IH b Hx). lia.
Qed.

Lemma sum_list_Z_nonneg (xs : list Z) :
  Forall (fun b => 0 <= b < 2 ^ 32) xs -> 0 <= sum_list_Z xs.
Proof. induction 1; rewrite ?sum_list_Z_cons; [done|lia]. Qed.

Lemma sum_list_Z_elem (xs : list Z) (j : nat) (x : Z) :
  Forall (fun b => 0 <= b < 2 ^ 32) xs -> xs !! j = Some x -> x <= sum_list_Z xs.
Proof.
  intros Hr. revert j. induction Hr as [|a xs Ha Hr IH]; intros [|j] Hx; try done.
  - injection Hx as ->. pose proof (sum_list_Z_nonneg xs Hr).
    rewrite sum_list_Z_cons. lia.
  - specialize (IH j Hx). rewrite sum_list_Z_cons. lia.
Qed.

Lemma u32_shift (z : Z) : exists k, u32 z = z + k * 2 ^ 32.
Proof.
  exists (- (z / 2 ^ 32)). unfold u32.
  pose proof (Z.div_mod z (2 ^ 32) ltac:(lia)). lia.
Qed.

Lemma u64_mod32 (z : Z) : u64 z mod 2 ^ 32 = z mod 2 ^ 32.
Proof.
  unfold u64. apply Z.mod_mod_divide. exists (2 ^ 32). lia.
Qed.

Lemma sum_list_Z_zip (xs ys : list Z) :
  length xs = length ys ->
  exists k, sum_list_Z (zip_with (fun x y => u32 (x + y)) xs ys)
            = sum_list_Z xs + sum_list_Z ys + k * 2 ^ 32.
Proof.
  revert ys. induction xs as [|x xs IH]; intros [|y ys] Hlen; try done.
  - by exists 0.
  - cbn in Hlen. destruct (IH ys ltac:(lia)) as [k Hk].
    destruct (u32_shift (x + y)) as [k' Hk'].
    exists (k + k'). change (zip_with (fun x y => u32 (x + y)) (x :: xs) (y :: ys))
      with (u32 (x + y) :: zip_with (fun x y => u32 (x + y)) xs ys).
    rewrite !sum_list_Z_cons, Hk, Hk'. lia.
Qed.

Lemma sum_list_Z_zip_exact (xs ys : list Z) :
  Forall (fun b => 0 <= b < 2 ^ 32) xs -> Forall (fun b => 0 <= b < 2 ^ 32) ys ->
  length xs = length ys ->
  sum_list_Z xs + sum_list_Z ys < 2 ^ 32 ->
  sum_list_Z (zip_with (fun x y => u32 (x + y)) xs ys) = sum_list_Z xs + sum_list_Z ys.
Proof.
  intros Hx. revert ys. induction Hx as [|x xs Hx0 Hx IH]; intros ys Hy Hlen Hsum.
  - by destruct ys.
  - destruct Hy as [|y ys Hy0 Hy]; [done|].
    change (zip_with (fun x y => u32 (x + y)) (x :: xs) (y :: ys))
      with (u32 (x + y) :: zip_with (fun x y => u32 (x + y)) xs ys).
    rewrite !sum_list_Z_cons in *. cbn in Hlen.
    pose proof (sum_list_Z_nonneg xs Hx). pose proof (sum_list_Z_nonneg ys Hy).
    rewrite (IH ys Hy) by lia. rewrite u32_small by lia. lia.
Qed.

(** A property of distributions kept by every step holds of every slot of
    every reachable recorder. *)
Lemma every_dist_views (P : Latency_Dist_t -> Prop) (l : dmtr_latency) :
  wf l -> P fresh_dist -> (forall t d, dist_of l t = Some d -> P d) -> every_dist P l.
Proof.
  intros Hwf Hfresh Hview i d Hd.
  destruct (decide (i < distPoolNext l)%nat) as [Hi|Hi].
  - apply (Hview (Dist.type d)).
    by rewrite (dist_of_lookup l _ i (wf_used l Hwf i d Hi Hd)).
  - pose proof (lookup_lt_Some _ _ _ Hd) as Hlt. rewrite (wf_pool_len l Hwf) in Hlt.
    rewrite (wf_free l Hwf) in Hd by lia. by injection Hd as <-.
Qed.

Lemma every_dist_view (P : Latency_Dist_t -> Prop) (l : dmtr_latency) (t : nat)
    (d : Latency_Dist_t) :
  wf l -> every_dist P l -> dist_of l t = Some d -> P d.
Proof.
  intros Hwf Hall Hd. destruct (dist_of_Some l t d Hwf Hd) as (i & _ & Hi & _).
  by apply (Hall i).
Qed.

Lemma every_dist_base (P : Latency_Dist_t -> Prop) (l : dmtr_latency) (t : nat) :
  wf l -> (forall d t, P d -> P (Dist.set_type d t)) -> P fresh_dist ->
  every_dist P l -> P (base l t).
Proof.
  intros Hwf Hty Hfresh Hall. unfold base.
  destruct (dist_of l t) as [d|] eqn:Hd; cbn; [by eapply every_dist_view|by apply Hty].
Qed.

Lemma reachable_in_every (Q P : Latency_Dist_t -> Prop) :
  P fresh_dist ->
  (forall d t, P d -> P (Dist.set_type d t)) ->
  (forall d b v, dist_wf d -> (b < 64)%nat -> 0 <= v < 2 ^ 64 -> P d ->
     Q (add_stats (bump d b 1) v) -> P (add_stats (bump d b 1) v)) ->
  (forall dd ds, dist_wf dd -> dist_wf ds -> P dd -> P ds ->
     Q (stats_merge (hist_merge dd ds) ds) -> P (stats_merge (hist_merge dd ds) ds)) ->
  forall l, reachable_in Q l -> every_dist P l.
Proof.
  intros Hfresh Hty Hrec Hmerge l Hl.
  induction Hl as [n|l l' t v Hl IH Hv Hadd HQ
                  |dest summand dest' Hd IHd Hs IHs Hsum HQ
                  |l Hl IH]; [| | |exact IH].
  - intros i d [-> _]%lookup_replicate. done.
  - pose proof (reachable_wf Q l Hl) as Hwf.
    destruct (LatencyAdd_spec l l' t v Hwf Hv Hadd)
      as (Hwf' & _ & _ & (b & Hb & Hdt) & Ho & _).
    apply every_dist_views; [done|done|]. intros t' d Hd.
    destruct (decide (t' = t)) as [->|Hne].
    + rewrite Hdt in Hd. injection Hd as <-.
      apply Hrec; try done.
      * by apply base_wf.
      * by apply (bucket_index_lt v).
      * by apply every_dist_base.
      * by apply (every_dist_view Q l' t).
    + rewrite Ho in Hd by done. by apply (every_dist_view P l t').
  - pose proof (reachable_wf Q dest Hd) as Hwd.
    pose proof (reachable_wf Q summand Hs) as Hws.
    destruct (Latency_Sum_spec dest summand dest' Hwd Hws Hsum)
      as (Hwf' & _ & _ & Hv & _).
    apply every_dist_views; [done|done|]. intros t d Hdt.
    pose proof Hdt as Hdt'. rewrite Hv in Hdt. unfold merge_view in Hdt.
    destruct (dist_of summand t) as [ds|] eqn:Hds.
    + injection Hdt as <-.
      destruct (dist_of_Some summand t ds Hws Hds) as (_ & _ & _ & _ & _ & Hdswf).
      apply Hmerge; try done.
      * by apply base_wf.
      * by apply every_dist_base.
      * by apply (every_dist_view P summand t).
      * by apply (every_dist_view Q dest' t).
    + by apply (every_dist_view P dest t).
Qed.

Lemma count_cong_record (d : Latency_Dist_t) (b : nat) (v : Z) :
  dist_wf d -> (b < 64)%nat -> count_cong d -> count_cong (add_stats (bump d b 1) v).
Proof.
  intros Hd Hb Hc. unfold count_cong in *.
  rewrite add_stats_count, add_stats_buckets, u64_mod32. cbn.
  destruct (lookup_lt_is_Some_2 (Dist.buckets d) b) as [x Hx];
    [rewrite (dwf_len d Hd); unfold LATENCY_NUM_BUCKETS; lia|].
  rewrite (sum_list_Z_insert _ b x _ Hx), Hx. cbn.
  destruct (u32_shift (x + 1)) as [k ->].
  replace (sum_list_Z (Dist.buckets d) - x + (x + 1 + k * 2 ^ 32))
    with (sum_list_Z (Dist.buckets d) + 1 + k * 2 ^ 32) by lia.
  rewrite Z_mod_plus_full.
  rewrite <- (Zplus_mod_idemp_l (Dist.count d)), Hc, Zplus_mod_idemp_l. done.
Qed.

Lemma count_cong_merge (dd ds : Latency_Dist_t) :
  dist_wf dd -> dist_wf ds -> count_cong dd -> count_cong ds ->
  count_cong (stats_merge (hist_merge dd ds) ds).
Proof.
  intros Hdd Hds Hcd Hcs. unfold count_cong in *.
  rewrite stats_merge_count, stats_merge_buckets, u64_mod32. cbn.
  destruct (sum_list_Z_zip (Dist.buckets dd) (Dist.buckets ds)) as [k ->];
    [by rewrite (dwf_len dd Hdd), (dwf_len ds Hds)|].
  rewrite Z_mod_plus_full.
  rewrite Zplus_mod, Hcd, Hcs, <- Zplus_mod. done.
Qed.

Lemma count_exact_record (d : Latency_Dist_t) (b : nat) (v : Z) :
  dist_wf d -> (b < 64)%nat -> count_exact d /\ count_small d ->
  count_small (add_stats (bump d b 1) v) ->
  count_exact (add_stats (bump d b 1) v) /\ count_small (add_stats (bump d b 1) v).
Proof.
  intros Hd Hb [Hc Hs] Hs'. split; [|done]. unfold count_exact, count_small in *.
  rewrite add_stats_count in *. rewrite add_stats_buckets. cbn in *.
  pose proof (dwf_count d Hd) as Hcr.
  rewrite u64_small in * by lia.
  destruct (lookup_lt_is_Some_2 (Dist.buckets d) b) as [x Hx];
    [rewrite (dwf_len d Hd); unfold LATENCY_NUM_BUCKETS; lia|].
  rewrite (sum_list_Z_insert _ b x _ Hx), Hx. cbn.
  pose proof (sum_list_Z_elem _ b x (dwf_range d Hd) Hx).
  pose proof (Forall_lookup_1 _ _ _ _ (dwf_range d Hd) Hx) as Hxr. cbn in Hxr.
  rewrite u32_small by lia. lia.
Qed.

Lemma count_exact_merge (dd ds : Latency_Dist_t) :
  dist_wf dd -> dist_wf ds ->
  count_exact dd /\ count_small dd -> count_exact ds /\ count_small ds ->
  count_small (stats_merge (hist_merge dd ds) ds) ->
  count_exact (stats_merge (hist_merge dd ds) ds)
  /\ count_small (stats_merge (hist_merge dd ds) ds).
Proof.
  intros Hdd Hds [Hcd Hsd] [Hcs Hss] Hs'. split; [|done].
  unfold count_exact, count_small in *.
  rewrite stats_merge_count in *. rewrite stats_merge_buckets. cbn in *.
  pose proof (dwf_count dd Hdd). pose proof (dwf_count ds Hds).
  rewrite u64_small in * by lia.
  rewrite sum_list_Z_zip_exact; try (by apply dwf_range); [lia| |lia].
  by rewrite (dwf_len dd Hdd), (dwf_len ds Hds).
Qed.

Lemma fresh_dist_count : count_exact fresh_dist /\ count_small fresh_dist.
Proof. split; [reflexivity|]. unfold count_small; cbn. lia. Qed.

Lemma double_reachable (x x' : dmtr_latency) :
  reachable x -> double x = Done x' -> reachable x'.
Proof.
  intros Hx H. unfold double in H. apply bind_Done in H as (y & Hy & H).
  assert (reachable y) as Hry.
  { apply (reach_merge _ (dmtr_new_latency "copy") x y);
      [apply reach_new|exact Hx|exact Hy|by intros ? ? ?]. }
  apply (reach_merge _ x y x'); [exact Hx|exact Hry|exact H|by intros ? ? ?].
Qed.

Lemma iter_double_reachable (n : nat) (x x' : dmtr_latency) :
  reachable x -> iter_double n x = Done x' -> reachable x'.
Proof.
  revert x. induction n as [|n IH]; intros x Hx H.
  - cbn in H. by injection H as <-.
  - cbn in H. apply bind_Done in H as (x1 & H1 & H).
    apply (IH x1); [|exact H]. by apply (double_reachable x).
Qed.

Lemma dmtr_record_latency_reachable (l l' : dmtr_latency) (ns st : Z) :
  reachable l -> 0 <= ns < 2 ^ 64 -> dmtr_record_latency l ns = Done (l', st) ->
  reachable l'.
Proof.
  intros Hl Hns H. destruct (decide (ns = 0)) as [->|Hnz].
  - cbn in H. by injection H as <- _.
  - rewrite dmtr_record_latency_nonzero in H by done.
    apply bind_Done in H as (l1 & Hadd & H). injection H as <- _.
    apply (reach_record _ l l1 TAG_DEFAULT ns); [exact Hl|exact Hns|exact Hadd|].
    by intros ? ? ?.
Qed.

Lemma api_reachable_reachable (l : dmtr_latency) : api_reachable l -> reachable l.
Proof.
  induction 1 as [n|l l' ns st _ IH Hns Hrec|dest summand dest' _ IHd _ IHs Hsum|l _ IH].
  - apply reach_new.
  - by apply (dmtr_record_latency_reachable l l' ns st).
  - apply (reach_merge _ dest summand dest'); [exact IHd|exact IHs|exact Hsum|].
    by intros ? ? ?.
  - by apply reach_dump.
Qed.

Lemma record_doubled_reachable (l0 l : dmtr_latency) (n : nat) :
  reachable l0 -> record_doubled l0 n = Done l -> reachable l.
Proof.
  intros Hl0 H. unfold record_doubled in H.
  apply bind_Done in H as ([x st] & Hrec & H).
  apply (iter_double_reachable n x); [|exact H].
  apply (dmtr_record_latency_reachable l0 x 1 st); [exact Hl0|lia|exact Hrec].
Qed.

Lemma wrapped_recorder_reachable (l : dmtr_latency) :
  wrapped_recorder = Done l -> reachable l.
Proof.
  unfold wrapped_recorder. apply record_doubled_reachable. apply reach_new.
Qed.

(** After [2^32] samples the 32-bit bucket is back to zero while the 64-bit
    count is [2^32]. *)
Lemma wrapped_recorder_state :
  exists l, wrapped_recorder = Done l
    /\ dists l !! TAG_DEFAULT = Some (Some 0%nat)
    /\ Dist.count <$> distPool l !! 0%nat = Some (2 ^ 32)
    /\ Dist.buckets <$> distPool l !! 0%nat = Some (replicate LATENCY_NUM_BUCKETS 0)
    /\ for_each (Latency_Sum_hist l) (dmtr_new_latency "d") (seq 0 (distPoolNext l))
         = Done (dmtr_new_latency "d")
    /\ Latency_Sum_stats l (dmtr_new_latency "d") TAG_DEFAULT = Fault Undefined
    /\ Latency_Sum (dmtr_new_latency "d") l = Fault Undefined.
Proof.
  eexists. split; [vm_compute; reflexivity|].
  split_and!; vm_compute; reflexivity.
Qed.

Ltac every_dist_compute :=
  let i := fresh "i" in let d := fresh "d" in let Hd := fresh "Hd" in
  intros i d Hd;
  repeat (destruct i as [|i]; [injection Hd as <-; by vm_compute|]);
  done.

(** C2, as the code has it.  The buckets are 32-bit counters and the count
    is a 64-bit one: in every distribution of every recorder reachable by
    creating, recording and merging, the count and the sum of the 65 buckets
    agree modulo [2^32]; they are equal as long as the counts of all the
    recorders involved have stayed below [2^32]. *)
Theorem count_sum_buckets :
  (forall l, reachable l -> every_dist count_cong l)
  /\ (forall l, reachable_in count_small l -> every_dist count_exact l).
Proof.
  split.
  - apply reachable_in_every; try done.
    + intros d b v Hd Hb _ Hc _. by apply count_cong_record.
    + intros dd ds Hdd Hds Hcd Hcs _. by apply count_cong_merge.
  - intros l Hl i d Hd.
    apply (reachable_in_every count_small
             (fun d => count_exact d /\ count_small d)) in Hl.
    + by destruct (Hl i d Hd).
    + apply fresh_dist_count.
    + done.
    + intros d0 b v Hd0 Hb _ Hc Hs. by apply count_exact_record.
    + intros dd ds Hdd Hds Hcd Hcs Hs. by apply count_exact_merge.
Qed.

Lemma count_sum_buckets_witness :
  exists l, LatencyAdd (dmtr_new_latency "t") TAG_DEFAULT 7 = Done l
    /\ every_dist count_cong l /\ every_dist count_exact l.
Proof.
  eexists. split; [vm_compute; reflexivity|].
  destruct count_sum_buckets as [Hcong Hexact]. split.
  - apply Hcong.
    eapply (reach_record _ (dmtr_new_latency "t") _ TAG_DEFAULT 7);
      [apply reach_new|lia|vm_compute; reflexivity|done].
  - apply Hexact.
    eapply (reach_record _ (dmtr_new_latency "t") _ TAG_DEFAULT 7);
      [apply reach_new|lia|vm_compute; reflexivity|every_dist_compute].
Defined.

(** The claim C2 as stated fails: a recorder reachable by one recording and
    64 merges has a distribution with count [2^32] and all buckets zero. *)
Lemma count_sum_buckets_unwrapped_fails :
  ~ (forall l, reachable l -> every_dist count_exact l).
Proof.
  intros H. destruct wrapped_recorder_state as (l & Hl & _ & Hc & Hb & _).
  destruct (distPool l !! 0%nat) as [d|] eqn:Hd; [|done].
  injection Hc as Hc. injection Hb as Hb.
  specialize (H l (wrapped_recorder_reachable l Hl) 0%nat d Hd).
  unfold count_exact in H. rewrite Hc, Hb in H. vm_compute in H. discriminate H.
Qed.

(** ** Merging two recorders *)

Lemma add_all_reachable (samples : list (nat * Z)) :
  forall l0 l, reachable l0 -> Forall (fun s => 0 <= s.2 < 2 ^ 64) samples ->
  add_all l0 samples = Done l -> reachable l.
Proof.
  induction samples as [|[t v] samples IH]; intros l0 l Hl0 Hr H.
  - cbn in H. by injection H as <-.
  - unfold add_all in H. cbn [for_each] in H.
    apply bind_Done in H as (l1 & Hadd & H).
    apply Forall_cons_1 in Hr as [Hv Hr].
    apply (IH l1); [|exact Hr|exact H].
    apply (reach_record _ l0 l1 t v); [exact Hl0|exact Hv|exact Hadd|by intros ? ? ?].
Qed.

Lemma hist_merge_lookup (dd ds : Latency_Dist_t) (b : nat) (x y : Z) :
  Dist.buckets dd !! b = Some x -> Dist.buckets ds !! b = Some y ->
  Dist.buckets (hist_merge dd ds) !! b = Some (u32 (x + y)).
Proof.
  intros Hx Hy. unfold hist_merge; cbn. rewrite lookup_zip_with, Hx, Hy. done.
Qed.

(** C3, as the code has it.  After [Latency_Sum dest summand] returns, the
    distribution of a tag that both recorders had holds: as count the sum
    of the two counts, as min the smaller min, as max the larger max, as
    total the sum of the two totals, and in each bucket the sum of the two
    buckets.  The sums are those of the fields, modulo [2^64] for count and
    total and modulo [2^32] for the buckets: they are the plain sums
    whenever these fit. *)
Theorem merge_shared_tag (dest summand dest' : dmtr_latency) (t : nat)
    (dd ds : Latency_Dist_t) :
  reachable dest -> reachable summand ->
  Latency_Sum dest summand = Done dest' ->
  dist_of dest t = Some dd -> dist_of summand t = Some ds ->
  exists d', dist_of dest' t = Some d'
    /\ Dist.count d' = u64 (Dist.count dd + Dist.count ds)
    /\ Dist.min d' = Z.min (Dist.min dd) (Dist.min ds)
    /\ Dist.max d' = Z.max (Dist.max dd) (Dist.max ds)
    /\ Dist.total d' = u64 (Dist.total dd + Dist.total ds)
    /\ length (Dist.buckets d') = LATENCY_NUM_BUCKETS
    /\ (forall b x y, Dist.buckets dd !! b = Some x -> Dist.buckets ds !! b = Some y ->
          Dist.buckets d' !! b = Some (u32 (x + y)))
    /\ (Dist.count dd + Dist.count ds < 2 ^ 64 ->
          Dist.count d' = Dist.count dd + Dist.count ds)
    /\ (Dist.total dd + Dist.total ds < 2 ^ 64 ->
          Dist.total d' = Dist.total dd + Dist.total ds)
    /\ (forall b x y, Dist.buckets dd !! b = Some x -> Dist.buckets ds !! b = Some y ->
          x + y < 2 ^ 32 -> Dist.buckets d' !! b = Some (x + y)).
Proof.
  intros Hd Hs Hsum Hdd Hds.
  pose proof (reachable_wf _ dest Hd) as Hwd.
  pose proof (reachable_wf _ summand Hs) as Hws.
  destruct (Latency_Sum_spec dest summand dest' Hwd Hws Hsum) as (Hwf' & _ & _ & Hv & _).
  destruct (dist_of_Some dest t dd Hwd Hdd) as (_ & _ & _ & _ & _ & Hddwf).
  destruct (dist_of_Some summand t ds Hws Hds) as (_ & _ & _ & _ & _ & Hdswf).
  assert (Hd' : dist_of dest' t = Some (stats_merge (hist_merge dd ds) ds)).
  { rewrite Hv. unfold merge_view. by rewrite Hds, (base_live dest t dd Hdd). }
  exists (stats_merge (hist_merge dd ds) ds).
  split; [done|].
  rewrite stats_merge_count, stats_merge_min, stats_merge_max, stats_merge_total,
    stats_merge_buckets.
  pose proof (dwf_count dd Hddwf). pose proof (dwf_count ds Hdswf).
  pose proof (dwf_total dd Hddwf). pose proof (dwf_total ds Hdswf).
  split_and!; try done.
  - destruct (dist_of_Some dest' t _ Hwf' Hd') as (_ & _ & _ & _ & _ & Hdwf).
    rewrite <- (dwf_len _ Hdwf). by rewrite stats_merge_buckets.
  - intros b x y. apply hist_merge_lookup.
  - intros Hfit. cbn. apply u64_small. lia.
  - intros Hfit. cbn. apply u64_small. lia.
  - intros b x y Hx Hy Hfit. rewrite (hist_merge_lookup dd ds b x y Hx Hy).
    pose proof (Forall_lookup_1 _ _ _ _ (dwf_range dd Hddwf) Hx) as Hxr.
    pose proof (Forall_lookup_1 _ _ _ _ (dwf_range ds Hdswf) Hy) as Hyr.
    cbn in Hxr, Hyr. f_equal. apply u32_small. lia.
Qed.

Lemma merge_example_state :
  exists dest summand dest' dd ds,
    recorder_a = Done dest /\ recorder_b = Done summand
    /\ Latency_Sum dest summand = Done dest'
    /\ dist_of dest TAG_DEFAULT = Some dd /\ dist_of summand TAG_DEFAULT = Some ds
    /\ (Dist.count dd, Dist.min dd, Dist.max dd, Dist.total dd) = (2, 5, 1000, 1005)
    /\ (Dist.count ds, Dist.min ds, Dist.max ds, Dist.total ds) = (3, 2, 1500, 1509).
Proof.
  eexists _, _, _, _, _.
  split; [vm_compute; reflexivity|]. split; [vm_compute; reflexivity|].
  split; [vm_compute; reflexivity|]. split; [vm_compute; reflexivity|].
  split; [vm_compute; reflexivity|]. split; vm_compute; reflexivity.
Qed.

Lemma recorder_a_reachable (l : dmtr_latency) : recorder_a = Done l -> reachable l.
Proof.
  unfold recorder_a. apply add_all_reachable; [apply reach_new|].
  repeat (apply Forall_cons_2; [cbn; lia|]). apply Forall_nil_2.
Qed.

Lemma recorder_b_reachable (l : dmtr_latency) : recorder_b = Done l -> reachable l.
Proof.
  unfold recorder_b. apply add_all_reachable; [apply reach_new|].
  repeat (apply Forall_cons_2; [cbn; lia|]). apply Forall_nil_2.
Qed.

Lemma merge_shared_tag_witness :
  exists dest summand dest' d',
    recorder_a = Done dest /\ recorder_b = Done summand
    /\ Latency_Sum dest summand = Done dest'
    /\ dist_of dest' TAG_DEFAULT = Some d'
    /\ Dist.count d' = 5 /\ Dist.min d' = 2 /\ Dist.max d' = 1500
    /\ Dist.total d' = 2514.
Proof.
  destruct merge_example_state
    as (dest & summand & dest' & dd & ds & Ha & Hb & Hsum & Hdd & Hds & Hfd & Hfs).
  injection Hfd as Hcd Hmind Hmaxd Htd. injection Hfs as Hcs Hmins Hmaxs Hts.
  destruct (merge_shared_tag dest summand dest' TAG_DEFAULT dd ds)
    as (d' & Hd' & Hc & Hmin & Hmax & Ht & _ & _ & _).
  - exact (recorder_a_reachable dest Ha).
  - exact (recorder_b_reachable summand Hb).
  - exact Hsum.
  - exact Hdd.
  - exact Hds.
  - exists dest, summand, dest', d'.
    rewrite Hcd, Hcs in Hc. rewrite Hmind, Hmins in Hmin.
    rewrite Hmaxd, Hmaxs in Hmax. rewrite Htd, Hts in Ht.
    split_and!; [exact Ha|exact Hb|exact Hsum|exact Hd'
                |rewrite Hc; reflexivity|rewrite Hmin; reflexivity
                |rewrite Hmax; reflexivity|rewrite Ht; reflexivity].
Defined.

(** ** Safety of the second loop of a merge *)

Lemma reachable_in_within (Q : Latency_Dist_t -> Prop) (l : dmtr_latency) :
  Q fresh_dist -> reachable_in Q l -> every_dist Q l.
Proof.
  intros Hfresh Hl. induction Hl as [n| | |l Hl IH]; try done.
  intros i d [-> _]%lookup_replicate. done.
Qed.

Lemma reachable_small_exact (l : dmtr_latency) :
  reachable_in count_small l -> every_dist (fun d => count_exact d /\ count_small d) l.
Proof.
  apply reachable_in_every.
  - apply fresh_dist_count.
  - done.
  - intros d b v Hd Hb _ Hc Hs. by apply count_exact_record.
  - intros dd ds Hdd Hds Hcd Hcs Hs. by apply count_exact_merge.
Qed.

Lemma base_count (l : dmtr_latency) (t : nat) :
  reachable_in count_small l -> 0 <= Dist.count (base l t) < 2 ^ 32.
Proof.
  intros Hl. pose proof (reachable_wf _ l Hl) as Hwf.
  pose proof (dwf_count _ (base_wf l t Hwf)) as Hc.
  assert (count_small (base l t)); [|unfold count_small in *; lia].
  apply every_dist_base; [done|done|by cbn|].
  apply reachable_in_within; [by cbn|done].
Qed.

(** Below [2^32] samples a distribution in use has a positive count. *)
Lemma live_count_pos (l : dmtr_latency) :
  reachable_in count_small l -> forall t d, dist_of l t = Some d -> 0 < Dist.count d.
Proof.
  induction 1 as [n|l l' t v Hl IH Hv Hadd HQ
                 |dest summand dest' Hd IHd Hs IHs Hsum HQ
                 |l Hl IH]; intros t0 d0 Hd0; [| | |by apply (IH t0)].
  - exfalso. unfold dist_of in Hd0.
    destruct (dists (dmtr_new_latency n) !! t0) as [[i|]|] eqn:Ht; try done.
    by apply lookup_replicate in Ht as [? _].
  - pose proof (reachable_wf _ l Hl) as Hwf.
    destruct (LatencyAdd_spec l l' t v Hwf Hv Hadd)
      as (Hwf' & _ & _ & (b & Hb & Hdt) & Ho & _).
    destruct (decide (t0 = t)) as [->|Hne].
    + rewrite Hdt in Hd0. injection Hd0 as <-.
      rewrite add_stats_count. cbn.
      pose proof (base_count l t Hl). rewrite u64_small; lia.
    + rewrite Ho in Hd0 by done. by apply (IH t0).
  - pose proof (reachable_wf _ dest Hd) as Hwd.
    pose proof (reachable_wf _ summand Hs) as Hws.
    destruct (Latency_Sum_spec dest summand dest' Hwd Hws Hsum)
      as (Hwf' & _ & _ & Hv & _).
    rewrite Hv in Hd0. unfold merge_view in Hd0.
    destruct (dist_of summand t0) as [ds|] eqn:Hds.
    + injection Hd0 as <-. rewrite stats_merge_count. cbn.
      pose proof (base_count dest t0 Hd). specialize (IHs t0 ds Hds).
      assert (count_small ds).
      { apply (every_dist_view count_small summand t0); try done.
        apply reachable_in_within; [by cbn|done]. }
      unfold count_small in *. rewrite u64_small; lia.
    + by apply (IHd t0).
Qed.

Lemma all_zero_sum (d : Latency_Dist_t) : all_zero d -> sum_list_Z (Dist.buckets d) = 0.
Proof.
  unfold all_zero. induction 1 as [|x xs -> _ IH]; [done|].
  by rewrite sum_list_Z_cons, IH.
Qed.

Lemma live_not_all_zero (l : dmtr_latency) (t : nat) (d : Latency_Dist_t) :
  reachable_in count_small l -> dist_of l t = Some d -> ~ all_zero d.
Proof.
  intros Hl Hd Hz. pose proof (live_count_pos l Hl t d Hd) as Hpos.
  destruct (every_dist_view _ l t d (reachable_wf _ l Hl)
              (reachable_small_exact l Hl) Hd) as [Hex _].
  unfold count_exact in Hex. rewrite (all_zero_sum d Hz) in Hex. lia.
Qed.

Lemma for_each_fault {S A : Type} (P : fault -> Prop) (body : S -> A -> outcome S)
    (xs : list A) :
  (forall s x f, body s x = Fault f -> P f) ->
  forall s f, for_each body s xs = Fault f -> P f.
Proof.
  intros Hbody. induction xs as [|x xs IH]; intros s f H; [done|].
  cbn [for_each] in H. destruct (body s x) as [s1|f1] eqn:Hs.
  - rewrite Done_bind in H. by apply (IH s1).
  - cbn in H. injection H as <-. by apply (Hbody s x).
Qed.

Lemma deref_fault {A : Type} (o : option A) (f : fault) :
  deref o = Fault f -> f = Undefined.
Proof. destruct o; [done|]. by intros [= <-]. Qed.

Lemma Latency_Sum_stats_fault (summand cur : dmtr_latency) (i : nat) (f : fault) :
  Latency_Sum_stats summand cur i = Fault f -> f = Undefined.
Proof.
  unfold Latency_Sum_stats. intros H.
  destruct (deref (dists cur !! i)) as [dd|f1] eqn:H1;
    [rewrite Done_bind in H|cbn in H; injection H as <-; by eapply deref_fault].
  destruct (deref (dists summand !! i)) as [ds|f2] eqn:H2;
    [rewrite Done_bind in H|cbn in H; injection H as <-; by eapply deref_fault].
  destruct ds as [si|]; [|done].
  destruct (deref (distPool summand !! si)) as [ds|f3] eqn:H3;
    [rewrite Done_bind in H|cbn in H; injection H as <-; by eapply deref_fault].
  destruct (deref dd) as [di|f4] eqn:H4;
    [rewrite Done_bind in H|cbn in H; injection H as <-; by eapply deref_fault].
  destruct (deref (distPool cur !! di)) as [dd'|f5] eqn:H5;
    [rewrite Done_bind in H; done|cbn in H; injection H as <-; by eapply deref_fault].
Qed.

Lemma dist_of_new (n : string) (t : nat) : dist_of (dmtr_new_latency n) t = None.
Proof.
  unfold dist_of.
  destruct (dists (dmtr_new_latency n) !! t) as [[i|]|] eqn:Ht; try done.
  by apply lookup_replicate in Ht as [? _].
Qed.

(** C5.  Once the first loop of [Latency_Sum dest summand] has returned
    [dest1], every tag with a distribution in [summand] has one in [dest1]
    exactly when each such distribution has a non-empty bucket or [dest]
    already had the tag.  When it is so the second loop returns, and so
    does the merge: it never reads a missing distribution.  When it is not,
    the second loop reads through the null entry of [dest1] and the merge
    does not return.  A summand none of whose counts has reached [2^32] has
    a non-empty bucket in every distribution, so merging it is safe; with a
    count that has wrapped the buckets can all be zero, and the guard of
    the first loop then leaves the tag out of [dest]. *)
Theorem merge_stats_dest_present (dest summand dest1 : dmtr_latency) :
  reachable dest -> reachable summand ->
  for_each (Latency_Sum_hist summand) dest (seq 0 (distPoolNext summand)) = Done dest1 ->
  ((forall t ds, dist_of summand t = Some ds ->
      ~ all_zero ds \/ is_Some (dist_of dest t))
   <-> (forall t, is_Some (dist_of summand t) -> is_Some (dist_of dest1 t)))
  /\ ((forall t, is_Some (dist_of summand t) -> is_Some (dist_of dest1 t)) ->
        exists dest',
          for_each (Latency_Sum_stats summand) dest1 (seq 0 LATENCY_MAX_DIST)
            = Done dest'
          /\ Latency_Sum dest summand = Done dest')
  /\ ((exists t, is_Some (dist_of summand t) /\ dist_of dest1 t = None) ->
        for_each (Latency_Sum_stats summand) dest1 (seq 0 LATENCY_MAX_DIST)
          = Fault Undefined
        /\ Latency_Sum dest summand = Fault Undefined)
  /\ (reachable_in count_small summand ->
        forall t ds, dist_of summand t = Some ds -> ~ all_zero ds).
Proof.
  intros Hd Hs H1.
  pose proof (reachable_wf _ dest Hd) as Hwd.
  pose proof (reachable_wf _ summand Hs) as Hws.
  destruct (Latency_Sum_hist_pass dest summand dest1 Hwd Hws H1) as (Hwf1 & _ & _ & Hv1).
  assert (Hsum : Latency_Sum dest summand
                 = for_each (Latency_Sum_stats summand) dest1 (seq 0 LATENCY_MAX_DIST)).
  { unfold Latency_Sum. by rewrite H1. }
  split; [split|split; [|split]].
  - intros Hcond t [ds Hds]. rewrite Hv1.
    apply (hist_view_live dest summand t ds Hds). by apply (Hcond t).
  - intros Hlive t ds Hds.
    destruct (decide (all_zero ds)) as [Hz|Hnz]; [right|by left].
    specialize (Hlive t ltac:(by eexists)).
    rewrite Hv1 in Hlive. unfold hist_view in Hlive. rewrite Hds in Hlive.
    by rewrite decide_True in Hlive.
  - intros Hlive.
    destruct (Latency_Sum_stats_loop_ok summand LATENCY_MAX_DIST 0 dest1
                ltac:(done) Hws Hwf1 Hlive) as [dest' H2].
    exists dest'. split; [done|]. by rewrite Hsum.
  - intros (t & [ds Hds] & Hnone).
    assert (Hf : for_each (Latency_Sum_stats summand) dest1 (seq 0 LATENCY_MAX_DIST)
                 = Fault Undefined).
    { destruct (for_each (Latency_Sum_stats summand) dest1 (seq 0 LATENCY_MAX_DIST))
        as [dest'|f] eqn:H2.
      - exfalso.
        destruct (Latency_Sum_spec dest summand dest' Hwd Hws Hsum) as (_ & _ & _ & _ & Hz).
        rewrite Hv1 in Hnone. unfold hist_view in Hnone. rewrite Hds in Hnone.
        case_decide as Hall; [|done].
        destruct (Hz t ds Hds Hall) as [dd Hdd]. congruence.
      - f_equal. apply (for_each_fault (fun f => f = Undefined) _ _
                          (Latency_Sum_stats_fault summand) dest1 f H2). }
    split; [exact Hf|]. by rewrite Hsum.
  - intros Hsmall t ds Hds. by apply (live_not_all_zero summand t).
Qed.

Lemma merge_one_state :
  exists summand dest1,
    LatencyAdd (dmtr_new_latency "b") TAG_DEFAULT 7 = Done summand
    /\ every_dist count_small summand
    /\ for_each (Latency_Sum_hist summand) (dmtr_new_latency "a")
         (seq 0 (distPoolNext summand)) = Done dest1
    /\ dist_of summand TAG_DEFAULT <> None
    /\ latencies summand = [7].
Proof.
  eexists _, _. split; [vm_compute; reflexivity|].
  split; [every_dist_compute|].
  split; [vm_compute; reflexivity|]. split; [by vm_compute|reflexivity].
Qed.

Lemma merge_stats_dest_present_witness :
  (exists summand dest1 dest',
     LatencyAdd (dmtr_new_latency "b") TAG_DEFAULT 7 = Done summand
     /\ for_each (Latency_Sum_hist summand) (dmtr_new_latency "a")
          (seq 0 (distPoolNext summand)) = Done dest1
     /\ is_Some (dist_of dest1 TAG_DEFAULT)
     /\ Latency_Sum (dmtr_new_latency "a") summand = Done dest')
  /\ (exists summand,
        wrapped_recorder = Done summand
        /\ for_each (Latency_Sum_hist summand) (dmtr_new_latency "d")
             (seq 0 (distPoolNext summand)) = Done (dmtr_new_latency "d")
        /\ is_Some (dist_of summand TAG_DEFAULT)
        /\ dist_of (dmtr_new_latency "d") TAG_DEFAULT = None
        /\ Latency_Sum (dmtr_new_latency "d") summand = Fault Undefined).
Proof.
  split.
  - destruct merge_one_state as (summand & dest1 & Hadd & Hsmall & H1 & Hlive & _).
    assert (Hs : reachable_in count_small summand).
    { apply (reach_record _ (dmtr_new_latency "b") summand TAG_DEFAULT 7);
        [apply reach_new|lia|exact Hadd|exact Hsmall]. }
    destruct (merge_stats_dest_present (dmtr_new_latency "a") summand dest1)
      as ([Hpresent _] & Hret & _ & Hnz).
    + apply reach_new.
    + exact (reachable_in_weaken _ summand Hs).
    + exact H1.
    + assert (Hp : forall t, is_Some (dist_of summand t) -> is_Some (dist_of dest1 t)).
      { apply Hpresent. intros t ds Hds. left. exact (Hnz Hs t ds Hds). }
      destruct (Hret Hp) as (dest' & _ & Hsum).
      exists summand, dest1, dest'. split; [exact Hadd|]. split; [exact H1|].
      split; [|exact Hsum].
      apply Hp. destruct (dist_of summand TAG_DEFAULT); [by eexists|done].
  - destruct wrapped_recorder_state as (l & Hl & Hslot & Hc & _ & H1 & _).
    assert (Hlive : is_Some (dist_of l TAG_DEFAULT)).
    { rewrite (dist_of_lookup l _ 0 Hslot).
      destruct (distPool l !! 0%nat); [by eexists|done]. }
    destruct (merge_stats_dest_present (dmtr_new_latency "d") l (dmtr_new_latency "d"))
      as (_ & _ & Hfault & _).
    + apply reach_new.
    + exact (wrapped_recorder_reachable l Hl).
    + exact H1.
    + exists l. split; [exact Hl|]. split; [exact H1|]. split; [exact Hlive|].
      split; [apply dist_of_new|].
      apply Hfault. exists TAG_DEFAULT. split; [exact Hlive|apply dist_of_new].
Defined.

(** The claim C5 as stated fails: with the recorder of [2^32] samples as
    summand and a fresh recorder as destination, the first loop creates
    nothing and the second loop reads a missing distribution. *)
Lemma merge_stats_dest_missing :
  ~ (forall dest summand dest1, reachable dest -> reachable summand ->
       for_each (Latency_Sum_hist summand) dest (seq 0 (distPoolNext summand))
         = Done dest1 ->
       forall t, is_Some (dist_of summand t) -> is_Some (dist_of dest1 t)).
Proof.
  intros H.
  destruct wrapped_recorder_state as (l & Hl & Hslot & Hc & _ & H1 & _).
  specialize (H (dmtr_new_latency "d") l (dmtr_new_latency "d")
                (reach_new _ "d") (wrapped_recorder_reachable l Hl) H1 TAG_DEFAULT).
  destruct H as [d Hd].
  - rewrite (dist_of_lookup l _ 0 Hslot).
    destruct (distPool l !! 0%nat); [by eexists|done].
  - vm_compute in Hd. discriminate Hd.
Qed.

(** ** The raw samples across a merge, and the dump that follows *)

Lemma for_each_invariant {S A : Type} (P : S -> Prop) (body : S -> A -> outcome S)
    (xs : list A) :
  (forall s x s', P s -> body s x = Done s' -> P s') ->
  forall s s', P s -> for_each body s xs = Done s' -> P s'.
Proof.
  intros Hbody. induction xs as [|x xs IH]; intros s s' Hs H.
  - cbn in H. by injection H as <-.
  - cbn [for_each] in H. apply bind_Done in H as (s1 & H1 & H).
    apply (IH s1); [|exact H]. by apply (Hbody s x).
Qed.

Lemma for_each_ok {S A : Type} (P : S -> Prop) (body : S -> A -> outcome S)
    (xs : list A) :
  (forall s x, x ∈ xs -> P s -> exists s', body s x = Done s' /\ P s') ->
  forall s, P s -> exists s', for_each body s xs = Done s' /\ P s'.
Proof.
  induction xs as [|x xs IH]; intros Hbody s Hs.
  - by exists s.
  - destruct (Hbody s x ltac:(left) Hs) as (s1 & H1 & Hs1).
    destruct (IH ltac:(intros s0 x0 Hx0; apply Hbody; by right) s1 Hs1)
      as (s' & H' & Hs').
    exists s'. cbn [for_each]. rewrite H1. done.
Qed.

Lemma claim_dist_latencies (l l' : dmtr_latency) (t : nat) :
  claim_dist l t = Done l' -> latencies l' = latencies l.
Proof.
  intros H. unfold claim_dist in H.
  apply bind_Done in H as (slot & _ & H). destruct slot as [i|].
  - by injection H as <-.
  - case_decide; [done|]. apply bind_Done in H as (d & _ & H). by injection H as <-.
Qed.

Lemma LatencyAddHist_latencies (l l' : dmtr_latency) (t di : nat) (v c : Z) :
  LatencyAddHist l t v c = Done (l', di) -> latencies l' = latencies l.
Proof.
  intros H. unfold LatencyAddHist in H.
  apply bind_Done in H as (l1 & Hclaim & H).
  apply bind_Done in H as (slot & _ & H).
  apply bind_Done in H as (i & _ & H).
  apply bind_Done in H as (d & _ & H).
  apply bind_Done in H as (b & _ & H).
  case_decide; [|done].
  apply bind_Done in H as (x & _ & H). injection H as <- _.
  cbn. by apply (claim_dist_latencies l l1 t).
Qed.

Lemma Latency_Sum_bucket_latencies (d : Latency_Dist_t) (l l' : dmtr_latency) (b : nat) :
  Latency_Sum_bucket d l b = Done l' -> latencies l' = latencies l.
Proof.
  intros H. unfold Latency_Sum_bucket in H.
  apply bind_Done in H as (c & _ & H).
  destruct (c =? 0); [by injection H as <-|].
  apply bind_Done in H as (v & _ & H).
  apply bind_Done in H as ([l1 di] & Hhist & H). injection H as <-.
  by apply (LatencyAddHist_latencies l l1 (Dist.type d) di v c).
Qed.

Lemma Latency_Sum_stats_latencies (summand l l' : dmtr_latency) (i : nat) :
  Latency_Sum_stats summand l i = Done l' -> latencies l' = latencies l.
Proof.
  intros H. unfold Latency_Sum_stats in H.
  apply bind_Done in H as (dd & _ & H).
  apply bind_Done in H as (ds & _ & H).
  destruct ds as [si|]; [|by injection H as <-].
  apply bind_Done in H as (ds & _ & H).
  apply bind_Done in H as (di & _ & H).
  apply bind_Done in H as (d & _ & H). by injection H as <-.
Qed.

Lemma Latency_Sum_latencies (dest summand dest' : dmtr_latency) :
  Latency_Sum dest summand = Done dest' -> latencies dest' = latencies dest.
Proof.
  intros H. apply Latency_Sum_halves in H as (dest1 & H1 & H2).
  transitivity (latencies dest1).
  - apply (for_each_invariant (fun s => latencies s = latencies dest1)
             (Latency_Sum_stats summand) (seq 0 LATENCY_MAX_DIST)) with (s := dest1);
      [|done|exact H2].
    intros s x s' Hs Hstep. rewrite <- Hs.
    by apply (Latency_Sum_stats_latencies summand s s' x).
  - apply (for_each_invariant (fun s => latencies s = latencies dest)
             (Latency_Sum_hist summand) (seq 0 (distPoolNext summand))) with (s := dest);
      [|done|exact H1].
    intros s x s' Hs Hstep. rewrite <- Hs. unfold Latency_Sum_hist in Hstep.
    apply bind_Done in Hstep as (d & _ & Hstep).
    apply (for_each_invariant (fun s0 => latencies s0 = latencies s)
             (Latency_Sum_bucket d) (seq 0 LATENCY_NUM_BUCKETS)) with (s := s);
      [|done|exact Hstep].
    intros s0 b s0' Hs0 Hb. rewrite <- Hs0.
    by apply (Latency_Sum_bucket_latencies d s0 s0' b).
Qed.

(** The median scan stops below bucket 64 when the buckets add up to at
    least half the count. *)
Lemma median_loop_found (d : Latency_Dist_t) (n : nat) :
  forall (mb : nat) (accum : Z),
  dist_wf d -> (n + mb = LATENCY_NUM_BUCKETS)%nat -> (mb < 64)%nat -> 0 <= accum ->
  accum + sum_list_Z (drop mb (Dist.buckets d)) < 2 ^ 64 ->
  Dist.count d / 2 <= accum + sum_list_Z (drop mb (Dist.buckets d)) ->
  exists r, median_loop n d mb accum = Done r /\ (r < 64)%nat.
Proof.
  induction n as [|n IH]; intros mb accum Hd Hn Hmb Hacc Hfit Hhalf.
  - unfold LATENCY_NUM_BUCKETS in Hn. lia.
  - cbn [median_loop].
    destruct (lookup_lt_is_Some_2 (Dist.buckets d) mb) as [b Hb];
      [rewrite (dwf_len d Hd); unfold LATENCY_NUM_BUCKETS; lia|].
    rewrite Hb. cbn.
    rewrite (drop_S _ _ _ Hb), sum_list_Z_cons in Hfit, Hhalf.
    pose proof (Forall_lookup_1 _ _ _ _ (dwf_range d Hd) Hb) as Hbr. cbn in Hbr.
    assert (0 <= sum_list_Z (drop (S mb) (Dist.buckets d))) as Hrest.
    { apply sum_list_Z_nonneg, Forall_drop, (dwf_range d Hd). }
    rewrite u64_small by lia.
    destruct (Z.leb_spec (Dist.count d / 2) (accum + b)) as [Hle|Hgt].
    + by exists mb.
    + assert (S mb < 64)%nat as Hmb'.
      { destruct (decide (S mb = 64%nat)) as [Heq|]; [|lia].
        exfalso. rewrite Heq in Hhalf.
        pose proof (dwf_last d Hd) as Hlast.
        rewrite (drop_S _ _ _ Hlast), sum_list_Z_cons in Hhalf.
        rewrite drop_ge in Hhalf
          by (rewrite (dwf_len d Hd); unfold LATENCY_NUM_BUCKETS; lia).
        change (sum_list_Z []) with 0 in Hhalf. lia. }
      apply IH; try done; lia.
Qed.

Lemma Latency_Dump_summary_ok (l : dmtr_latency) (t : nat) (d : Latency_Dist_t) :
  dist_wf d -> count_exact d -> 0 < Dist.count d ->
  exists s, Latency_Dump_summary l t d = Done s.
Proof.
  intros Hd Hex Hpos. unfold count_exact in Hex.
  pose proof (dwf_count d Hd) as Hc.
  destruct (median_loop_found d LATENCY_NUM_BUCKETS 0 0 Hd) as (mb & Hmb & Hlt);
    try (done || lia || (rewrite drop_0, <- Hex; lia)).
  { rewrite drop_0, <- Hex.
    pose proof (Z.div_le_upper_bound (Dist.count d) 2 (Dist.count d)). lia. }
  unfold Latency_Dump_summary. rewrite Hmb. cbn.
  destruct (Z.eqb_spec (Dist.count d) 0) as [H0|_]; [lia|]. cbn.
  unfold shl1. destruct (decide (mb < 64)%nat) as [_|Hge]; [|lia]. cbn. by eexists.
Qed.

Lemma Latency_Dump_summaries_ok (l : dmtr_latency) :
  wf l ->
  (forall t d, dist_of l t = Some d -> count_exact d /\ 0 < Dist.count d) ->
  exists r, Latency_Dump_summaries l = Done r.
Proof.
  intros Hwf Hlive. unfold Latency_Dump_summaries.
  destruct (for_each_ok (fun _ => True)
              (fun (acc : list summary * list nat) type =>
                 slot ← deref (dists l !! type);
                 match slot with
                 | None => Done acc
                 | Some di =>
                     d ← deref (distPool l !! di);
                     s ← Latency_Dump_summary l type d;
                     Done (acc.1 ++ [s], acc.2 ++ [type])
                 end)
              (seq 0 LATENCY_MAX_DIST)) with (s := (@nil summary, @nil nat))
    as (r & Hr & _); [|done|by exists r].
  intros acc t Ht _. apply elem_of_seq in Ht.
  destruct (lookup_lt_is_Some_2 (dists l) t) as [slot Hslot];
    [rewrite (wf_dists_len l Hwf); lia|].
  rewrite Hslot, deref_Some, Done_bind. destruct slot as [di|]; [|by eexists].
  destruct (wf_ptr l Hwf t di Hslot) as (_ & d & Hd & _).
  rewrite Hd, deref_Some, Done_bind.
  destruct (Hlive t d) as [Hex Hpos]; [by rewrite (dist_of_lookup l t di Hslot)|].
  destruct (Latency_Dump_summary_ok l t d (wf_dist l Hwf di d Hd) Hex Hpos) as [s Hs].
  rewrite Hs, Done_bind. by eexists.
Qed.

Lemma Latency_Dump_no_samples (l : dmtr_latency) (t : nat) :
  reachable_in count_small l -> is_Some (dist_of l t) -> latencies l = [] ->
  Latency_Dump l = Fault OutOfRange.
Proof.
  intros Hl [d Hd] Hempty. pose proof (reachable_wf _ l Hl) as Hwf.
  destruct (dist_of_Some l t d Hwf Hd) as (i & _ & _ & Hi & _).
  destruct (Latency_Dump_summaries_ok l Hwf) as [[sums types] Hsum].
  { intros t0 d0 Hd0. split; [|by apply (live_count_pos l Hl t0)].
    by destruct (every_dist_view _ l t0 d0 Hwf (reachable_small_exact l Hl) Hd0). }
  unfold Latency_Dump. rewrite decide_False by lia. rewrite Hsum. cbn.
  rewrite Hempty. done.
Qed.

Lemma record_all_cons (l l1 : dmtr_latency) (v r : Z) (vs : list Z) :
  dmtr_record_latency l v = Done (l1, r) ->
  record_all l (v :: vs) = record_all l1 vs.
Proof. intros H. unfold record_all. cbn [for_each]. by rewrite H. Qed.

(** Recording fewer than [2^32] samples through the public entry point. *)
Lemma record_all_small (samples : list Z) :
  forall l0,
  reachable_in count_small l0 -> only_default l0 ->
  Forall (fun v => 0 <= v < 2 ^ 64) samples ->
  Dist.count (base l0 TAG_DEFAULT) + Z.of_nat (length samples) < 2 ^ 32 ->
  exists l, record_all l0 samples = Done l
    /\ reachable_in count_small l /\ only_default l
    /\ (is_Some (dist_of l0 TAG_DEFAULT) \/ Exists (fun v => v <> 0) samples ->
        is_Some (dist_of l TAG_DEFAULT)).
Proof.
  induction samples as [|v vs IH]; intros l0 Hl0 Hod Hr Hfit.
  - exists l0. split_and!; try done. intros [Hlive|Hex]; [done|by inversion Hex].
  - apply Forall_cons_1 in Hr as [Hv Hr].
    pose proof (reachable_wf _ l0 Hl0) as Hwf.
    pose proof (base_count l0 TAG_DEFAULT Hl0) as Hbase.
    rewrite length_cons, Nat2Z.inj_succ in Hfit.
    destruct (decide (v = 0)) as [->|Hnz].
    + rewrite (record_all_cons l0 l0 0 0) by done.
      destruct (IH l0 Hl0 Hod Hr ltac:(lia)) as (l & Hl & Hreach & Hod' & Hlive).
      exists l. split_and!; try done.
      intros [Hl0live|Hex]; apply Hlive; [by left|right].
      by apply Exists_cons in Hex as [?|?].
    + destruct (dmtr_record_latency_ok l0 v Hwf Hod Hv) as [l1 Hrec].
      rewrite (record_all_cons l0 l1 v 0) by done.
      rewrite dmtr_record_latency_nonzero in Hrec by done.
      apply bind_Done in Hrec as (l1' & Hadd & Hrec). injection Hrec as ->.
      destruct (LatencyAdd_spec l0 l1 TAG_DEFAULT v Hwf Hv Hadd)
        as (Hwf1 & _ & _ & (b & Hb & Hd1) & Ho1 & _).
      assert (Hod1 : only_default l1).
      { intros t Ht. rewrite Ho1 by done. by apply Hod. }
      assert (Hc1 : Dist.count (base l1 TAG_DEFAULT)
                    = Dist.count (base l0 TAG_DEFAULT) + 1).
      { rewrite (base_live l1 _ _ Hd1), add_stats_count. cbn. apply u64_small. lia. }
      assert (Hsmall : every_dist count_small l1).
      { apply every_dist_views; [done|by cbn|]. intros t d Hd.
        destruct (decide (t = TAG_DEFAULT)) as [->|Hne].
        - rewrite <- (base_live l1 _ _ Hd). unfold count_small. lia.
        - rewrite Ho1, Hod in Hd by done. done. }
      assert (Hreach1 : reachable_in count_small l1)
        by (by apply (reach_record _ l0 l1 TAG_DEFAULT v)).
      destruct (IH l1 Hreach1 Hod1 Hr ltac:(lia)) as (l & Hl & Hreach & Hod' & Hlive).
      exists l. split_and!; try done.
      intros _. apply Hlive. left. by rewrite Hd1.
Qed.

(** C10, as the code has it.  [Latency_Sum] leaves the raw samples of
    [dest] as they were (and only reads [summand]).  So merging a summand
    that has recorded samples,
    none of its counts having reached [2^32], into a recorder that never
    recorded gives a recorder with a distribution and no raw sample, and
    dumping it makes [vector::at] throw on the empty buffer.  The merge
    into a recorder that never recorded returns exactly when every
    distribution of the summand has a non-empty bucket, and whenever it
    returns the result has the tags of the summand and no raw sample. *)
Theorem merge_keeps_samples :
  (forall dest summand dest',
     Latency_Sum dest summand = Done dest' -> latencies dest' = latencies dest)
  /\ (forall n m samples,
        Forall (fun v => 0 < v < 2 ^ 64) samples -> samples <> [] ->
        Z.of_nat (length samples) < 2 ^ 32 ->
        exists summand dest',
          record_all (dmtr_new_latency m) samples = Done summand
          /\ Latency_Sum (dmtr_new_latency n) summand = Done dest'
          /\ latencies dest' = []
          /\ is_Some (dist_of dest' TAG_DEFAULT)
          /\ Latency_Dump dest' = Fault OutOfRange)
  /\ (forall n summand t,
        reachable_in count_small summand -> is_Some (dist_of summand t) ->
        exists dest',
          Latency_Sum (dmtr_new_latency n) summand = Done dest'
          /\ latencies dest' = []
          /\ is_Some (dist_of dest' t)
          /\ Latency_Dump dest' = Fault OutOfRange)
  /\ (forall n summand,
        reachable summand ->
        (exists dest', Latency_Sum (dmtr_new_latency n) summand = Done dest')
        <-> (forall t ds, dist_of summand t = Some ds -> ~ all_zero ds))
  /\ (forall n summand dest' t,
        reachable summand ->
        Latency_Sum (dmtr_new_latency n) summand = Done dest' ->
        is_Some (dist_of summand t) ->
        latencies dest' = [] /\ is_Some (dist_of dest' t)).
Proof.
  split; [apply Latency_Sum_latencies|].
  assert (Hgen : forall n summand t,
            reachable_in count_small summand -> is_Some (dist_of summand t) ->
            exists dest',
              Latency_Sum (dmtr_new_latency n) summand = Done dest'
              /\ latencies dest' = []
              /\ is_Some (dist_of dest' t)
              /\ Latency_Dump dest' = Fault OutOfRange).
  { intros n summand t Hs [ds Hds].
    pose proof (reachable_wf _ summand Hs) as Hws.
    pose proof (wf_new n) as Hwn.
    destruct (Latency_Sum_ok (dmtr_new_latency n) summand Hwn Hws) as [dest' Hsum].
    { apply (wf_next summand Hws). }
    { intros t0 ds0 Hds0 Hz. by destruct (live_not_all_zero summand t0 ds0 Hs Hds0). }
    destruct (Latency_Sum_spec _ summand dest' Hwn Hws Hsum)
      as (Hwf' & _ & Hlat & Hv & _).
    assert (Hlive : is_Some (dist_of dest' t)).
    { rewrite Hv. unfold merge_view. rewrite Hds. by eexists. }
    assert (Hsmall : every_dist count_small dest').
    { apply every_dist_views; [done|by cbn|]. intros t0 d0 Hd0.
      rewrite Hv in Hd0. unfold merge_view in Hd0.
      destruct (dist_of summand t0) as [ds0|] eqn:Hds0.
      - injection Hd0 as <-. unfold count_small. rewrite stats_merge_count.
        unfold base. rewrite dist_of_new. cbn.
        destruct (dist_of_Some summand t0 ds0 Hws Hds0) as (_ & _ & _ & _ & _ & Hdwf).
        pose proof (dwf_count ds0 Hdwf).
        assert (count_small ds0) as Hc.
        { apply (every_dist_view count_small summand t0); try done.
          apply reachable_in_within; [by cbn|done]. }
        unfold count_small in Hc. rewrite u64_small; lia.
      - by rewrite dist_of_new in Hd0. }
    exists dest'. split_and!; try done.
    apply (Latency_Dump_no_samples dest' t); try done.
    apply (reach_merge _ (dmtr_new_latency n) summand dest'); try done.
    apply reach_new. }
  split; [|split; [exact Hgen|split]].
  { intros n m samples Hr Hne Hlen.
    destruct (record_all_small samples (dmtr_new_latency m))
      as (summand & Hrec & Hreach & _ & Hlive).
    - apply reach_new.
    - intros t _. apply dist_of_new.
    - eapply Forall_impl; [exact Hr|]. cbn. lia.
    - unfold base. rewrite dist_of_new. cbn. lia.
    - destruct (Hgen n summand TAG_DEFAULT Hreach) as (dest' & Hsum & Hlat & Hl & Hdump).
      + apply Hlive. right. destruct samples as [|v vs]; [done|].
        apply Forall_cons_1 in Hr as [Hv _]. apply Exists_cons_hd. lia.
      + by exists summand, dest'. }
  { intros n summand Hs. pose proof (reachable_wf _ summand Hs) as Hws. split.
    - intros [dest' Hsum] t ds Hds Hz.
      destruct (Latency_Sum_spec _ summand dest' (wf_new n) Hws Hsum)
        as (_ & _ & _ & _ & Hpre).
      destruct (Hpre t ds Hds Hz) as [dd Hdd]. by rewrite dist_of_new in Hdd.
    - intros Hnz. apply (Latency_Sum_ok _ summand (wf_new n) Hws).
      + apply (wf_next summand Hws).
      + intros t ds Hds Hz. by destruct (Hnz t ds Hds). }
  intros n summand dest' t Hs Hsum [ds Hds].
  pose proof (reachable_wf _ summand Hs) as Hws.
  destruct (Latency_Sum_spec _ summand dest' (wf_new n) Hws Hsum)
    as (_ & _ & Hlat & Hv & _).
  split; [exact Hlat|]. rewrite Hv. unfold merge_view. rewrite Hds. by eexists.
Qed.

Lemma merge_keeps_samples_witness :
  (exists summand dest',
     record_all (dmtr_new_latency "b") [5; 7] = Done summand
     /\ Latency_Sum (dmtr_new_latency "a") summand = Done dest'
     /\ latencies dest' = []
     /\ Latency_Dump dest' = Fault OutOfRange)
  /\ (exists summand dest',
        LatencyAdd (dmtr_new_latency "b") TAG_DEFAULT 7 = Done summand
        /\ latencies summand = [7]
        /\ Latency_Sum (dmtr_new_latency "a") summand = Done dest'
        /\ latencies dest' = []
        /\ Latency_Dump dest' = Fault OutOfRange).
Proof.
  destruct merge_keeps_samples as (_ & Hrec & H & _). split.
  - destruct (Hrec "a"%string "b"%string [5; 7])
      as (summand & dest' & Hs & Hsum & Hempty & _ & Hdump).
    + repeat (apply Forall_cons_2; [lia|]). apply Forall_nil_2.
    + discriminate.
    + vm_compute. reflexivity.
    + exists summand, dest'. split_and!; assumption.
  - destruct merge_one_state as (summand & dest1 & Hadd & Hsmall & _ & Hlive & Hlat).
    destruct (H "a"%string summand TAG_DEFAULT) as (dest' & Hsum & Hempty & _ & Hdump).
    + apply (reach_record _ (dmtr_new_latency "b") summand TAG_DEFAULT 7);
        [apply reach_new|lia|exact Hadd|exact Hsmall].
    + destruct (dist_of summand TAG_DEFAULT); [by eexists|done].
    + exists summand, dest'. split_and!; assumption.
Defined.

Lemma double_api (x x' : dmtr_latency) :
  api_reachable x -> double x = Done x' -> api_reachable x'.
Proof.
  intros Hx H. unfold double in H. apply bind_Done in H as (y & Hy & H).
  apply (api_merge x y x'); [exact Hx| |exact H].
  apply (api_merge (dmtr_new_latency "copy") x y); [apply api_new|exact Hx|exact Hy].
Qed.

Lemma iter_double_api (n : nat) :
  forall x x', api_reachable x -> iter_double n x = Done x' -> api_reachable x'.
Proof.
  induction n as [|n IH]; intros x x' Hx H.
  - cbn in H. by injection H as <-.
  - cbn in H. apply bind_Done in H as (x1 & H1 & H).
    apply (IH x1); [|exact H]. by apply (double_api x).
Qed.

Lemma wrapped_recorder_api (l : dmtr_latency) :
  wrapped_recorder = Done l -> api_reachable l.
Proof.
  unfold wrapped_recorder, record_doubled. intros H.
  apply bind_Done in H as ([x st] & Hrec & H).
  apply (iter_double_api 32 x); [|exact H].
  apply (api_record (dmtr_new_latency "x") x 1 st); [apply api_new|lia|exact Hrec].
Qed.

Lemma wrapped_recorder_samples :
  exists l, wrapped_recorder = Done l /\ latencies l = [1].
Proof.
  eexists. split; [vm_compute; reflexivity|]. vm_compute. reflexivity.
Qed.

(** The claim C10 as stated fails: the recorder of [2^32] samples, built by
    the public functions, holds a recorded sample and a distribution, yet
    merging it into a recorder that never recorded produces no state. *)
Lemma merge_of_wrapped_summand_faults :
  exists summand,
    wrapped_recorder = Done summand
    /\ api_reachable summand
    /\ latencies summand = [1]
    /\ is_Some (dist_of summand TAG_DEFAULT)
    /\ latencies (dmtr_new_latency "d") = []
    /\ Latency_Sum (dmtr_new_latency "d") summand = Fault Undefined
    /\ ~ (exists dest', Latency_Sum (dmtr_new_latency "d") summand = Done dest').
Proof.
  destruct wrapped_recorder_state as (l & Hl & Hslot & Hc & _ & _ & _ & Hsum).
  destruct wrapped_recorder_samples as (l' & Hl' & Hlat).
  rewrite Hl in Hl'. injection Hl' as <-.
  exists l. split; [exact Hl|]. split; [exact (wrapped_recorder_api l Hl)|].
  split; [exact Hlat|]. split.
  { rewrite (dist_of_lookup l _ 0 Hslot).
    destruct (distPool l !! 0%nat); [by eexists|done]. }
  split; [reflexivity|]. split; [exact Hsum|].
  intros [dest' Hd]. rewrite Hsum in Hd. discriminate Hd.
Qed.

(** ** The report of the five-sample scenario *)

Lemma scenario_t_state :
  exists l sums types out l',
    scenario_t = Done l
    /\ Latency_Dump_summaries l = Done (sums, types)
    /\ (s_min <$> sums, s_max <$> sums, s_count <$> sums)
         = (["1 ns"%string], ["1000 us"%string], [5])
    /\ Latency_Dump l = Done (out, l', 0)
    /\ out !! 0%nat
         = Some ("LATENCY t: 1 ns 200 us/2 ns 1000 us (5 samples, 1001 us total)"
                   +:+ newline).
Proof.
  eexists _, _, _, _, _.
  split; [vm_compute; reflexivity|]. split; [vm_compute; reflexivity|].
  split; [vm_compute; reflexivity|]. split; vm_compute; reflexivity.
Qed.

(** C7, as the code has it.  After recording 1, 2, 4, 1000 and 1000000 into
    a fresh recorder ["t"], the summary line of the dump shows the min as
    [1 ns], the max as [1000 us] (a value is divided by 1000 only while it
    is 10000 or more) and 5 samples. *)
Theorem scenario_t_summary :
  exists l s out l',
    scenario_t = Done l
    /\ Latency_Dump_summaries l = Done ([s], [TAG_DEFAULT])
    /\ s_min s = "1 ns"%string /\ s_max s = "1000 us"%string /\ s_count s = 5
    /\ LatencyFmtNS 1000000 = "1000 us"%string
    /\ Latency_Dump l = Done (out, l', 0)
    /\ out !! 0%nat = Some (render_summary s)
    /\ render_summary s
         = ("LATENCY t: 1 ns 200 us/2 ns 1000 us (5 samples, 1001 us total)"
              +:+ newline)%string.
Proof.
  eexists _, _, _, _.
  split; [vm_compute; reflexivity|]. split; [vm_compute; reflexivity|].
  split_and!; vm_compute; reflexivity.
Qed.

(** The claim C7 as stated fails: the max is not shown as [1 ms]. *)
Lemma scenario_t_max_not_ms :
  ~ (exists l sums types s,
       scenario_t = Done l
       /\ Latency_Dump_summaries l = Done (sums, types)
       /\ sums !! 0%nat = Some s
       /\ s_min s = "1 ns"%string /\ s_max s = "1 ms"%string /\ s_count s = 5).
Proof.
  intros (l & sums & types & s & Hl & Hsums & Hs & _ & Hmax & _).
  destruct scenario_t_state as (l0 & sums0 & types0 & _ & _ & Hl0 & Hsums0 & Hf & _).
  rewrite Hl in Hl0. injection Hl0 as <-.
  rewrite Hsums in Hsums0. injection Hsums0 as <- <-.
  injection Hf as _ Hmax0 _.
  destruct sums as [|s0 sums]; [done|]. cbn in Hs. injection Hs as ->.
  cbn in Hmax0. injection Hmax0 as Hmax0 _. rewrite Hmax in Hmax0. discriminate Hmax0.
Qed.

(** ** Tail-percentile indices *)

(** The three constants are 53-bit significands and the multiples of
    [2^-53] nearest to 0.99, 0.999 and 0.9999. *)
Lemma DBL_constants_nearest :
  2 ^ 52 <= DBL_0_99 < 2 ^ 53 /\ Z.abs (100 * DBL_0_99 - 99 * 2 ^ 53) <= 50
  /\ 2 ^ 52 <= DBL_0_999 < 2 ^ 53 /\ Z.abs (1000 * DBL_0_999 - 999 * 2 ^ 53) <= 500
  /\ 2 ^ 52 <= DBL_0_9999 < 2 ^ 53
  /\ Z.abs (10000 * DBL_0_9999 - 9999 * 2 ^ 53) <= 5000.
Proof. unfold DBL_0_99, DBL_0_999, DBL_0_9999. lia. Qed.

Lemma round_sig_small (prec p : Z) : 0 < prec -> 0 <= p < 2 ^ prec -> round_sig prec p = p.
Proof.
  intros Hprec Hp. unfold round_sig.
  destruct (Z.leb_spec (Z.log2 p + 1 - prec) 0) as [_|Hsh]; [done|].
  exfalso. destruct (Z.eq_dec p 0) as [->|Hnz]; [cbn in Hsh; lia|].
  assert (Z.log2 p < prec) by (apply Z.log2_lt_pow2; lia). lia.
Qed.

(** Rounding to [prec] significant bits moves a value by at most its
    [2^(prec-1)]-th part. *)
Lemma round_sig_rel (prec p : Z) :
  0 < prec -> 0 < p ->
  2 ^ (prec - 1) * (round_sig prec p - p) <= p
  /\ 2 ^ (prec - 1) * (p - round_sig prec p) <= p.
Proof.
  intros Hprec Hp. unfold round_sig.
  destruct (Z.leb_spec (Z.log2 p + 1 - prec) 0) as [_|Hsh].
  { rewrite Z.sub_diag, Z.mul_0_r. lia. }
  set (sh := Z.log2 p + 1 - prec) in *.
  pose proof (Z.log2_spec p Hp) as [Hlog _].
  assert (HXY : 2 ^ (prec - 1) * 2 ^ sh <= p).
  { rewrite <- Z.pow_add_r by lia. by replace (prec - 1 + sh) with (Z.log2 p) by lia. }
  assert (0 < 2 ^ sh) as HX by (apply Z.pow_pos_nonneg; lia).
  assert (0 < 2 ^ (prec - 1)) as HY by (apply Z.pow_pos_nonneg; lia).
  pose proof (Z.div_mod p (2 ^ sh) ltac:(lia)) as Hdm.
  pose proof (Z.mod_pos_bound p (2 ^ sh) HX) as Hrem.
  set (X := 2 ^ sh) in *. set (Y := 2 ^ (prec - 1)) in *.
  set (q := p / X) in *. set (r := p mod X) in *.
  assert (Y * r <= Y * X) by (apply Z.mul_le_mono_nonneg_l; lia).
  assert (0 <= Y * r) by (apply Z.mul_nonneg_nonneg; lia).
  destruct ((2 ^ (sh - 1) <? r) || (r =? 2 ^ (sh - 1)) && Z.odd q); nia.
Qed.

Lemma tail_ordered_b_spec (size : Z) : tail_ordered_b size = true -> tail_ordered size.
Proof.
  unfold tail_ordered_b, tail_ordered. intros H.
  destruct (tail_index size DBL_0_99) as [i99|]; [|done].
  destruct (tail_index size DBL_0_999) as [i999|]; [|done].
  destruct (tail_index size DBL_0_9999) as [i9999|]; [|done].
  exists i99, i999, i9999. split_and!; try done; lia.
Qed.

Lemma tail_ordered_small (size : Z) : 1000 < size < 1112 -> tail_ordered size.
Proof.
  intros Hs. apply tail_ordered_b_spec.
  assert (Hall : forallb tail_ordered_b (seqZ 1001 111) = true) by (vm_compute; reflexivity).
  rewrite forallb_forall in Hall. apply Hall.
  apply list_elem_of_In, elem_of_seqZ. lia.
Qed.

Lemma div_lt_gap (a b d : Z) : 0 < d -> a + d <= b -> a / d < b / d.
Proof.
  intros Hd Hab.
  assert (a / d + 1 <= b / d); [|lia].
  rewrite <- (Z.div_add a 1 d) by lia. apply Z.div_le_mono; lia.
Qed.

Lemma tail_ordered_large (size : Z) : 1112 <= size < 2 ^ 31 -> tail_ordered size.
Proof.
  intros Hs. unfold tail_ordered, tail_index.
  destruct (round_sig_rel 24 size ltac:(lia) ltac:(lia)) as [Hf1 Hf2].
  set (f := round_sig 24 size) in *.
  assert (0 < f) as Hf by lia.
  destruct (round_sig_rel 53 (f * DBL_0_99) ltac:(lia) ltac:(unfold DBL_0_99; lia))
    as [Ha1 Ha2].
  destruct (round_sig_rel 53 (f * DBL_0_999) ltac:(lia) ltac:(unfold DBL_0_999; lia))
    as [Hb1 Hb2].
  destruct (round_sig_rel 53 (f * DBL_0_9999) ltac:(lia) ltac:(unfold DBL_0_9999; lia))
    as [Hc1 Hc2].
  set (ra := round_sig 53 (f * DBL_0_99)) in *.
  set (rb := round_sig 53 (f * DBL_0_999)) in *.
  set (rc := round_sig 53 (f * DBL_0_9999)) in *.
  unfold DBL_0_99, DBL_0_999, DBL_0_9999 in *.
  change (2 ^ (24 - 1)) with 8388608 in *.
  change (2 ^ (53 - 1)) with 4503599627370496 in *.
  change (2 ^ 53) with 9007199254740992.
  change (2 ^ 31) with 2147483648 in *.
  assert (0 <= ra / 9007199254740992 < rb / 9007199254740992
          /\ rb / 9007199254740992 < rc / 9007199254740992 <= size - 1) as Hord.
  { assert (0 <= ra) by lia.
    assert (ra + 9007199254740992 <= rb) by lia.
    assert (rb + 9007199254740992 <= rc) by lia.
    assert (rc < size * 9007199254740992) by lia.
    split_and!.
    - by apply Z.div_pos.
    - by apply div_lt_gap.
    - by apply div_lt_gap.
    - assert (rc / 9007199254740992 < size); [|lia].
      apply Z.div_lt_upper_bound; lia. }
  exists (ra / 9007199254740992), (rb / 9007199254740992), (rc / 9007199254740992).
  destruct (Z.ltb_spec (ra / 9007199254740992) 2147483648); [|lia].
  destruct (Z.ltb_spec (rb / 9007199254740992) 2147483648); [|lia].
  destruct (Z.ltb_spec (rc / 9007199254740992) 2147483648); [|lia].
  split_and!; (done || lia).
Qed.

(** C6, as the code has it.  For every buffer size [N] with
    [1000 < N < 2^31] (the buffer never holds more than [MAX_ITERATIONS]
    samples) the indices [Latency_Dump] computes are in range and strictly
    ordered, and so are the exact values [floor (N * 0.99)],
    [floor (N * 0.999)] and [floor (N * 0.9999)]. *)
Theorem tail_indices_ordered (N : Z) :
  1000 < N < 2 ^ 31 ->
  tail_ordered N
  /\ 0 <= N * 99 / 100 < N * 999 / 1000
  /\ N * 999 / 1000 < N * 9999 / 10000 <= N - 1.
Proof.
  intros HN. split.
  - destruct (Z_lt_le_dec N 1112); [apply tail_ordered_small|apply tail_ordered_large]; lia.
  - pose proof (Z.div_mod (N * 99) 100 ltac:(lia)).
    pose proof (Z.mod_pos_bound (N * 99) 100 ltac:(lia)).
    pose proof (Z.div_mod (N * 999) 1000 ltac:(lia)).
    pose proof (Z.mod_pos_bound (N * 999) 1000 ltac:(lia)).
    pose proof (Z.div_mod (N * 9999) 10000 ltac:(lia)).
    pose proof (Z.mod_pos_bound (N * 9999) 10000 ltac:(lia)).
    destruct (Z_lt_le_dec N 10000); lia.
Qed.

Lemma tail_indices_ordered_witness :
  tail_ordered 10000
  /\ 0 <= 10000 * 99 / 100 < 10000 * 999 / 1000
  /\ 10000 * 999 / 1000 < 10000 * 9999 / 10000 <= 10000 - 1.
Proof. apply (tail_indices_ordered 10000). lia. Defined.

(** The claim C6 as stated fails at [N = 1000]: the last two indices are
    both 999, as [floor (999.0)] and [floor (999.9)] are. *)
Lemma tail_indices_collide_at_1000 :
  ~ (forall N, 1000 <= N < 2 ^ 31 -> tail_ordered N)
  /\ ~ (1000 * 999 / 1000 < 1000 * 9999 / 10000).
Proof.
  split; [|by vm_compute].
  intros H. destruct (H 1000 ltac:(lia)) as (i99 & i999 & i9999 & _ & Hb & Hc & _ & Hlt & _).
  vm_compute in Hb, Hc. injection Hb as <-. injection Hc as <-. lia.
Qed.

(** ** Gaps in the printed histogram *)

Lemma bind_assoc {A B C : Type} (m : outcome A) (f : A -> outcome B) (g : B -> outcome C) :
  (m ≫= f) ≫= g = m ≫= (fun a => f a ≫= g).
Proof. by destruct m. Qed.

Lemma for_each_app {S A : Type} (body : S -> A -> outcome S) (xs ys : list A) (s : S) :
  for_each body s (xs ++ ys) = (s1 ← for_each body s xs; for_each body s1 ys).
Proof.
  revert s. induction xs as [|x xs IH]; intros s; [done|].
  cbn [app for_each]. rewrite bind_assoc. destruct (body s x) as [s1|f]; [|done].
  rewrite !Done_bind. apply IH.
Qed.

Lemma zero_rows_seqZ (n : nat) (a : Z) : zero_rows n a = RowZero <$> seqZ a (Z.of_nat n).
Proof.
  revert a. induction n as [|n IH]; intros a; [done|].
  rewrite seqZ_cons by lia. cbn [zero_rows fmap list_fmap]. f_equal.
  rewrite IH. do 2 f_equal; lia.
Qed.

Lemma gap_rows_shown (j i : Z) : j < i -> gap_rows j i = shown_gap 2 j i.
Proof.
  intros Hji. unfold gap_rows, shown_gap.
  destruct (Z.ltb_spec j (i - 3)); case_decide; try lia; [done|].
  rewrite zero_rows_seqZ. do 2 f_equal; lia.
Qed.

Section HistLoop.
Variables (l : dmtr_latency) (largestCount : Z) (types : list nat).

Lemma hist_step_printed (st st' : Z * list hist_row) (i : nat) (pos total : Z)
    (bar : string) :
  Latency_Dump_bar l largestCount i types = Done (pos, total, bar) -> 0 < total ->
  Latency_Dump_hist_step l largestCount types st i = Done st' ->
  st' = (Z.of_nat i, st.2 ++ gap_rows st.1 (Z.of_nat i) ++ [RowBar (Z.of_nat i) total bar]).
Proof.
  intros Hbar Hpos H. unfold Latency_Dump_hist_step in H.
  rewrite Hbar, Done_bind in H.
  destruct (Z.ltb_spec 0 total); [|lia].
  destruct (pos <=? LATENCY_HISTOGRAM_WIDTH); [|done].
  apply bind_Done in H as (v & _ & H). injection H as <-.
  destruct st as [lp rows]. unfold hist_step. cbn.
  destruct (Z.ltb_spec 0 total); [done|lia].
Qed.

Lemma hist_step_empty (st : Z * list hist_row) (i : nat) (pos : Z) (bar : string) :
  Latency_Dump_bar l largestCount i types = Done (pos, 0, bar) ->
  Latency_Dump_hist_step l largestCount types st i = Done st.
Proof. intros Hbar. unfold Latency_Dump_hist_step. by rewrite Hbar, Done_bind. Qed.

Lemma hist_loop_empty (xs : list nat) (st : Z * list hist_row) :
  (forall k, k ∈ xs -> exists pos bar,
     Latency_Dump_bar l largestCount k types = Done (pos, 0, bar)) ->
  for_each (Latency_Dump_hist_step l largestCount types) st xs = Done st.
Proof.
  induction xs as [|x xs IH]; intros Hall; [done|].
  destruct (Hall x ltac:(left)) as (pos & bar & Hbar).
  cbn [for_each]. rewrite (hist_step_empty st x pos bar Hbar), Done_bind.
  apply IH. intros k Hk. apply Hall. by right.
Qed.

Lemma hist_step_extends (st st' : Z * list hist_row) (i : nat) :
  Latency_Dump_hist_step l largestCount types st i = Done st' ->
  exists post, st'.2 = st.2 ++ post.
Proof.
  intros H. unfold Latency_Dump_hist_step in H.
  apply bind_Done in H as ([[pos total] bar] & _ & H).
  destruct (0 <? total) eqn:Ht.
  - destruct (pos <=? LATENCY_HISTOGRAM_WIDTH); [|done].
    apply bind_Done in H as (v & _ & H). injection H as <-.
    destruct st as [lp rows]. unfold hist_step. rewrite Ht. by eexists.
  - injection H as <-. exists []. by rewrite app_nil_r.
Qed.

Lemma hist_loop_extends (xs : list nat) (st st' : Z * list hist_row) :
  for_each (Latency_Dump_hist_step l largestCount types) st xs = Done st' ->
  exists post, st'.2 = st.2 ++ post.
Proof.
  revert st. induction xs as [|x xs IH]; intros st H.
  - cbn in H. injection H as <-. exists []. by rewrite app_nil_r.
  - cbn [for_each] in H. apply bind_Done in H as (st1 & H1 & H).
    destruct (hist_step_extends st st1 x H1) as [post1 Hp1].
    destruct (IH st1 H) as [post Hp].
    exists (post1 ++ post). by rewrite Hp, Hp1, app_assoc.
Qed.

(** C8, as the code has it.  In the rows [Latency_Dump] prints, a run of
    empty buckets strictly between two printed buckets [j] and [i] is shown
    between their two rows as one zero row per bucket when the run has at
    most 2 buckets, and as a single ["..."] row when it has 3 or more. *)
Theorem hist_zero_run (rows : list hist_row) (j i : nat) (pj tj pi ti : Z)
    (bj bi : string) :
  Latency_Dump_hist l largestCount types = Done rows ->
  (j < i < LATENCY_NUM_BUCKETS)%nat ->
  Latency_Dump_bar l largestCount j types = Done (pj, tj, bj) -> 0 < tj ->
  Latency_Dump_bar l largestCount i types = Done (pi, ti, bi) -> 0 < ti ->
  (forall k, (j < k < i)%nat -> exists pos bar,
     Latency_Dump_bar l largestCount k types = Done (pos, 0, bar)) ->
  exists pre post,
    rows = pre ++ [RowBar (Z.of_nat j) tj bj]
               ++ shown_gap 2 (Z.of_nat j) (Z.of_nat i)
               ++ [RowBar (Z.of_nat i) ti bi] ++ post.
Proof.
  intros H Hji Hbj Htj Hbi Hti Hzero. unfold Latency_Dump_hist in H.
  apply bind_Done in H as (st & H & Hrows). injection Hrows as <-.
  assert (Hsplit : seq 0 LATENCY_NUM_BUCKETS
                   = seq 0 j ++ [j] ++ seq (S j) (i - j - 1) ++ [i]
                       ++ seq (S i) (LATENCY_NUM_BUCKETS - S i)).
  { replace LATENCY_NUM_BUCKETS
      with (j + (1 + ((i - j - 1) + (1 + (LATENCY_NUM_BUCKETS - S i)))))%nat at 1 by lia.
    rewrite !seq_app. cbn [seq].
    replace (0 + j)%nat with j by lia.
    replace (j + 1)%nat with (S j) by lia.
    replace (S j + (i - j - 1))%nat with i by lia.
    by replace (i + 1)%nat with (S i) by lia. }
  rewrite Hsplit in H. rewrite for_each_app in H.
  apply bind_Done in H as (st0 & H0 & H). rewrite for_each_app in H.
  apply bind_Done in H as (stj & Hj & H). rewrite for_each_app in H.
  apply bind_Done in H as (stz & Hz & H). rewrite for_each_app in H.
  apply bind_Done in H as (sti & Hi & H).
  cbn [for_each] in Hj, Hi.
  apply bind_Done in Hj as (stj' & Hj & Hj'). injection Hj' as <-.
  apply bind_Done in Hi as (sti' & Hi & Hi'). injection Hi' as <-.
  apply (hist_step_printed st0 stj' j pj tj bj Hbj Htj) in Hj.
  rewrite hist_loop_empty in Hz.
  2:{ intros k Hk%elem_of_seq. apply Hzero. lia. }
  injection Hz as <-.
  apply (hist_step_printed stj' sti' i pi ti bi Hbi Hti) in Hi.
  destruct (hist_loop_extends _ sti' st H) as [post Hpost].
  exists (st0.2 ++ gap_rows st0.1 (Z.of_nat j)), post.
  rewrite Hpost, Hi, Hj. cbn [fst snd].
  rewrite (gap_rows_shown (Z.of_nat j) (Z.of_nat i)) by lia.
  by rewrite <- !app_assoc.
Qed.

End HistLoop.

Lemma recorder_gap_state :
  exists l out l',
    recorder_gap = Done l
    /\ Latency_Dump l = Done (out, l', 0)
    /\ drop 2 out
         = ["      1 ns |          1 | =" +:+ newline;
            "       ... |" +:+ newline;
            "     16 ns |          1 | =" +:+ newline]
    /\ Latency_Dump_largest l = Done 50
    /\ Latency_Dump_hist l 50 [TAG_DEFAULT]
         = Done [RowBar 0 1 "="; RowEllipsis; RowBar 4 1 "="]
    /\ Latency_Dump_bar l 50 0 [TAG_DEFAULT] = Done (1, 1, "="%string)
    /\ Latency_Dump_bar l 50 4 [TAG_DEFAULT] = Done (1, 1, "="%string)
    /\ Latency_Dump_bar l 50 1 [TAG_DEFAULT] = Done (0, 0, ""%string)
    /\ Latency_Dump_bar l 50 2 [TAG_DEFAULT] = Done (0, 0, ""%string)
    /\ Latency_Dump_bar l 50 3 [TAG_DEFAULT] = Done (0, 0, ""%string).
Proof.
  eexists _, _, _.
  split; [vm_compute; reflexivity|]. split; [vm_compute; reflexivity|].
  split_and!; vm_compute; reflexivity.
Qed.

Lemma recorder_gap_zero (l : dmtr_latency) (k : nat) :
  Latency_Dump_bar l 50 1 [TAG_DEFAULT] = Done (0, 0, ""%string) ->
  Latency_Dump_bar l 50 2 [TAG_DEFAULT] = Done (0, 0, ""%string) ->
  Latency_Dump_bar l 50 3 [TAG_DEFAULT] = Done (0, 0, ""%string) ->
  (0 < k < 4)%nat ->
  exists pos bar, Latency_Dump_bar l 50 k [TAG_DEFAULT] = Done (pos, 0, bar).
Proof.
  intros H1 H2 H3 Hk. exists 0, ""%string.
  assert (k = 1 \/ k = 2 \/ k = 3)%nat as [-> | [-> | ->]] by lia; assumption.
Qed.

Lemma hist_zero_run_witness :
  exists l rows pre post,
    recorder_gap = Done l
    /\ Latency_Dump_hist l 50 [TAG_DEFAULT] = Done rows
    /\ rows = pre ++ [RowBar 0 1 "="] ++ [RowEllipsis] ++ [RowBar 4 1 "="] ++ post.
Proof.
  destruct recorder_gap_state
    as (l & _ & _ & Hl & _ & _ & _ & Hhist & Hb0 & Hb4 & Hz1 & Hz2 & Hz3).
  destruct (hist_zero_run l 50 [TAG_DEFAULT] _ 0 4 1 1 1 1 "=" "=" Hhist)
    as (pre & post & Hrows).
  - unfold LATENCY_NUM_BUCKETS. lia.
  - exact Hb0.
  - lia.
  - exact Hb4.
  - lia.
  - intros k Hk. apply (recorder_gap_zero l k Hz1 Hz2 Hz3). lia.
  - exists l, [RowBar 0 1 "="; RowEllipsis; RowBar 4 1 "="], pre, post.
    split_and!; [exact Hl|exact Hhist|exact Hrows].
Defined.

(** The claim C8 as stated fails: a run of exactly three empty buckets
    (here buckets 1 to 3, between the samples 1 and 16) is collapsed. *)
Lemma hist_zero_run_of_three_collapsed :
  ~ (forall l largestCount types rows (j i : nat) pj tj pi ti bj bi,
       Latency_Dump_hist l largestCount types = Done rows ->
       (j < i < LATENCY_NUM_BUCKETS)%nat ->
       Latency_Dump_bar l largestCount j types = Done (pj, tj, bj) -> 0 < tj ->
       Latency_Dump_bar l largestCount i types = Done (pi, ti, bi) -> 0 < ti ->
       (forall k, (j < k < i)%nat -> exists pos bar,
          Latency_Dump_bar l largestCount k types = Done (pos, 0, bar)) ->
       exists pre post,
         rows = pre ++ [RowBar (Z.of_nat j) tj bj]
                    ++ shown_gap 3 (Z.of_nat j) (Z.of_nat i)
                    ++ [RowBar (Z.of_nat i) ti bi] ++ post).
Proof.
  intros H.
  destruct recorder_gap_state
    as (l & _ & _ & Hl & _ & _ & _ & Hhist & Hb0 & Hb4 & Hz1 & Hz2 & Hz3).
  destruct (H l 50 [TAG_DEFAULT] _ 0%nat 4%nat 1 1 1 1 "="%string "="%string Hhist)
    as (pre & post & Hrows).
  - unfold LATENCY_NUM_BUCKETS. lia.
  - exact Hb0.
  - lia.
  - exact Hb4.
  - lia.
  - intros k Hk. apply (recorder_gap_zero l k Hz1 Hz2 Hz3). lia.
  - change (shown_gap 3 (Z.of_nat 0) (Z.of_nat 4))
      with [RowZero 1; RowZero 2; RowZero 3] in Hrows.
    apply (f_equal length) in Hrows. rewrite !length_app in Hrows.
    cbn [length] in Hrows. lia.
Qed.

(** ** A merge into a full pool *)

Lemma for_each_abort_or {S A : Type} (P : S -> Prop) (body : S -> A -> outcome S)
    (xs : list A) :
  (forall s x, x ∈ xs -> P s ->
     body s x = Fault Abort \/ exists s', body s x = Done s' /\ P s') ->
  forall s, P s ->
  for_each body s xs = Fault Abort \/ exists s', for_each body s xs = Done s' /\ P s'.
Proof.
  induction xs as [|x xs IH]; intros Hbody s Hs.
  - right. by exists s.
  - cbn [for_each].
    destruct (Hbody s x ltac:(left) Hs) as [Habort|(s1 & H1 & Hs1)].
    + left. by rewrite Habort.
    + rewrite H1, Done_bind. apply IH; [|done].
      intros s0 x0 Hx0. apply Hbody. by right.
Qed.

Lemma for_each_abort_at {S A : Type} (P : S -> Prop) (body : S -> A -> outcome S)
    (xs ys : list A) (x : A) (s : S) :
  for_each body s xs = Fault Abort \/ (exists s', for_each body s xs = Done s' /\ P s') ->
  (forall s', P s' -> body s' x = Fault Abort) ->
  for_each body s (xs ++ x :: ys) = Fault Abort.
Proof.
  intros Hpre Hx. rewrite for_each_app.
  destruct Hpre as [Habort|(s1 & H1 & Hs1)].
  - by rewrite Habort.
  - rewrite H1, Done_bind. cbn [for_each]. by rewrite (Hx s1 Hs1).
Qed.

Lemma Latency_Sum_bucket_full (t : nat) (d : Latency_Dist_t) (cur : dmtr_latency)
    (k : nat) :
  pool_full_without t cur -> dist_wf d -> (Dist.type d < LATENCY_MAX_DIST)%nat ->
  (k < LATENCY_NUM_BUCKETS)%nat ->
  Latency_Sum_bucket d cur k = Fault Abort
  \/ exists cur1, Latency_Sum_bucket d cur k = Done cur1 /\ pool_full_without t cur1.
Proof.
  intros (Hwf & Hfull & Hdead) Hd Ht Hk.
  destruct (dist_of cur (Dist.type d)) as [dd|] eqn:Hlive.
  - right.
    destruct (Latency_Sum_bucket_ok d cur k Hwf Hd Hk Ht) as [cur1 Hstep];
      [left; by rewrite Hlive|].
    exists cur1. split; [done|].
    destruct (Latency_Sum_bucket_spec d cur cur1 k Hwf Hstep)
      as (c & Hc & [[-> ->]|(Hnz & Hk64 & Hwf1 & _ & _ & Hd1 & Ho1 & Hnext)]);
      [done|].
    split_and!; [done| |].
    + by rewrite Hnext, Hlive.
    + rewrite Ho1; [done|]. intros ->. congruence.
  - pose proof (dist_of_None cur _ Hwf Ht Hlive) as Hslot.
    unfold Latency_Sum_bucket.
    destruct (lookup_lt_is_Some_2 (Dist.buckets d) k) as [c Hc];
      [by rewrite (dwf_len d Hd)|].
    rewrite Hc, deref_Some, Done_bind.
    destruct (Z.eqb_spec c 0) as [->|Hnz].
    + right. by exists cur.
    + left. assert (k < 64)%nat as Hk64.
      { destruct (decide (k = 64%nat)) as [->|]; [|unfold LATENCY_NUM_BUCKETS in Hk; lia].
        rewrite (dwf_last d Hd) in Hc. congruence. }
      unfold shl1. destruct (decide (k < 64)%nat); [|lia].
      by rewrite Done_bind, LatencyAddHist_full.
Qed.

Lemma Latency_Sum_hist_full (t : nat) (summand cur : dmtr_latency) (i : nat) :
  wf summand -> pool_full_without t cur -> (i < distPoolNext summand)%nat ->
  Latency_Sum_hist summand cur i = Fault Abort
  \/ exists cur1, Latency_Sum_hist summand cur i = Done cur1 /\ pool_full_without t cur1.
Proof.
  intros Hws Hcur Hi.
  pose proof (wf_next summand Hws) as Hns. pose proof (wf_pool_len summand Hws) as Hpl.
  destruct (lookup_lt_is_Some_2 (distPool summand) i) as [d Hd]; [lia|].
  unfold Latency_Sum_hist. rewrite Hd, deref_Some, Done_bind.
  apply (for_each_abort_or (pool_full_without t)); [|done].
  intros s k Hk%elem_of_seq Hs.
  apply Latency_Sum_bucket_full; try done; [by apply (wf_dist summand Hws i)| |lia].
  pose proof (wf_used summand Hws i d Hi Hd) as Hu.
  apply lookup_lt_Some in Hu. by rewrite (wf_dists_len summand Hws) in Hu.
Qed.

Lemma not_all_zero_bucket (d : Latency_Dist_t) :
  dist_wf d -> ~ all_zero d ->
  exists k c, (k < 64)%nat /\ Dist.buckets d !! k = Some c /\ c <> 0.
Proof.
  intros Hd Hnz. unfold all_zero in Hnz.
  apply not_Forall_Exists in Hnz; [|apply _].
  apply Exists_exists in Hnz as (c & Hin & Hc).
  apply list_elem_of_lookup in Hin as [k Hk].
  exists k, c. split_and!; [|done|done].
  pose proof (lookup_lt_Some _ _ _ Hk) as Hlt. rewrite (dwf_len d Hd) in Hlt.
  destruct (decide (k = 64%nat)) as [->|]; [|unfold LATENCY_NUM_BUCKETS in Hlt; lia].
  rewrite (dwf_last d Hd) in Hk. injection Hk as <-. by destruct Hc.
Qed.

Lemma seq_split_at (n k : nat) : (k < n)%nat -> seq 0 n = seq 0 k ++ k :: seq (S k) (n - S k).
Proof.
  intros Hk. replace n with (k + S (n - S k))%nat at 1 by lia.
  by rewrite seq_app.
Qed.

(** A merge whose summand has a non-empty distribution for a tag that the
    full pool of [dest] lacks aborts. *)
Lemma Latency_Sum_full (dest summand : dmtr_latency) (t : nat) (ds : Latency_Dist_t) :
  pool_full_without t dest -> wf summand ->
  dist_of summand t = Some ds -> ~ all_zero ds ->
  Latency_Sum dest summand = Fault Abort.
Proof.
  intros Hdest Hws Hds Hnz.
  destruct (dist_of_Some summand t ds Hws Hds) as (si & Hsi & Hpool & Hlt & Hty & Hdwf).
  destruct (not_all_zero_bucket ds Hdwf Hnz) as (k & c & Hk & Hc & Hcnz).
  unfold Latency_Sum.
  rewrite (seq_split_at (distPoolNext summand) si Hlt).
  rewrite (for_each_abort_at (pool_full_without t)); [done| |].
  - apply (for_each_abort_or (pool_full_without t)); [|done].
    intros s i Hi%elem_of_seq Hs. apply Latency_Sum_hist_full; try done. lia.
  - intros s Hs. unfold Latency_Sum_hist. rewrite Hpool, deref_Some, Done_bind.
    rewrite (seq_split_at LATENCY_NUM_BUCKETS k) by (unfold LATENCY_NUM_BUCKETS; lia).
    apply (for_each_abort_at (pool_full_without t)).
    + apply (for_each_abort_or (pool_full_without t)); [|done].
      intros s0 k0 Hk0%elem_of_seq Hs0.
      apply Latency_Sum_bucket_full; try done; [|unfold LATENCY_NUM_BUCKETS; lia].
      rewrite Hty. apply lookup_lt_Some in Hsi.
      by rewrite (wf_dists_len summand Hws) in Hsi.
    + intros s0 (Hwf0 & Hfull0 & Hdead0).
      unfold Latency_Sum_bucket. rewrite Hc, deref_Some, Done_bind.
      destruct (Z.eqb_spec c 0); [done|].
      unfold shl1. destruct (decide (k < 64)%nat); [|lia].
      rewrite Done_bind, LatencyAddHist_full; [done| |done].
      rewrite Hty. apply dist_of_None; [done| |done].
      apply lookup_lt_Some in Hsi. by rewrite (wf_dists_len summand Hws) in Hsi.
Qed.

Lemma full_recorder_reachable (l : dmtr_latency) : full_recorder = Done l -> reachable l.
Proof.
  unfold full_recorder. apply add_all_reachable; [apply reach_new|].
  repeat (apply Forall_cons_2; [cbn; lia|]). apply Forall_nil_2.
Qed.

Lemma full_recorder_state :
  exists l summand ds,
    full_recorder = Done l /\ recorder_b = Done summand
    /\ dists l !! 61%nat = Some None
    /\ distPoolNext l = LATENCY_DIST_POOL_SIZE
    /\ dist_of summand 61 = Some ds
    /\ Dist.buckets ds !! 1%nat = Some 1.
Proof.
  eexists _, _, _.
  split; [vm_compute; reflexivity|]. split; [vm_compute; reflexivity|].
  split_and!; vm_compute; reflexivity.
Qed.

(** C4.  When the pool already holds five tags, a recording or merging
    step for a tag that has no distribution yet aborts: [LatencyAddHist] and
    [LatencyAdd] do for every value, the step of a merge does for any
    non-empty bucket of a distribution with that tag, and so does the whole
    merge of a summand with such a distribution.  Nothing is returned, so
    the new tag is not silently dropped. *)
Theorem pool_exhausted_aborts (l : dmtr_latency) (t : nat) :
  dists l !! t = Some None ->
  distPoolNext l = LATENCY_DIST_POOL_SIZE ->
  (forall v c, LatencyAddHist l t v c = Fault Abort)
  /\ (forall v, LatencyAdd l t v = Fault Abort)
  /\ (forall d b c, Dist.type d = t -> Dist.buckets d !! b = Some c -> c <> 0 ->
        (b < 64)%nat -> Latency_Sum_bucket d l b = Fault Abort)
  /\ (forall summand ds, wf l -> wf summand ->
        dist_of summand t = Some ds -> ~ all_zero ds ->
        Latency_Sum l summand = Fault Abort).
Proof.
  intros Hslot Hfull. split_and!.
  - intros v c. by apply LatencyAddHist_full.
  - intros v. by apply LatencyAdd_full.
  - intros d b c <- Hc Hnz Hb. unfold Latency_Sum_bucket.
    rewrite Hc, deref_Some, Done_bind.
    destruct (Z.eqb_spec c 0) as [->|_]; [done|].
    unfold shl1. destruct (decide (b < 64)%nat); [|lia].
    by rewrite Done_bind, LatencyAddHist_full.
  - intros summand ds Hwf Hws Hds Hnz.
    apply (Latency_Sum_full l summand t ds); try done.
    split_and!; [done|done|]. unfold dist_of. by rewrite Hslot.
Qed.

Lemma pool_exhausted_aborts_witness :
  exists l summand,
    full_recorder = Done l /\ recorder_b = Done summand
    /\ LatencyAddHist l 61 1 1 = Fault Abort
    /\ LatencyAdd l 61 1 = Fault Abort
    /\ Latency_Sum l summand = Fault Abort.
Proof.
  destruct full_recorder_state as (l & summand & ds & Hl & Hs & Hslot & Hfull & Hds & Hb).
  destruct (pool_exhausted_aborts l 61 Hslot Hfull) as (Hhist & Hadd & _ & Hsum).
  exists l, summand. split_and!; [exact Hl|exact Hs|apply Hhist|apply Hadd|].
  apply (Hsum summand ds).
  - exact (reachable_wf _ l (full_recorder_reachable l Hl)).
  - exact (reachable_wf _ summand (recorder_b_reachable summand Hs)).
  - exact Hds.
  - intros Hz. pose proof (Forall_lookup_1 _ _ _ _ Hz Hb) as H1. discriminate H1.
Defined.

(** * Further properties of the recorder *)

(** ** The format of a duration *)

(** X1.  [LatencyFmtNS] prints a value below 10000 in nanoseconds, a value
    below [10^7] in whole microseconds, a value below [10^10] in whole
    milliseconds and any larger value in whole seconds, each rounded down:
    the number printed is below 10000 unless the unit is seconds. *)
Theorem LatencyFmtNS_ranges (ns : Z) :
  LatencyFmtNS ns =
    if ns <? 10000 then string_of_Z ns +:+ " ns"
    else if ns <? 10000000 then string_of_Z (ns / 1000) +:+ " us"
    else if ns <? 10000000000 then string_of_Z (ns / 1000000) +:+ " ms"
    else string_of_Z (ns / 1000000000) +:+ " s".
Proof.
  unfold LatencyFmtNS. cbn [LatencyFmtNS_loop].
  change (bool_decide (0 < length units - 1)%nat) with true.
  change (bool_decide (1 < length units - 1)%nat) with true.
  change (bool_decide (2 < length units - 1)%nat) with true.
  rewrite !andb_true_r.
  destruct (Z.ltb_spec ns 10000) as [H1|H1].
  { destruct (Z.leb_spec 10000 ns); [lia|done]. }
  destruct (Z.leb_spec 10000 ns) as [_|]; [|lia].
  assert (ns / 1000 / 1000 = ns / 1000000) as E2 by (rewrite Z.div_div by lia; done).
  assert (ns / 1000 / 1000 / 1000 = ns / 1000000000) as E3
    by (rewrite !Z.div_div by lia; done).
  destruct (Z.ltb_spec ns 10000000) as [H2|H2].
  { destruct (Z.leb_spec 10000 (ns / 1000)) as [Hge|]; [|done].
    assert (ns / 1000 < 10000) by (apply Z.div_lt_upper_bound; lia). lia. }
  destruct (Z.leb_spec 10000 (ns / 1000)) as [_|Hlt].
  2:{ assert (10000 <= ns / 1000) by (apply Z.div_le_lower_bound; lia). lia. }
  rewrite ?E3, ?E2.
  destruct (Z.ltb_spec ns 10000000000) as [H3|H3].
  { destruct (Z.leb_spec 10000 (ns / 1000000)) as [Hge|]; [|done].
    assert (ns / 1000000 < 10000) by (apply Z.div_lt_upper_bound; lia). lia. }
  destruct (Z.leb_spec 10000 (ns / 1000000)) as [_|Hlt]; [done|].
  assert (10000 <= ns / 1000000) by (apply Z.div_le_lower_bound; lia). lia.
Qed.

(** ** The tail percentiles of a non-empty buffer *)

Lemma tail_in_range_b_spec (size : Z) : tail_in_range_b size = true -> tail_in_range size.
Proof.
  unfold tail_in_range_b, tail_in_range. intros H.
  destruct (tail_index size DBL_0_99) as [i99|]; [|done].
  destruct (tail_index size DBL_0_999) as [i999|]; [|done].
  destruct (tail_index size DBL_0_9999) as [i9999|]; [|done].
  exists i99, i999, i9999. split_and!; try done; lia.
Qed.

Lemma tail_in_range_small (size : Z) : 1 <= size <= 1000 -> tail_in_range size.
Proof.
  intros Hs. apply tail_in_range_b_spec.
  assert (Hall : forallb tail_in_range_b (seqZ 1 1000) = true) by (vm_compute; reflexivity).
  rewrite forallb_forall in Hall. apply Hall.
  apply list_elem_of_In, elem_of_seqZ. lia.
Qed.

Lemma tail_ordered_in_range (size : Z) : tail_ordered size -> tail_in_range size.
Proof.
  intros (i99 & i999 & i9999 & H1 & H2 & H3 & Ha & Hb).
  exists i99, i999, i9999. split_and!; try done; lia.
Qed.

Lemma tail_in_range_all (N : Z) : 1 <= N < 2 ^ 31 -> tail_in_range N.
Proof.
  intros HN. destruct (Z_le_gt_dec N 1000) as [Hle|Hgt].
  - apply tail_in_range_small. lia.
  - apply tail_ordered_in_range.
    destruct (Z_lt_le_dec N 1112); [apply tail_ordered_small|apply tail_ordered_large]; lia.
Qed.

(** X2.  For every non-empty buffer of fewer than [2^31] samples the three
    indices [(int)((float)size * p)] are defined, in the buffer and in
    order ([i99 <= i999 <= i9999 <= size - 1]): [vector::at] can only throw
    on an empty buffer. *)
Theorem tail_indices_in_range (N : Z) :
  1 <= N < 2 ^ 31 -> tail_in_range N.
Proof.
  intros HN. destruct (Z_le_gt_dec N 1000) as [Hle|Hgt].
  - apply tail_in_range_small. lia.
  - apply tail_ordered_in_range.
    destruct (Z_lt_le_dec N 1112); [apply tail_ordered_small|apply tail_ordered_large]; lia.
Qed.

Lemma tail_indices_in_range_witness : tail_in_range 7.
Proof. apply (tail_indices_in_range 7). lia. Defined.

Lemma StronglySorted_lookup_le (v : list Z) :
  StronglySorted Z.le v ->
  forall (i j : nat) (x y : Z), (i <= j)%nat -> v !! i = Some x -> v !! j = Some y -> x <= y.
Proof.
  induction 1 as [|a v Hv IH Ha]; intros i j x y Hij Hi Hj; [done|].
  destruct i as [|i], j as [|j]; cbn in Hi, Hj.
  - injection Hi as <-. injection Hj as <-. lia.
  - injection Hi as <-. rewrite Forall_forall in Ha. apply Ha.
    by eapply list_elem_of_lookup_2.
  - lia.
  - apply (IH i j); [lia|done|done].
Qed.

Lemma at_lookup (v : list Z) (i : Z) (x : Z) :
  0 <= i -> v !! Z.to_nat i = Some x -> at_ v i = Done x.
Proof.
  intros Hi Hx. unfold at_. destruct (Z.ltb_spec i 0); [lia|]. by rewrite Hx.
Qed.

Lemma Latency_Dump_tail_values (v : list Z) :
  v <> [] -> Z.of_nat (length v) < 2 ^ 31 -> Sorted Z.le v ->
  exists p99 p999 p9999,
    Latency_Dump_tail v = Done (tail_line p99 p999 p9999)
    /\ p99 <= p999 <= p9999
    /\ p99 ∈ v /\ p999 ∈ v /\ p9999 ∈ v.
Proof.
  intros Hne Hlen Hsorted.
  assert (1 <= Z.of_nat (length v)) as Hpos by (destruct v; [done|cbn; lia]).
  destruct (tail_in_range_all (Z.of_nat (length v)) ltac:(lia))
    as (i99 & i999 & i9999 & H1 & H2 & H3 & Ha & Hb).
  apply Sorted_StronglySorted in Hsorted; [|apply _].
  destruct (lookup_lt_is_Some_2 v (Z.to_nat i99) ltac:(lia)) as [p99 Hp99].
  destruct (lookup_lt_is_Some_2 v (Z.to_nat i999) ltac:(lia)) as [p999 Hp999].
  destruct (lookup_lt_is_Some_2 v (Z.to_nat i9999) ltac:(lia)) as [p9999 Hp9999].
  exists p99, p999, p9999. split_and!.
  - unfold Latency_Dump_tail. rewrite H1, Done_bind, (at_lookup v i99 p99) by (lia || done).
    rewrite Done_bind, H2, Done_bind, (at_lookup v i999 p999) by (lia || done).
    rewrite Done_bind, H3, Done_bind, (at_lookup v i9999 p9999) by (lia || done).
    done.
  - apply (StronglySorted_lookup_le v Hsorted (Z.to_nat i99) (Z.to_nat i999)); (lia || done).
  - apply (StronglySorted_lookup_le v Hsorted (Z.to_nat i999) (Z.to_nat i9999)); (lia || done).
  - by eapply list_elem_of_lookup_2.
  - by eapply list_elem_of_lookup_2.
  - by eapply list_elem_of_lookup_2.
Qed.

(** ** Invariants of every reachable recorder *)

Lemma push_sample_length (l : dmtr_latency) (v : Z) :
  Z.of_nat (length (latencies l)) <= MAX_ITERATIONS ->
  Z.of_nat (length (push_sample l v)) <= MAX_ITERATIONS.
Proof.
  intros H. unfold push_sample.
  destruct (Z.ltb_spec (Z.of_nat (length (latencies l))) MAX_ITERATIONS); [|done].
  rewrite length_app. cbn. lia.
Qed.

Lemma reachable_latencies_capped (l : dmtr_latency) :
  reachable l -> Z.of_nat (length (latencies l)) <= MAX_ITERATIONS.
Proof.
  induction 1 as [n|l l' t v Hl IH Hv Hadd _|dest summand dest' Hd IHd Hs IHs Hsum _
                 |l Hl IH].
  - cbn. unfold MAX_ITERATIONS. lia.
  - destruct (LatencyAdd_spec l l' t v (reachable_wf _ l Hl) Hv Hadd) as (_ & _ & -> & _).
    by apply push_sample_length.
  - destruct (Latency_Sum_spec dest summand dest' (reachable_wf _ dest Hd)
                (reachable_wf _ summand Hs) Hsum) as (_ & _ & -> & _).
    exact IHd.
  - cbn. by rewrite merge_sort_Permutation.
Qed.

Lemma recorder_a_state :
  exists l l',
    recorder_a = Done l
    /\ Z.of_nat (length (latencies l)) < MAX_ITERATIONS
    /\ LatencyAdd l TAG_DEFAULT 9 = Done l'.
Proof.
  eexists _, _. split; [vm_compute; reflexivity|].
  split; [vm_compute; reflexivity|]. vm_compute; reflexivity.
Qed.

(** X3.  The raw-sample buffer of a reachable recorder never holds more than
    [MAX_ITERATIONS] samples: [LatencyAdd] appends the value while there is
    room and leaves a full buffer as it is, while the sample is counted in
    its distribution either way. *)
Theorem raw_buffer_capped (l : dmtr_latency) :
  reachable l ->
  Z.of_nat (length (latencies l)) <= MAX_ITERATIONS
  /\ forall t v l', 0 <= v < 2 ^ 64 -> LatencyAdd l t v = Done l' ->
       (Z.of_nat (length (latencies l)) < MAX_ITERATIONS ->
          latencies l' = latencies l ++ [v])
       /\ (Z.of_nat (length (latencies l)) = MAX_ITERATIONS ->
          latencies l' = latencies l)
       /\ exists d', dist_of l' t = Some d'
            /\ Dist.count d' = u64 (Dist.count (base l t) + 1).
Proof.
  intros Hl. split; [by apply reachable_latencies_capped|].
  intros t v l' Hv Hadd.
  destruct (LatencyAdd_spec l l' t v (reachable_wf _ l Hl) Hv Hadd)
    as (_ & _ & Hlat & (b & _ & Hd) & _).
  rewrite Hlat. unfold push_sample. split_and!.
  - intros Hlt. destruct (Z.ltb_spec (Z.of_nat (length (latencies l))) MAX_ITERATIONS);
      [done|lia].
  - intros Heq. destruct (Z.ltb_spec (Z.of_nat (length (latencies l))) MAX_ITERATIONS);
      [lia|done].
  - eexists. split; [exact Hd|]. by rewrite add_stats_count.
Qed.

Lemma raw_buffer_capped_witness :
  exists l l',
    recorder_a = Done l /\ LatencyAdd l TAG_DEFAULT 9 = Done l'
    /\ latencies l' = latencies l ++ [9].
Proof.
  destruct recorder_a_state as (l & l' & Ha & Hlen & Hadd).
  exists l, l'. split; [exact Ha|]. split; [exact Hadd|].
  destruct (raw_buffer_capped l (recorder_a_reachable l Ha)) as [_ H].
  destruct (H TAG_DEFAULT 9 l' ltac:(lia) Hadd) as (Happ & _ & _).
  apply Happ, Hlen.
Defined.

Lemma add_stats_min_max (d : Latency_Dist_t) (v : Z) :
  Dist.min (add_stats d v) = Z.min (Dist.min d) v
  /\ Dist.max (add_stats d v) = Z.max (Dist.max d) v.
Proof.
  unfold add_stats.
  destruct (Z.ltb_spec v (Dist.min d)); cbn;
    destruct (Z.gtb_spec v (Dist.max d)); cbn; lia.
Qed.

Lemma reachable_min_le_max (l : dmtr_latency) :
  reachable l -> forall t d, dist_of l t = Some d -> Dist.min d <= Dist.max d.
Proof.
  induction 1 as [n|l l' t v Hl IH Hv Hadd _|dest summand dest' Hd IHd Hs IHs Hsum _
                 |l Hl IH]; intros t0 d0 Hd0.
  - by rewrite dist_of_new in Hd0.
  - destruct (LatencyAdd_spec l l' t v (reachable_wf _ l Hl) Hv Hadd)
      as (_ & _ & _ & (b & _ & Hdt) & Ho & _).
    destruct (decide (t0 = t)) as [->|Hne].
    + rewrite Hdt in Hd0. injection Hd0 as <-.
      destruct (add_stats_min_max (bump (base l t) b 1) v) as [-> ->]. lia.
    + rewrite Ho in Hd0 by done. by apply (IH t0).
  - destruct (Latency_Sum_spec dest summand dest' (reachable_wf _ dest Hd)
                (reachable_wf _ summand Hs) Hsum) as (_ & _ & _ & Hv & _).
    rewrite Hv in Hd0. unfold merge_view in Hd0.
    destruct (dist_of summand t0) as [ds|] eqn:Hds.
    + injection Hd0 as <-. rewrite stats_merge_min, stats_merge_max.
      pose proof (IHs t0 ds Hds). lia.
    + by apply (IHd t0).
  - apply (IH t0). by rewrite <- Hd0.
Qed.

(** X4.  In every distribution in use of a reachable recorder the minimum
    is at most the maximum, and a newly recorded value lies between the
    two. *)
Theorem min_le_max (l : dmtr_latency) :
  reachable l ->
  (forall t d, dist_of l t = Some d -> Dist.min d <= Dist.max d)
  /\ (forall t v l' d', 0 <= v < 2 ^ 64 -> LatencyAdd l t v = Done l' ->
        dist_of l' t = Some d' -> Dist.min d' <= v <= Dist.max d').
Proof.
  intros Hl. split; [by apply reachable_min_le_max|].
  intros t v l' d' Hv Hadd Hd'.
  destruct (LatencyAdd_spec l l' t v (reachable_wf _ l Hl) Hv Hadd)
    as (_ & _ & _ & (b & _ & Hdt) & _).
  rewrite Hdt in Hd'. injection Hd' as <-.
  destruct (add_stats_min_max (bump (base l t) b 1) v) as [-> ->]. lia.
Qed.

Lemma min_le_max_witness :
  exists l d,
    recorder_a = Done l /\ dist_of l TAG_DEFAULT = Some d
    /\ Dist.min d <= Dist.max d.
Proof.
  destruct merge_example_state as (l & _ & _ & d & _ & Ha & _ & _ & Hd & _).
  exists l, d. split; [exact Ha|]. split; [exact Hd|].
  destruct (min_le_max l (recorder_a_reachable l Ha)) as [H _].
  apply (H TAG_DEFAULT d Hd).
Defined.

Lemma recorder_a_pool :
  exists l d, recorder_a = Done l /\ distPool l !! 0%nat = Some d.
Proof. eexists _, _. split; [vm_compute; reflexivity|]. vm_compute; reflexivity. Qed.

(** X5.  Bucket 64 is never used: in a reachable recorder it is zero in
    every slot of the pool, every bucket is a 32-bit value, and every
    distribution has its 65 buckets; so a merge never shifts by 64. *)
Theorem last_bucket_unused (l : dmtr_latency) (i : nat) (d : Latency_Dist_t) :
  reachable l -> distPool l !! i = Some d ->
  Dist.buckets d !! 64%nat = Some 0
  /\ length (Dist.buckets d) = LATENCY_NUM_BUCKETS
  /\ (forall b c, Dist.buckets d !! b = Some c -> c <> 0 ->
        exists v, shl1 b = Done v /\ bucket_index v = Done b).
Proof.
  intros Hl Hd. pose proof (wf_dist l (reachable_wf _ l Hl) i d Hd) as Hwf.
  split; [apply (dwf_last d Hwf)|]. split; [apply (dwf_len d Hwf)|].
  intros b c Hb Hc.
  assert (b < 64)%nat as Hlt.
  { pose proof (lookup_lt_Some _ _ _ Hb) as Hlen. rewrite (dwf_len d Hwf) in Hlen.
    unfold LATENCY_NUM_BUCKETS in Hlen.
    destruct (decide (b = 64%nat)) as [->|]; [|lia].
    rewrite (dwf_last d Hwf) in Hb. congruence. }
  exists (1 ≪ Z.of_nat b). split.
  - unfold shl1. by rewrite decide_True.
  - rewrite Z.shiftl_1_l. by apply bucket_index_pow2.
Qed.

Lemma last_bucket_unused_witness :
  exists l d,
    recorder_a = Done l /\ distPool l !! 0%nat = Some d
    /\ Dist.buckets d !! 64%nat = Some 0.
Proof.
  destruct recorder_a_pool as (l & d & Ha & Hd).
  exists l, d. split; [exact Ha|]. split; [exact Hd|].
  by destruct (last_bucket_unused l 0 d (recorder_a_reachable l Ha) Hd) as [H _].
Defined.

(** ** The pool and the tags in use *)

Lemma live_tags_spec (l : dmtr_latency) (t : nat) :
  wf l -> t ∈ live_tags l <-> is_Some (dist_of l t).
Proof.
  intros Hwf. unfold live_tags. rewrite list_elem_of_filter, elem_of_seq.
  split; [by intros [? _]|]. intros Hlive. split; [done|].
  pose proof (dist_of_lt l t Hwf Hlive). lia.
Qed.

Lemma slot_of_live (l : dmtr_latency) (t : nat) (d : Latency_Dist_t) :
  wf l -> dist_of l t = Some d ->
  dists l !! t = Some (Some (slot_of l t)) /\ distPool l !! slot_of l t = Some d
  /\ (slot_of l t < distPoolNext l)%nat.
Proof.
  intros Hwf Hd. destruct (dist_of_Some l t d Hwf Hd) as (i & Hi & Hp & Hlt & _).
  unfold slot_of. by rewrite Hi.
Qed.

Lemma live_slots_perm (l : dmtr_latency) :
  wf l -> slot_of l <$> live_tags l ≡ₚ seq 0 (distPoolNext l).
Proof.
  intros Hwf. apply NoDup_Permutation.
  - apply NoDup_fmap_2_strong.
    + intros t1 t2 [d1 H1]%(live_tags_spec l t1 Hwf) [d2 H2]%(live_tags_spec l t2 Hwf) Heq.
      destruct (dist_of_Some l t1 d1 Hwf H1) as (i1 & Hi1 & Hp1 & _ & Ht1 & _).
      destruct (dist_of_Some l t2 d2 Hwf H2) as (i2 & Hi2 & Hp2 & _ & Ht2 & _).
      unfold slot_of in Heq. rewrite Hi1, Hi2 in Heq. subst i2.
      assert (d1 = d2) by congruence. congruence.
    + apply NoDup_filter, NoDup_seq.
  - apply NoDup_seq.
  - intros i. rewrite list_elem_of_fmap, elem_of_seq. split.
    + intros (t & -> & [d Hd]%(live_tags_spec l t Hwf)).
      destruct (slot_of_live l t d Hwf Hd) as (_ & _ & ?). lia.
    + intros [_ Hi]. cbn in Hi.
      destruct (lookup_lt_is_Some_2 (distPool l) i) as [d Hd].
      { rewrite (wf_pool_len l Hwf). pose proof (wf_next l Hwf). lia. }
      pose proof (wf_used l Hwf i d Hi Hd) as Hused.
      exists (Dist.type d). split.
      * unfold slot_of. by rewrite Hused.
      * apply live_tags_spec; [done|]. rewrite (dist_of_lookup l _ i Hused). by exists d.
Qed.

Lemma live_tags_length (l : dmtr_latency) :
  wf l -> length (live_tags l) = distPoolNext l.
Proof.
  intros Hwf. rewrite <- (length_fmap (slot_of l)), (live_slots_perm l Hwf).
  apply length_seq.
Qed.

Lemma recorder_a_tags :
  exists l, recorder_a = Done l /\ live_tags l = [61; 65]%nat.
Proof. eexists. split; [vm_compute; reflexivity|]. vm_compute; reflexivity. Qed.

(** X6.  A reachable recorder uses one pool slot per tag that has a
    distribution, at most five; recording under a tag returns exactly when
    the tag has a distribution already or fewer than five tags have one, and
    aborts otherwise. *)
Theorem pool_accounting (l : dmtr_latency) (t : nat) (v : Z) :
  reachable l -> (t < LATENCY_MAX_DIST)%nat -> 0 <= v < 2 ^ 64 ->
  length (live_tags l) = distPoolNext l
  /\ (length (live_tags l) <= LATENCY_DIST_POOL_SIZE)%nat
  /\ (t ∈ live_tags l \/ (length (live_tags l) < LATENCY_DIST_POOL_SIZE)%nat ->
      exists l', LatencyAdd l t v = Done l')
  /\ (t ∉ live_tags l -> length (live_tags l) = LATENCY_DIST_POOL_SIZE ->
      LatencyAdd l t v = Fault Abort).
Proof.
  intros Hl Ht Hv. pose proof (reachable_wf _ l Hl) as Hwf.
  pose proof (live_tags_length l Hwf) as Hlen. rewrite Hlen.
  split; [done|]. split; [apply (wf_next l Hwf)|]. split.
  - intros Hroom. apply LatencyAdd_ok; try done.
    destruct Hroom as [Hlive|Hlt]; [left; by apply live_tags_spec|by right].
  - intros Hdead Hfull. apply LatencyAdd_full; [|done].
    apply dist_of_None; try done.
    destruct (dist_of l t) as [d|] eqn:Hd; [|done].
    exfalso. apply Hdead, live_tags_spec; [done|]. by rewrite Hd.
Qed.

Lemma pool_accounting_witness :
  exists l l',
    recorder_a = Done l /\ live_tags l = [61; 65]%nat /\ distPoolNext l = 2%nat
    /\ LatencyAdd l 70%nat 3 = Done l'.
Proof.
  destruct recorder_a_tags as (l & Ha & Htags).
  destruct (pool_accounting l 70%nat 3 (recorder_a_reachable l Ha))
    as (Hn & _ & Hok & _).
  - unfold LATENCY_MAX_DIST. lia.
  - lia.
  - destruct Hok as [l' Hadd].
    + right. rewrite Htags. cbn. unfold LATENCY_DIST_POOL_SIZE. lia.
    + exists l, l'. split; [exact Ha|]. split; [exact Htags|].
      split; [|exact Hadd]. rewrite <- Hn, Htags. reflexivity.
Defined.

(** ** The algebra of merges *)

Lemma dist_ext (d1 d2 : Latency_Dist_t) :
  Dist.min d1 = Dist.min d2 -> Dist.max d1 = Dist.max d2 ->
  Dist.total d1 = Dist.total d2 -> Dist.count d1 = Dist.count d2 ->
  Dist.buckets d1 = Dist.buckets d2 -> Dist.type d1 = Dist.type d2 ->
  d1 = d2.
Proof. destruct d1, d2; cbn; congruence. Qed.

Lemma zip_with_zero_l (bs : list Z) :
  Forall (fun b => 0 <= b < 2 ^ 32) bs ->
  zip_with (fun x y => u32 (x + y)) (replicate (length bs) 0) bs = bs.
Proof.
  induction 1 as [|b bs Hb _ IH]; [done|]. cbn. f_equal; [|exact IH].
  apply u32_small. lia.
Qed.

Lemma zip_with_add_comm (xs ys : list Z) :
  zip_with (fun x y => u32 (x + y)) xs ys = zip_with (fun x y => u32 (x + y)) ys xs.
Proof.
  revert ys. induction xs as [|x xs IH]; intros [|y ys]; cbn; try done.
  f_equal; [f_equal; lia|apply IH].
Qed.

Lemma u32_add_assoc (x y z : Z) : u32 (u32 (x + y) + z) = u32 (x + u32 (y + z)).
Proof.
  unfold u32. rewrite Zplus_mod_idemp_l, Zplus_mod_idemp_r. f_equal. lia.
Qed.

Lemma u64_add_assoc (x y z : Z) : u64 (u64 (x + y) + z) = u64 (x + u64 (y + z)).
Proof.
  unfold u64. rewrite Zplus_mod_idemp_l, Zplus_mod_idemp_r. f_equal. lia.
Qed.

Lemma zip_with_add_assoc (xs ys zs : list Z) :
  zip_with (fun x y => u32 (x + y)) (zip_with (fun x y => u32 (x + y)) xs ys) zs
  = zip_with (fun x y => u32 (x + y)) xs (zip_with (fun x y => u32 (x + y)) ys zs).
Proof.
  revert ys zs. induction xs as [|x xs IH]; intros [|y ys] [|z zs]; cbn; try done.
  f_equal; [apply u32_add_assoc|apply IH].
Qed.

Lemma hist_merge_min (dd ds : Latency_Dist_t) : Dist.min (hist_merge dd ds) = Dist.min dd.
Proof. reflexivity. Qed.

Lemma hist_merge_max (dd ds : Latency_Dist_t) : Dist.max (hist_merge dd ds) = Dist.max dd.
Proof. reflexivity. Qed.

Lemma hist_merge_total (dd ds : Latency_Dist_t) :
  Dist.total (hist_merge dd ds) = Dist.total dd.
Proof. reflexivity. Qed.

Lemma hist_merge_count (dd ds : Latency_Dist_t) :
  Dist.count (hist_merge dd ds) = Dist.count dd.
Proof. reflexivity. Qed.

Lemma hist_merge_type (dd ds : Latency_Dist_t) :
  Dist.type (hist_merge dd ds) = Dist.type dd.
Proof. reflexivity. Qed.

Lemma hist_merge_buckets (dd ds : Latency_Dist_t) :
  Dist.buckets (hist_merge dd ds)
  = zip_with (fun x y => u32 (x + y)) (Dist.buckets dd) (Dist.buckets ds).
Proof. reflexivity. Qed.

(** Merging into a distribution that was never used gives the summand's. *)
Lemma merge_fresh_dist (t : nat) (ds : Latency_Dist_t) :
  dist_wf ds -> Dist.type ds = t ->
  stats_merge (hist_merge (Dist.set_type fresh_dist t) ds) ds = ds.
Proof.
  intros Hds Ht.
  pose proof (dwf_min ds Hds). pose proof (dwf_max ds Hds).
  pose proof (dwf_total ds Hds). pose proof (dwf_count ds Hds).
  apply dist_ext.
  - rewrite stats_merge_min. cbn. unfold UINT64_MAX. lia.
  - rewrite stats_merge_max. cbn. lia.
  - rewrite stats_merge_total. cbn. by apply u64_small.
  - rewrite stats_merge_count. cbn. by apply u64_small.
  - rewrite stats_merge_buckets.
    change (Dist.buckets (hist_merge (Dist.set_type fresh_dist t) ds))
      with (zip_with (fun x y => u32 (x + y)) (replicate LATENCY_NUM_BUCKETS 0)
              (Dist.buckets ds)).
    rewrite <- (dwf_len ds Hds). apply zip_with_zero_l, (dwf_range ds Hds).
  - rewrite stats_merge_type. cbn. done.
Qed.

Lemma merge_dist_comm (da db : Latency_Dist_t) :
  Dist.type da = Dist.type db ->
  stats_merge (hist_merge da db) db = stats_merge (hist_merge db da) da.
Proof.
  intros Ht. apply dist_ext.
  - rewrite !stats_merge_min. cbn. lia.
  - rewrite !stats_merge_max. cbn. lia.
  - rewrite !stats_merge_total. cbn. f_equal. lia.
  - rewrite !stats_merge_count. cbn. f_equal. lia.
  - rewrite !stats_merge_buckets. cbn. apply zip_with_add_comm.
  - rewrite !stats_merge_type. cbn. done.
Qed.

Lemma merge_dist_assoc (x y z : Latency_Dist_t) :
  stats_merge (hist_merge (stats_merge (hist_merge x y) y) z) z
  = stats_merge (hist_merge x (stats_merge (hist_merge y z) z))
      (stats_merge (hist_merge y z) z).
Proof.
  apply dist_ext.
  - repeat rewrite ?stats_merge_min, ?hist_merge_min. lia.
  - repeat rewrite ?stats_merge_max, ?hist_merge_max. lia.
  - repeat rewrite ?stats_merge_total, ?hist_merge_total. apply u64_add_assoc.
  - repeat rewrite ?stats_merge_count, ?hist_merge_count. apply u64_add_assoc.
  - repeat rewrite ?stats_merge_buckets, ?hist_merge_buckets.
    apply zip_with_add_assoc.
  - repeat rewrite ?stats_merge_type, ?hist_merge_type. done.
Qed.

Lemma merge_view_comm (a b : dmtr_latency) (t : nat) :
  wf a -> wf b -> merge_view a b t = merge_view b a t.
Proof.
  intros Ha Hb. unfold merge_view.
  destruct (dist_of a t) as [da|] eqn:Hda, (dist_of b t) as [db|] eqn:Hdb; try done.
  - destruct (dist_of_Some a t da Ha Hda) as (_ & _ & _ & _ & Hta & _).
    destruct (dist_of_Some b t db Hb Hdb) as (_ & _ & _ & _ & Htb & _).
    rewrite (base_live a t da Hda), (base_live b t db Hdb).
    f_equal. apply merge_dist_comm. congruence.
  - destruct (dist_of_Some a t da Ha Hda) as (_ & _ & _ & _ & Hta & Hwa).
    unfold base. rewrite Hdb. cbn. f_equal. symmetry. by apply merge_fresh_dist.
  - destruct (dist_of_Some b t db Hb Hdb) as (_ & _ & _ & _ & Htb & Hwb).
    unfold base. rewrite Hda. cbn. f_equal. by apply merge_fresh_dist.
Qed.

(** X7.  Merging is commutative on the distributions: [a] merged with [b]
    and [b] merged with [a] hold the same distribution under every tag,
    while each result keeps the raw samples of its own destination. *)
Theorem merge_commutes (a b ab ba : dmtr_latency) :
  reachable a -> reachable b ->
  Latency_Sum a b = Done ab -> Latency_Sum b a = Done ba ->
  (forall t, dist_of ab t = dist_of ba t)
  /\ latencies ab = latencies a /\ latencies ba = latencies b.
Proof.
  intros Ha Hb Hab Hba.
  pose proof (reachable_wf _ a Ha) as Hwa. pose proof (reachable_wf _ b Hb) as Hwb.
  destruct (Latency_Sum_spec a b ab Hwa Hwb Hab) as (_ & _ & Hl1 & Hv1 & _).
  destruct (Latency_Sum_spec b a ba Hwb Hwa Hba) as (_ & _ & Hl2 & Hv2 & _).
  split_and!; try done.
  intros t. rewrite Hv1, Hv2. by apply merge_view_comm.
Qed.

Lemma merge_commutes_state :
  exists a b ab ba,
    recorder_a = Done a /\ recorder_b = Done b
    /\ Latency_Sum a b = Done ab /\ Latency_Sum b a = Done ba.
Proof.
  eexists _, _, _, _.
  split; [vm_compute; reflexivity|]. split; [vm_compute; reflexivity|].
  split; [vm_compute; reflexivity|]. vm_compute; reflexivity.
Qed.

Lemma merge_commutes_witness :
  exists a b ab ba,
    recorder_a = Done a /\ recorder_b = Done b
    /\ Latency_Sum a b = Done ab /\ Latency_Sum b a = Done ba
    /\ dist_of ab TAG_DEFAULT = dist_of ba TAG_DEFAULT.
Proof.
  destruct merge_commutes_state as (a & b & ab & ba & Ha & Hb & Hab & Hba).
  exists a, b, ab, ba. split_and!; try assumption.
  destruct (merge_commutes a b ab ba (recorder_a_reachable a Ha)
              (recorder_b_reachable b Hb) Hab Hba) as [H _].
  apply H.
Defined.

(** X8.  Merging is associative on the distributions: merging [b] then [c]
    into [a] gives, under every tag, the distribution that merging into [a]
    the merge of [c] into [b] gives. *)
Theorem merge_assoc (a b c ab ab_c bc a_bc : dmtr_latency) :
  reachable a -> reachable b -> reachable c ->
  Latency_Sum a b = Done ab -> Latency_Sum ab c = Done ab_c ->
  Latency_Sum b c = Done bc -> Latency_Sum a bc = Done a_bc ->
  forall t, dist_of ab_c t = dist_of a_bc t.
Proof.
  intros Ha Hb Hc Hab Habc Hbc Ha_bc t.
  pose proof (reachable_wf _ a Ha) as Hwa. pose proof (reachable_wf _ b Hb) as Hwb.
  pose proof (reachable_wf _ c Hc) as Hwc.
  destruct (Latency_Sum_spec a b ab Hwa Hwb Hab) as (Hwab & _ & _ & Hv1 & _).
  destruct (Latency_Sum_spec ab c ab_c Hwab Hwc Habc) as (_ & _ & _ & Hv2 & _).
  destruct (Latency_Sum_spec b c bc Hwb Hwc Hbc) as (Hwbc & _ & _ & Hv3 & _).
  destruct (Latency_Sum_spec a bc a_bc Hwa Hwbc Ha_bc) as (_ & _ & _ & Hv4 & _).
  assert (Hbase : base ab t = match dist_of b t with
                              | Some db => stats_merge (hist_merge (base a t) db) db
                              | None => base a t
                              end).
  { unfold base at 1. rewrite Hv1. unfold merge_view.
    by destruct (dist_of b t). }
  assert (Hbc_t : dist_of bc t = match dist_of c t with
                                 | Some dc => Some (stats_merge (hist_merge (base b t) dc) dc)
                                 | None => dist_of b t
                                 end) by apply Hv3.
  rewrite Hv2, Hv4. unfold merge_view. rewrite Hbc_t, Hbase, Hv1. unfold merge_view.
  destruct (dist_of c t) as [dc|] eqn:Hdc, (dist_of b t) as [db|] eqn:Hdb; try done.
  - rewrite (base_live b t db Hdb). f_equal. apply merge_dist_assoc.
  - destruct (dist_of_Some c t dc Hwc Hdc) as (_ & _ & _ & _ & Htc & Hwdc).
    assert (base b t = Dist.set_type fresh_dist t) as -> by (unfold base; by rewrite Hdb).
    by rewrite (merge_fresh_dist t dc Hwdc Htc).
Qed.

Lemma merge_assoc_state :
  exists a b c ab ab_c bc a_bc,
    recorder_a = Done a /\ recorder_b = Done b /\ recorder_gap = Done c
    /\ Latency_Sum a b = Done ab /\ Latency_Sum ab c = Done ab_c
    /\ Latency_Sum b c = Done bc /\ Latency_Sum a bc = Done a_bc.
Proof.
  eexists _, _, _, _, _, _, _.
  split; [vm_compute; reflexivity|]. split; [vm_compute; reflexivity|].
  split; [vm_compute; reflexivity|]. split; [vm_compute; reflexivity|].
  split; [vm_compute; reflexivity|]. split; [vm_compute; reflexivity|].
  vm_compute; reflexivity.
Qed.

Lemma record_all_api (samples : list Z) :
  forall l0 l, api_reachable l0 -> Forall (fun v => 0 <= v < 2 ^ 64) samples ->
  record_all l0 samples = Done l -> api_reachable l.
Proof.
  induction samples as [|v vs IH]; intros l0 l Hl0 Hr H.
  - cbn in H. by injection H as <-.
  - apply Forall_cons_1 in Hr as [Hv Hr].
    unfold record_all in H. cbn [for_each] in H.
    apply bind_Done in H as (l1 & H1 & H).
    apply bind_Done in H1 as ([l1' st] & Hrec & H1). injection H1 as ->.
    apply (IH l1); [|exact Hr|exact H].
    by apply (api_record l0 l1 v st).
Qed.

Lemma recorder_gap_reachable (l : dmtr_latency) : recorder_gap = Done l -> reachable l.
Proof.
  intros H. apply api_reachable_reachable. revert H. unfold recorder_gap.
  apply record_all_api; [apply api_new|].
  repeat (apply Forall_cons_2; [lia|]). apply Forall_nil_2.
Qed.

Lemma merge_assoc_witness :
  exists a b c ab ab_c bc a_bc,
    recorder_a = Done a /\ recorder_b = Done b /\ recorder_gap = Done c
    /\ Latency_Sum a b = Done ab /\ Latency_Sum ab c = Done ab_c
    /\ Latency_Sum b c = Done bc /\ Latency_Sum a bc = Done a_bc
    /\ dist_of ab_c TAG_DEFAULT = dist_of a_bc TAG_DEFAULT.
Proof.
  destruct merge_assoc_state
    as (a & b & c & ab & ab_c & bc & a_bc & Ha & Hb & Hc & Hab & Habc & Hbc & Ha_bc).
  exists a, b, c, ab, ab_c, bc, a_bc. split_and!; try assumption.
  apply (merge_assoc a b c ab ab_c bc a_bc (recorder_a_reachable a Ha)
           (recorder_b_reachable b Hb) (recorder_gap_reachable c Hc) Hab Habc Hbc Ha_bc).
Defined.

Lemma for_each_fixed {S A : Type} (body : S -> A -> outcome S) (s : S) (xs : list A) :
  (forall x, x ∈ xs -> body s x = Done s) -> for_each body s xs = Done s.
Proof.
  induction xs as [|x xs IH]; intros Hbody; [done|].
  cbn [for_each]. rewrite (Hbody x) by left. rewrite Done_bind.
  apply IH. intros y Hy. apply Hbody. by right.
Qed.

(** X9.  Merging a newly created recorder (or one that was only ever given
    zeros to record, which is still as created) into a reachable recorder
    changes nothing: the destination comes back as it was. *)
Theorem merge_empty_summand (dest : dmtr_latency) (n : string) :
  reachable dest -> Latency_Sum dest (dmtr_new_latency n) = Done dest.
Proof.
  intros Hd. pose proof (reachable_wf _ dest Hd) as Hwf.
  unfold Latency_Sum. cbn [distPoolNext dmtr_new_latency seq for_each].
  rewrite Done_bind. apply for_each_fixed. intros i Hi. apply elem_of_seq in Hi.
  unfold Latency_Sum_stats.
  destruct (lookup_lt_is_Some_2 (dists dest) i) as [dd Hdd];
    [rewrite (wf_dists_len dest Hwf); lia|].
  rewrite Hdd, deref_Some, Done_bind.
  cbn [dists dmtr_new_latency]. rewrite lookup_replicate_2 by lia.
  by rewrite deref_Some, Done_bind.
Qed.

Lemma merge_empty_summand_witness :
  exists dest, recorder_a = Done dest /\ Latency_Sum dest (dmtr_new_latency "e") = Done dest.
Proof.
  destruct recorder_a_tags as (dest & Ha & _). exists dest. split; [exact Ha|].
  apply (merge_empty_summand dest "e" (recorder_a_reachable dest Ha)).
Defined.

Lemma live_tags_ext (l1 l2 : dmtr_latency) :
  (forall t, dist_of l1 t = dist_of l2 t) -> live_tags l1 = live_tags l2.
Proof.
  intros H. unfold live_tags. apply list_filter_iff. intros t. by rewrite H.
Qed.

(** X10.  Merging a recorder into a new one copies its distributions and
    none of its raw samples: under every tag the new recorder holds the
    distribution the summand holds, it uses as many pool slots, and its
    buffer is empty. *)
Theorem merge_into_fresh (n : string) (summand dest' : dmtr_latency) :
  reachable summand -> Latency_Sum (dmtr_new_latency n) summand = Done dest' ->
  (forall t, dist_of dest' t = dist_of summand t)
  /\ live_tags dest' = live_tags summand
  /\ distPoolNext dest' = distPoolNext summand
  /\ name dest' = n /\ latencies dest' = [].
Proof.
  intros Hs Hsum. pose proof (reachable_wf _ summand Hs) as Hws.
  destruct (Latency_Sum_spec _ summand dest' (wf_new n) Hws Hsum)
    as (Hwf' & Hname & Hlat & Hv & _).
  assert (Hview : forall t, dist_of dest' t = dist_of summand t).
  { intros t. rewrite Hv. unfold merge_view, base. rewrite dist_of_new. cbn [default].
    destruct (dist_of summand t) as [ds|] eqn:Hds; [|done].
    destruct (dist_of_Some summand t ds Hws Hds) as (_ & _ & _ & _ & Ht & Hdwf).
    by rewrite (merge_fresh_dist t ds Hdwf Ht). }
  split_and!; try done.
  - by apply live_tags_ext.
  - rewrite <- (live_tags_length dest' Hwf'), <- (live_tags_length summand Hws).
    f_equal. by apply live_tags_ext.
Qed.

Lemma merge_into_fresh_state :
  exists summand dest',
    recorder_a = Done summand /\ Latency_Sum (dmtr_new_latency "n") summand = Done dest'.
Proof. eexists _, _. split; [vm_compute; reflexivity|]. vm_compute; reflexivity. Qed.

Lemma merge_into_fresh_witness :
  exists summand dest',
    recorder_a = Done summand /\ Latency_Sum (dmtr_new_latency "n") summand = Done dest'
    /\ dist_of dest' TAG_DEFAULT = dist_of summand TAG_DEFAULT
    /\ latencies dest' = [].
Proof.
  destruct merge_into_fresh_state as (summand & dest' & Ha & Hsum).
  exists summand, dest'. split; [exact Ha|]. split; [exact Hsum|].
  destruct (merge_into_fresh "n" summand dest' (recorder_a_reachable summand Ha) Hsum)
    as (Hv & _ & _ & _ & Hlat).
  split; [apply Hv|exact Hlat].
Defined.

(** X11.  A merge returns whenever the two recorders together use at most
    five pool slots and no count of the summand has reached [2^32]: it
    neither aborts on a full pool nor reads a missing distribution. *)
Theorem merge_returns (dest summand : dmtr_latency) :
  reachable dest -> reachable_in count_small summand ->
  (distPoolNext dest + distPoolNext summand <= LATENCY_DIST_POOL_SIZE)%nat ->
  exists dest', Latency_Sum dest summand = Done dest'
    /\ reachable dest' /\ latencies dest' = latencies dest
    /\ forall t, is_Some (dist_of dest' t)
         <-> is_Some (dist_of dest t) \/ is_Some (dist_of summand t).
Proof.
  intros Hd Hs Hroom.
  pose proof (reachable_wf _ dest Hd) as Hwd.
  pose proof (reachable_wf _ summand Hs) as Hws.
  destruct (Latency_Sum_ok dest summand Hwd Hws Hroom) as [dest' Hsum].
  { intros t ds Hds Hz. by destruct (live_not_all_zero summand t ds Hs Hds). }
  destruct (Latency_Sum_spec dest summand dest' Hwd Hws Hsum) as (_ & _ & Hlat & Hv & _).
  exists dest'. split_and!; try done.
  - apply (reach_merge _ dest summand dest'); try done.
    by apply (reachable_in_weaken count_small).
  - intros t. rewrite Hv. unfold merge_view.
    destruct (dist_of summand t) as [ds|]; split; intros H.
    + right. by eexists.
    + by eexists.
    + by left.
    + destruct H as [H|[? H]]; [done|done].
Qed.

Lemma small_recorder_state :
  exists dest summand,
    recorder_a = Done dest /\ distPoolNext dest = 2%nat
    /\ record_all (dmtr_new_latency "b") [5; 7] = Done summand
    /\ reachable_in count_small summand /\ distPoolNext summand = 1%nat.
Proof.
  destruct (record_all_small [5; 7] (dmtr_new_latency "b"))
    as (summand & Hrec & Hreach & _ & _).
  - apply reach_new.
  - intros t _. apply dist_of_new.
  - repeat (apply Forall_cons_2; [lia|]). apply Forall_nil_2.
  - vm_compute. reflexivity.
  - eexists _, summand. split; [vm_compute; reflexivity|].
    split; [vm_compute; reflexivity|]. split; [exact Hrec|]. split; [exact Hreach|].
    vm_compute in Hrec. injection Hrec as <-. reflexivity.
Qed.

Lemma merge_returns_witness :
  exists dest summand dest',
    recorder_a = Done dest
    /\ record_all (dmtr_new_latency "b") [5; 7] = Done summand
    /\ Latency_Sum dest summand = Done dest'.
Proof.
  destruct small_recorder_state as (dest & summand & Ha & Hna & Hb & Hsmall & Hnb).
  destruct (merge_returns dest summand (recorder_a_reachable dest Ha) Hsmall)
    as (dest' & Hsum & _).
  - rewrite Hna, Hnb. unfold LATENCY_DIST_POOL_SIZE. lia.
  - exists dest, summand, dest'. split; [exact Ha|]. split; [exact Hb|exact Hsum].
Defined.

(** ** What a sequence of recordings leaves in the recorder *)

Lemma add_stats_total (d : Latency_Dist_t) (v : Z) :
  Dist.total (add_stats d v) = u64 (Dist.total d + v).
Proof.
  unfold add_stats. destruct (v <? Dist.min d); cbn; by destruct (v >? Dist.max d).
Qed.

Lemma foldr_min_init (a v : Z) (xs : list Z) :
  foldr Z.min (Z.min a v) xs = Z.min v (foldr Z.min a xs).
Proof. induction xs as [|x xs IH]; cbn; [lia|]. rewrite IH. lia. Qed.

Lemma foldr_max_init (a v : Z) (xs : list Z) :
  foldr Z.max (Z.max a v) xs = Z.max v (foldr Z.max a xs).
Proof. induction xs as [|x xs IH]; cbn; [lia|]. rewrite IH. lia. Qed.

Lemma u64_succ_add (c n : Z) : u64 (u64 (c + 1) + n) = u64 (c + (1 + n)).
Proof. unfold u64. rewrite Zplus_mod_idemp_l. f_equal. lia. Qed.

Lemma u64_add_add (c v n : Z) : u64 (u64 (c + v) + n) = u64 (c + (v + n)).
Proof. unfold u64. rewrite Zplus_mod_idemp_l. f_equal. lia. Qed.

Lemma u32_succ_add (c n : Z) : u32 (u32 (c + 1) + n) = u32 (c + (1 + n)).
Proof. unfold u32. rewrite Zplus_mod_idemp_l. f_equal. lia. Qed.

Lemma take_take_app {A : Type} (n : nat) (xs ys : list A) :
  take n (take n xs ++ ys) = take n (xs ++ ys).
Proof.
  destruct (decide (length xs <= n)%nat) as [Hle|Hgt].
  - by rewrite (take_ge xs n) by lia.
  - rewrite !take_app_le by (rewrite ?length_take; lia).
    by rewrite take_take, Nat.min_id.
Qed.

Lemma push_sample_take (l : dmtr_latency) (v : Z) :
  Z.of_nat (length (latencies l)) <= MAX_ITERATIONS ->
  push_sample l v = take (Z.to_nat MAX_ITERATIONS) (latencies l ++ [v]).
Proof.
  intros Hlen. unfold push_sample.
  destruct (Z.ltb_spec (Z.of_nat (length (latencies l))) MAX_ITERATIONS) as [Hlt|Hge].
  - rewrite take_ge; [done|]. rewrite length_app. cbn. lia.
  - rewrite take_app_le by lia. rewrite take_ge; [done|lia].
Qed.

Lemma recorded_cons_zero (vs : list Z) : recorded (0 :: vs) = recorded vs.
Proof. unfold recorded. by rewrite filter_cons_False by (intros H; by apply H). Qed.

Lemma recorded_cons_nonzero (v : Z) (vs : list Z) :
  v <> 0 -> recorded (v :: vs) = v :: recorded vs.
Proof. intros Hv. unfold recorded. by rewrite filter_cons_True. Qed.

Lemma in_bucket_cons (b b' : nat) (v : Z) (vs : list Z) :
  bucket_index v = Done b ->
  in_bucket b' (v :: vs) = (if decide (b' = b) then 1 else 0) + in_bucket b' vs.
Proof.
  intros Hb. unfold in_bucket. case_decide as Heq.
  - subst b'. rewrite filter_cons_True by done. cbn [length]. lia.
  - rewrite filter_cons_False by (rewrite Hb; congruence). lia.
Qed.

(** The fields of the distribution of ['='] after recording [samples],
    from those before. *)
Lemma record_all_fields (samples : list Z) :
  forall l0 l,
  wf l0 -> only_default l0 -> Forall (fun v => 0 <= v < 2 ^ 64) samples ->
  Z.of_nat (length (latencies l0)) <= MAX_ITERATIONS ->
  record_all l0 samples = Done l ->
  wf l /\ only_default l /\ name l = name l0
  /\ latencies l = take (Z.to_nat MAX_ITERATIONS) (latencies l0 ++ recorded samples)
  /\ Dist.count (base l TAG_DEFAULT)
       = u64 (Dist.count (base l0 TAG_DEFAULT) + Z.of_nat (length (recorded samples)))
  /\ Dist.total (base l TAG_DEFAULT)
       = u64 (Dist.total (base l0 TAG_DEFAULT) + sum_list_Z (recorded samples))
  /\ Dist.min (base l TAG_DEFAULT)
       = foldr Z.min (Dist.min (base l0 TAG_DEFAULT)) (recorded samples)
  /\ Dist.max (base l TAG_DEFAULT)
       = foldr Z.max (Dist.max (base l0 TAG_DEFAULT)) (recorded samples)
  /\ (forall b x, Dist.buckets (base l0 TAG_DEFAULT) !! b = Some x ->
        Dist.buckets (base l TAG_DEFAULT) !! b
          = Some (u32 (x + in_bucket b (recorded samples))))
  /\ (recorded samples = [] -> l = l0)
  /\ (recorded samples <> [] -> is_Some (dist_of l TAG_DEFAULT)).
Proof.
  induction samples as [|v vs IH]; intros l0 l Hwf Hod Hr Hlen H.
  - cbn in H. injection H as <-.
    pose proof (base_wf l0 TAG_DEFAULT Hwf) as Hb.
    pose proof (dwf_count _ Hb). pose proof (dwf_total _ Hb).
    change (recorded []) with (@nil Z). cbn [length foldr]. rewrite app_nil_r.
    change (sum_list_Z []) with 0. rewrite !Z.add_0_r, !u64_small by done.
    split_and!; try done.
    + rewrite take_ge; [done|lia].
    + intros b x Hx. rewrite Hx. f_equal. unfold in_bucket. cbn. rewrite Z.add_0_r.
      symmetry. apply u32_small.
      apply (Forall_lookup_1 _ _ _ _ (dwf_range _ Hb) Hx).
  - apply Forall_cons_1 in Hr as [Hv Hr].
    destruct (decide (v = 0)) as [->|Hnz].
    + rewrite (record_all_cons l0 l0 0 0) in H by done.
      rewrite recorded_cons_zero. by apply IH.
    + destruct (dmtr_record_latency_ok l0 v Hwf Hod Hv) as [l1 Hrec].
      rewrite (record_all_cons l0 l1 v 0) in H by done.
      rewrite dmtr_record_latency_nonzero in Hrec by done.
      apply bind_Done in Hrec as (l1' & Hadd & Hrec). injection Hrec as ->.
      destruct (LatencyAdd_spec l0 l1 TAG_DEFAULT v Hwf Hv Hadd)
        as (Hwf1 & Hn1 & Hlat1 & (b & Hb & Hd1) & Ho1 & _).
      assert (Hod1 : only_default l1).
      { intros t Ht. rewrite Ho1 by done. by apply Hod. }
      assert (Hlen1 : Z.of_nat (length (latencies l1)) <= MAX_ITERATIONS).
      { rewrite Hlat1. by apply push_sample_length. }
      destruct (IH l1 l Hwf1 Hod1 Hr Hlen1 H)
        as (Hwf' & Hod' & Hn' & Hlat' & Hc' & Ht' & Hmin' & Hmax' & Hbk' & _ & _).
      rewrite (base_live l1 _ _ Hd1) in Hc', Ht', Hmin', Hmax', Hbk'.
      rewrite add_stats_count in Hc'. rewrite add_stats_total in Ht'.
      destruct (add_stats_min_max (bump (base l0 TAG_DEFAULT) b 1) v) as [Emin Emax].
      rewrite Emin in Hmin'. rewrite Emax in Hmax'.
      rewrite add_stats_buckets in Hbk'.
      rewrite recorded_cons_nonzero by done.
      cbn [length foldr]. rewrite sum_list_Z_cons, Nat2Z.inj_succ.
      split_and!; try done.
      * congruence.
      * rewrite Hlat', Hlat1, push_sample_take by done.
        rewrite take_take_app. by rewrite <- app_assoc.
      * rewrite Hc'. change (Dist.count (bump (base l0 TAG_DEFAULT) b 1))
          with (Dist.count (base l0 TAG_DEFAULT)).
        rewrite u64_succ_add. f_equal. lia.
      * rewrite Ht'. change (Dist.total (bump (base l0 TAG_DEFAULT) b 1))
          with (Dist.total (base l0 TAG_DEFAULT)).
        apply u64_add_add.
      * rewrite Hmin'. apply foldr_min_init.
      * rewrite Hmax'. apply foldr_max_init.
      * intros b' x Hx. rewrite (in_bucket_cons b b' v _ Hb).
        unfold bump in Hbk'. cbn [Dist.buckets Dist.set_buckets] in Hbk'.
        destruct (decide (b' = b)) as [->|Hne].
        -- rewrite (Hbk' b (u32 (x + 1))).
           ++ by rewrite u32_succ_add.
           ++ rewrite Hx. cbn [default]. apply list_lookup_insert_eq.
              by apply lookup_lt_Some in Hx.
        -- rewrite (Hbk' b' x).
           ++ by rewrite Z.add_0_l.
           ++ by rewrite list_lookup_insert_ne.
      * intros _. destruct (decide (recorded vs = [])) as [Hnil|Hcons].
        -- destruct (IH l1 l Hwf1 Hod1 Hr Hlen1 H)
             as (_ & _ & _ & _ & _ & _ & _ & _ & _ & Hsame & _).
           rewrite (Hsame Hnil), Hd1. by eexists.
        -- destruct (IH l1 l Hwf1 Hod1 Hr Hlen1 H)
             as (_ & _ & _ & _ & _ & _ & _ & _ & _ & _ & Hlive).
           by apply Hlive.
Qed.

Lemma record_all_ok (samples : list Z) :
  forall l0, wf l0 -> only_default l0 -> Forall (fun v => 0 <= v < 2 ^ 64) samples ->
  exists l, record_all l0 samples = Done l.
Proof.
  induction samples as [|v vs IH]; intros l0 Hwf Hod Hr; [by exists l0|].
  apply Forall_cons_1 in Hr as [Hv Hr].
  destruct (dmtr_record_latency_ok l0 v Hwf Hod Hv) as [l1 Hrec].
  rewrite (record_all_cons l0 l1 v 0) by done.
  destruct (decide (v = 0)) as [->|Hnz].
  - cbn in Hrec. injection Hrec as <-. by apply IH.
  - rewrite dmtr_record_latency_nonzero in Hrec by done.
    apply bind_Done in Hrec as (l1' & Hadd & Hrec). injection Hrec as ->.
    destruct (LatencyAdd_spec l0 l1 TAG_DEFAULT v Hwf Hv Hadd)
      as (Hwf1 & _ & _ & _ & Ho1 & _).
    apply IH; [done| |done].
    intros t Ht. rewrite Ho1 by done. by apply Hod.
Qed.

(** X12.  Recording a list of 64-bit samples into a new recorder always
    returns.  The zeros are skipped; the buffer holds the others in order,
    up to [MAX_ITERATIONS] of them; only the tag ['='] gets a distribution,
    whose count is their number, total their sum (modulo [2^64]), min and
    max their least and greatest, and bucket [b] the number of them that
    fall in bucket [b] (modulo [2^32]). *)
Theorem record_all_result (n : string) (samples : list Z) :
  Forall (fun v => 0 <= v < 2 ^ 64) samples ->
  exists l,
    record_all (dmtr_new_latency n) samples = Done l
    /\ name l = n
    /\ latencies l = take (Z.to_nat MAX_ITERATIONS) (recorded samples)
    /\ (forall t, t <> TAG_DEFAULT -> dist_of l t = None)
    /\ (recorded samples = [] -> l = dmtr_new_latency n)
    /\ (recorded samples <> [] ->
        exists d, dist_of l TAG_DEFAULT = Some d
          /\ Dist.count d = u64 (Z.of_nat (length (recorded samples)))
          /\ Dist.total d = u64 (sum_list_Z (recorded samples))
          /\ Dist.min d = foldr Z.min UINT64_MAX (recorded samples)
          /\ Dist.max d = foldr Z.max 0 (recorded samples)
          /\ forall b, (b < LATENCY_NUM_BUCKETS)%nat ->
               Dist.buckets d !! b = Some (u32 (in_bucket b (recorded samples)))).
Proof.
  intros Hr.
  assert (Hod0 : only_default (dmtr_new_latency n)) by (intros t _; apply dist_of_new).
  destruct (record_all_ok samples (dmtr_new_latency n) (wf_new n) Hod0 Hr) as [l Hl].
  destruct (record_all_fields samples (dmtr_new_latency n) l (wf_new n) Hod0 Hr)
    as (Hwf & Hod & Hn & Hlat & Hc & Ht & Hmin & Hmax & Hbk & Hnil & Hlive);
    [cbn; unfold MAX_ITERATIONS; lia|done|].
  exists l. split_and!; try done.
  intros Hne. destruct (Hlive Hne) as [d Hd]. exists d.
  rewrite (base_live l _ _ Hd) in Hc, Ht, Hmin, Hmax, Hbk.
  assert (Hb0 : base (dmtr_new_latency n) TAG_DEFAULT = Dist.set_type fresh_dist TAG_DEFAULT).
  { unfold base. by rewrite dist_of_new. }
  rewrite Hb0 in Hc, Ht, Hmin, Hmax, Hbk.
  split_and!; try done.
  intros b Hb. rewrite (Hbk b 0); [done|].
  change (Dist.buckets (Dist.set_type fresh_dist TAG_DEFAULT))
    with (replicate LATENCY_NUM_BUCKETS 0).
  by apply lookup_replicate_2.
Qed.

Lemma record_all_result_witness :
  exists l d,
    scenario_t = Done l /\ latencies l = [1; 2; 4; 1000; 1000000]
    /\ dist_of l TAG_DEFAULT = Some d
    /\ (Dist.count d, Dist.total d, Dist.min d, Dist.max d) = (5, 1001007, 1, 1000000)
    /\ Dist.buckets d !! 9%nat = Some 1.
Proof.
  destruct (record_all_result "t" [1; 2; 4; 1000; 1000000])
    as (l & Hl & _ & Hlat & _ & _ & Hd).
  { repeat (apply Forall_cons_2; [lia|]). apply Forall_nil_2. }
  destruct Hd as (d & Hd & Hc & Ht & Hmin & Hmax & Hbk); [discriminate|].
  exists l, d. split; [exact Hl|]. split; [exact Hlat|]. split; [exact Hd|].
  split.
  - rewrite Hc, Ht, Hmin, Hmax. vm_compute. reflexivity.
  - rewrite (Hbk 9%nat) by (unfold LATENCY_NUM_BUCKETS; lia). vm_compute. reflexivity.
Defined.

(** ** The summary line of a distribution *)

Lemma sum_list_Z_app (xs ys : list Z) :
  sum_list_Z (xs ++ ys) = sum_list_Z xs + sum_list_Z ys.
Proof.
  induction xs as [|x xs IH]; [done|].
  change ((x :: xs) ++ ys) with (x :: (xs ++ ys)). rewrite !sum_list_Z_cons, IH. lia.
Qed.

Lemma sum_list_Z_bound (xs : list Z) :
  Forall (fun b => 0 <= b < 2 ^ 32) xs ->
  0 <= sum_list_Z xs <= Z.of_nat (length xs) * 2 ^ 32.
Proof.
  induction 1 as [|x xs Hx _ IH]; [done|].
  rewrite sum_list_Z_cons. cbn [length]. lia.
Qed.

Lemma cumulative_S (d : Latency_Dist_t) (k : nat) (b : Z) :
  Dist.buckets d !! k = Some b -> cumulative d (S k) = cumulative d k + b.
Proof.
  intros Hb. unfold cumulative. rewrite (take_S_r _ _ _ Hb), sum_list_Z_app.
  by rewrite sum_list_Z_cons, Z.add_0_r.
Qed.

Lemma cumulative_bound (d : Latency_Dist_t) (k : nat) :
  dist_wf d -> 0 <= cumulative d k < 2 ^ 64.
Proof.
  intros Hd. unfold cumulative.
  pose proof (sum_list_Z_bound (take k (Dist.buckets d))
                (Forall_take _ _ _ (dwf_range d Hd))) as Hb.
  rewrite length_take, (dwf_len d Hd) in Hb. unfold LATENCY_NUM_BUCKETS in Hb. lia.
Qed.

Lemma cumulative_all (d : Latency_Dist_t) (k : nat) :
  dist_wf d -> (LATENCY_NUM_BUCKETS <= k)%nat ->
  cumulative d k = sum_list_Z (Dist.buckets d).
Proof.
  intros Hd Hk. unfold cumulative. rewrite take_ge; [done|]. by rewrite (dwf_len d Hd).
Qed.

(** The median scan stops at the first bucket where the running count
    reaches half the count. *)
Lemma median_loop_least (d : Latency_Dist_t) (n : nat) :
  forall (mb : nat) (accum : Z),
  dist_wf d -> (n + mb = LATENCY_NUM_BUCKETS)%nat -> accum = cumulative d mb ->
  exists r, median_loop n d mb accum = Done r
    /\ (mb <= r <= LATENCY_NUM_BUCKETS)%nat
    /\ (forall k, (mb <= k < r)%nat -> cumulative d (S k) < Dist.count d / 2)
    /\ ((r < LATENCY_NUM_BUCKETS)%nat -> Dist.count d / 2 <= cumulative d (S r)).
Proof.
  induction n as [|n IH]; intros mb accum Hd Hn ->.
  - exists mb. cbn in Hn. split_and!; try done; lia.
  - cbn [median_loop].
    destruct (lookup_lt_is_Some_2 (Dist.buckets d) mb) as [b Hb];
      [rewrite (dwf_len d Hd); lia|].
    rewrite Hb, deref_Some, Done_bind.
    rewrite <- (cumulative_S d mb b Hb).
    rewrite (u64_small _ (cumulative_bound d (S mb) Hd)).
    destruct (Z.leb_spec (Dist.count d / 2) (cumulative d (S mb))) as [Hle|Hgt].
    + exists mb. split_and!; try done; lia.
    + destruct (IH (S mb) (cumulative d (S mb)) Hd ltac:(lia) eq_refl)
        as (r & Hr & Hrange & Hbelow & Hat).
      exists r. split_and!; try done; try lia.
      intros k Hk. destruct (decide (k = mb)) as [->|]; [done|]. apply Hbelow. lia.
Qed.

Lemma scenario_small_state :
  exists l d,
    scenario_t = Done l /\ reachable_in count_small l
    /\ dist_of l TAG_DEFAULT = Some d
    /\ median_loop LATENCY_NUM_BUCKETS d 0 0 = Done 1%nat
    /\ Dist.total d = 1001007 /\ Dist.count d = 5
    /\ latencies l <> [].
Proof.
  destruct (record_all_small [1; 2; 4; 1000; 1000000] (dmtr_new_latency "t"))
    as (l & Hrec & Hreach & _ & _).
  - apply reach_new.
  - intros t _. apply dist_of_new.
  - repeat (apply Forall_cons_2; [lia|]). apply Forall_nil_2.
  - vm_compute. reflexivity.
  - exists l. eexists. split; [exact Hrec|]. split; [exact Hreach|].
    vm_compute in Hrec. injection Hrec as <-.
    split; [vm_compute; reflexivity|]. split; [vm_compute; reflexivity|].
    split; [vm_compute; reflexivity|]. split; [vm_compute; reflexivity|].
    discriminate.
Qed.

Lemma tag_char_not_nul (t : nat) :
  (0 < t < 256)%nat -> Ascii.eqb (tag_char t) Ascii.zero = false.
Proof.
  intros Ht. unfold tag_char.
  destruct (Ascii.eqb_spec (Ascii.ascii_of_nat t) Ascii.zero) as [E|]; [|done].
  apply (f_equal Ascii.nat_of_ascii) in E.
  rewrite Ascii.nat_ascii_embedding in E by lia.
  change (Ascii.nat_of_ascii Ascii.zero) with 0%nat in E. exfalso. lia.
Qed.

(** The tag suffix of a summary line, read as a C string: a tag of code 0
    ends the string after the slash. *)
Lemma c_str_extra (t : nat) :
  (t < 256)%nat ->
  c_str (String "/" (String (tag_char t) EmptyString))
  = (if decide (t = 0%nat) then "/" else String "/" (String (tag_char t) ""))%string.
Proof.
  intros Ht. cbn [c_str]. change (Ascii.eqb "/" Ascii.zero) with false. cbn match.
  case_decide as H0.
  - subst t. reflexivity.
  - by rewrite tag_char_not_nul by lia.
Qed.

(** The median bucket of a distribution in use. *)
Lemma median_bucket (l : dmtr_latency) (t : nat) (d : Latency_Dist_t) :
  reachable_in count_small l -> dist_of l t = Some d ->
  exists mb,
    median_loop LATENCY_NUM_BUCKETS d 0 0 = Done mb
    /\ (mb < 64)%nat
    /\ (forall k, (k < mb)%nat -> cumulative d (S k) < Dist.count d / 2)
    /\ Dist.count d / 2 <= cumulative d (S mb)
    /\ 0 < Dist.count d.
Proof.
  intros Hl Hd. pose proof (reachable_wf _ l Hl) as Hwf.
  destruct (dist_of_Some l t d Hwf Hd) as (_ & _ & _ & _ & _ & Hdwf).
  pose proof (live_count_pos l Hl t d Hd) as Hpos.
  destruct (every_dist_view _ l t d Hwf (reachable_small_exact l Hl) Hd) as [Hex _].
  unfold count_exact in Hex.
  destruct (median_loop_least d LATENCY_NUM_BUCKETS 0 0 Hdwf) as (mb & Hmb & Hrange & Hbelow & Hat);
    [done|done|].
  assert (mb < 64)%nat as Hlt.
  { destruct (decide (mb < 64)%nat) as [|Hge]; [done|]. exfalso.
    specialize (Hbelow 63%nat ltac:(lia)).
    assert (cumulative d 64 = Dist.count d) as Hall.
    { rewrite Hex, <- (cumulative_all d 65 Hdwf) by done.
      rewrite (cumulative_S d 64 0 (dwf_last d Hdwf)). lia. }
    rewrite Hall in Hbelow.
    pose proof (Z.div_le_upper_bound (Dist.count d) 2 (Dist.count d)). lia. }
  exists mb. split; [done|]. split; [done|]. split.
  { intros k Hk. apply Hbelow. lia. }
  split; [apply Hat; unfold LATENCY_NUM_BUCKETS; lia|done].
Qed.

(** The summary, once the median bucket is known. *)
Lemma Latency_Dump_summary_value (l : dmtr_latency) (t : nat) (d : Latency_Dist_t)
    (mb : nat) :
  median_loop LATENCY_NUM_BUCKETS d 0 0 = Done mb -> (mb < 64)%nat ->
  Dist.count d <> 0 -> (t < 256)%nat ->
  Latency_Dump_summary l t d
  = Done (mk_summary (name l)
            (if decide (t = TAG_DEFAULT) then ""
             else if decide (t = 0%nat) then "/"
             else String "/" (String (tag_char t) ""))%string
            (LatencyFmtNS (Dist.min d)) (LatencyFmtNS (Dist.total d / Dist.count d))
            (LatencyFmtNS (2 ^ Z.of_nat mb)) (LatencyFmtNS (Dist.max d)) (Dist.count d)
            (LatencyFmtNS (Dist.total d))).
Proof.
  intros Hmb Hlt Hc Ht. unfold Latency_Dump_summary. rewrite Hmb, Done_bind.
  destruct (Z.eqb_spec (Dist.count d) 0) as [H0|_]; [done|]. rewrite Done_bind.
  unfold shl1. destruct (decide (mb < 64)%nat) as [_|?]; [|lia]. rewrite Done_bind.
  rewrite Z.shiftl_1_l. do 2 f_equal.
  case_decide; [done|]. by apply c_str_extra.
Qed.

(** X13.  The summary of a distribution in use, in a recorder whose counts
    have stayed below [2^32]: the mean is the total divided by the (non-zero)
    count, and the median is [2^mb] for the first bucket [mb] at which the
    running count reaches half the count, rounded down; [mb] is below 64, so
    the shift is defined.  The tag follows the name after a slash, except
    for ['='], which is not shown, and for the tag of code 0, which ends the
    string. *)
Theorem summary_fields (l : dmtr_latency) (t : nat) (d : Latency_Dist_t) :
  reachable_in count_small l -> dist_of l t = Some d ->
  exists mb s,
    median_loop LATENCY_NUM_BUCKETS d 0 0 = Done mb
    /\ (mb < 64)%nat
    /\ (forall k, (k < mb)%nat -> cumulative d (S k) < Dist.count d / 2)
    /\ Dist.count d / 2 <= cumulative d (S mb)
    /\ 0 < Dist.count d
    /\ Latency_Dump_summary l t d = Done s
    /\ s_min s = LatencyFmtNS (Dist.min d)
    /\ s_mean s = LatencyFmtNS (Dist.total d / Dist.count d)
    /\ s_median s = LatencyFmtNS (2 ^ Z.of_nat mb)
    /\ s_max s = LatencyFmtNS (Dist.max d)
    /\ s_count s = Dist.count d
    /\ s_total s = LatencyFmtNS (Dist.total d)
    /\ s_name s = name l
    /\ s_extra s = (if decide (t = TAG_DEFAULT) then ""
                    else if decide (t = 0%nat) then "/"
                    else String "/" (String (tag_char t) ""))%string.
Proof.
  intros Hl Hd.
  destruct (median_bucket l t d Hl Hd) as (mb & Hmb & Hlt & Hbelow & Hat & Hpos).
  pose proof (dist_of_lt l t (reachable_wf _ l Hl) ltac:(by exists d)) as Ht.
  unfold LATENCY_MAX_DIST in Ht.
  eexists mb, _. split; [exact Hmb|]. split; [exact Hlt|]. split; [exact Hbelow|].
  split; [exact Hat|]. split; [exact Hpos|]. split.
  - apply (Latency_Dump_summary_value l t d mb Hmb Hlt); lia.
  - cbn [s_min s_mean s_median s_max s_count s_total s_name s_extra]. by split_and!.
Qed.

Lemma summary_fields_witness :
  exists l d s,
    scenario_t = Done l /\ dist_of l TAG_DEFAULT = Some d
    /\ Latency_Dump_summary l TAG_DEFAULT d = Done s
    /\ s_median s = LatencyFmtNS (2 ^ 1) /\ s_mean s = LatencyFmtNS (1001007 / 5).
Proof.
  destruct scenario_small_state as (l & d & Hl & Hsmall & Hd & Hmed & Ht & Hc & _).
  destruct (summary_fields l TAG_DEFAULT d Hsmall Hd)
    as (mb & s & Hmb & _ & _ & _ & _ & Hs & _ & Hmean & Hmedian & _).
  exists l, d, s. split; [exact Hl|]. split; [exact Hd|]. split; [exact Hs|].
  rewrite Hmed in Hmb. injection Hmb as <-. rewrite Ht, Hc in Hmean.
  split; [exact Hmedian|exact Hmean].
Defined.


Lemma Latency_Dump_summaries_unfold (l : dmtr_latency) :
  Latency_Dump_summaries l = for_each (summaries_step l) ([], []) (seq 0 LATENCY_MAX_DIST).
Proof. reflexivity. Qed.

(** The first loop visits the tags in use in increasing order and writes
    one summary for each. *)
Lemma summaries_loop (l : dmtr_latency) (ts : list nat) :
  wf l -> Forall (fun t => (t < LATENCY_MAX_DIST)%nat) ts ->
  forall acc r, for_each (summaries_step l) acc ts = Done r ->
  r.2 = acc.2 ++ filter (fun t => is_Some (dist_of l t)) ts
  /\ exists sums, r.1 = acc.1 ++ sums
       /\ Forall2 (fun t s => exists d, dist_of l t = Some d
                               /\ Latency_Dump_summary l t d = Done s)
            (filter (fun t => is_Some (dist_of l t)) ts) sums.
Proof.
  intros Hwf. induction 1 as [|t ts Ht Hts IH]; intros acc r H.
  - cbn in H. injection H as <-. split; [by rewrite app_nil_r|].
    exists []. split; [by rewrite app_nil_r|constructor].
  - cbn [for_each] in H. apply bind_Done in H as (acc1 & Hstep & H).
    destruct (IH acc1 r H) as (Hty & sums & Hsums & Hall).
    unfold summaries_step in Hstep.
    apply bind_Done in Hstep as (slot & Hslot%deref_Done & Hstep).
    destruct slot as [di|].
    + apply bind_Done in Hstep as (d & Hd%deref_Done & Hstep).
      apply bind_Done in Hstep as (s & Hs & Hstep). injection Hstep as <-.
      assert (dist_of l t = Some d) as Hdt by (by rewrite (dist_of_lookup l t di Hslot)).
      rewrite filter_cons_True by (by rewrite Hdt).
      cbn [fst snd] in Hty, Hsums. split.
      * by rewrite Hty, <- app_assoc.
      * exists (s :: sums). split; [by rewrite Hsums, <- app_assoc|].
        constructor; [by exists d|done].
    + injection Hstep as <-.
      assert (dist_of l t = None) as Hdt by (unfold dist_of; by rewrite Hslot).
      rewrite filter_cons_False by (rewrite Hdt; by intros [? ?]).
      split; [done|]. by exists sums.
Qed.

Lemma Latency_Dump_summaries_spec (l : dmtr_latency) (sums : list summary)
    (types : list nat) :
  wf l -> Latency_Dump_summaries l = Done (sums, types) ->
  types = live_tags l
  /\ Forall2 (fun t s => exists d, dist_of l t = Some d
                           /\ Latency_Dump_summary l t d = Done s)
       (live_tags l) sums.
Proof.
  intros Hwf H. rewrite Latency_Dump_summaries_unfold in H.
  destruct (summaries_loop l (seq 0 LATENCY_MAX_DIST) Hwf) with (acc := (@nil summary, @nil nat))
      (r := (sums, types)) as (Hty & sums' & Hsums & Hall); [|done|].
  { apply Forall_forall. intros t Ht%elem_of_seq. lia. }
  cbn [fst snd app] in Hty, Hsums. subst sums'. by split.
Qed.

Lemma StronglySorted_lt_seq (a n : nat) : StronglySorted lt (seq a n).
Proof.
  revert a. induction n as [|n IH]; intros a; [constructor|].
  cbn [seq]. constructor; [apply IH|].
  apply Forall_forall. intros k Hk%elem_of_seq. lia.
Qed.

Lemma StronglySorted_lt_filter (P : nat -> Prop) `{forall k, Decision (P k)} (ks : list nat) :
  StronglySorted lt ks -> StronglySorted lt (filter P ks).
Proof.
  induction 1 as [|k ks Hks IH Hk]; [constructor|].
  destruct (decide (P k)) as [Hp|Hp].
  - rewrite filter_cons_True by done. constructor; [done|].
    apply Forall_forall. intros j [_ Hj]%list_elem_of_filter.
    rewrite Forall_forall in Hk. by apply Hk.
  - by rewrite filter_cons_False.
Qed.

(** X14.  The first loop of a dump writes one summary per tag that has a
    distribution, in increasing order of the tag, as many as pool slots are
    in use; the chain of tags it leaves for the histogram is the list of
    those tags. *)
Theorem summaries_by_tag (l : dmtr_latency) (sums : list summary) (types : list nat) :
  reachable l -> Latency_Dump_summaries l = Done (sums, types) ->
  types = live_tags l
  /\ StronglySorted lt types
  /\ (forall t, t ∈ types <-> is_Some (dist_of l t))
  /\ length sums = distPoolNext l
  /\ Forall2 (fun t s => exists d, dist_of l t = Some d
                            /\ Latency_Dump_summary l t d = Done s) types sums.
Proof.
  intros Hl H. pose proof (reachable_wf _ l Hl) as Hwf.
  destruct (Latency_Dump_summaries_spec l sums types Hwf H) as [-> Hall].
  split; [done|]. split; [apply StronglySorted_lt_filter, StronglySorted_lt_seq|].
  split; [intros t; by apply live_tags_spec|]. split; [|done].
  rewrite <- (Forall2_length _ _ _ Hall). by apply live_tags_length.
Qed.

Lemma summaries_by_tag_state :
  exists l sums types,
    recorder_a = Done l /\ Latency_Dump_summaries l = Done (sums, types).
Proof. eexists _, _, _. split; [vm_compute; reflexivity|]. vm_compute; reflexivity. Qed.

Lemma small_next_state :
  exists l, recorder_a = Done l /\ distPoolNext l = 2%nat.
Proof. eexists. split; [vm_compute; reflexivity|]. vm_compute; reflexivity. Qed.

Lemma summaries_by_tag_witness :
  exists l sums types,
    recorder_a = Done l /\ Latency_Dump_summaries l = Done (sums, types)
    /\ types = [61; 65]%nat /\ length sums = 2%nat.
Proof.
  destruct summaries_by_tag_state as (l & sums & types & Ha & Hs).
  destruct recorder_a_tags as (l0 & Ha0 & Htags).
  destruct small_next_state as (l1 & Ha1 & Hnext).
  assert (l0 = l) as -> by congruence. assert (l1 = l) as -> by congruence.
  destruct (summaries_by_tag l sums types (recorder_a_reachable l Ha) Hs)
    as (Hty & _ & _ & Hlen & _).
  exists l, sums, types. split; [exact Ha|]. split; [exact Hs|].
  split; [by rewrite Hty|by rewrite Hlen].
Defined.

(** ** A dump that returns *)

Lemma Latency_Dump_bar_unfold (l : dmtr_latency) (largestCount : Z) (i : nat)
    (types : list nat) :
  Latency_Dump_bar l largestCount i types
  = for_each (bar_step l largestCount i) (0, 0, EmptyString) types.
Proof. reflexivity. Qed.

Lemma sum_list_Z_perm (xs ys : list Z) : xs ≡ₚ ys -> sum_list_Z xs = sum_list_Z ys.
Proof.
  induction 1 as [|x xs ys _ IH|x y xs|xs ys zs _ IH1 _ IH2];
    rewrite ?sum_list_Z_cons; lia.
Qed.

Lemma bucket_at_range (l : dmtr_latency) (i j : nat) :
  wf l -> 0 <= bucket_at l i j < 2 ^ 32.
Proof.
  intros Hwf. unfold bucket_at.
  destruct (distPool l !! j) as [d|] eqn:Hd; cbn; [|lia].
  destruct (Dist.buckets d !! i) as [b|] eqn:Hb; cbn; [|lia].
  apply (Forall_lookup_1 _ _ _ _ (dwf_range d (wf_dist l Hwf j d Hd)) Hb).
Qed.

Lemma bucket_of_tag_slot (l : dmtr_latency) (i t : nat) :
  wf l -> is_Some (dist_of l t) -> bucket_of_tag l i t = bucket_at l i (slot_of l t).
Proof.
  intros Hwf [d Hd]. destruct (slot_of_live l t d Hwf Hd) as (_ & Hp & _).
  unfold bucket_of_tag, bucket_at. by rewrite Hd, Hp.
Qed.

(** The buckets [i] of the tags in use are those of the pool slots in
    use. *)
Lemma live_bucket_sum (l : dmtr_latency) (i : nat) :
  wf l ->
  sum_list_Z (bucket_of_tag l i <$> live_tags l)
  = sum_list_Z (bucket_at l i <$> seq 0 (distPoolNext l)).
Proof.
  intros Hwf. rewrite <- (sum_list_Z_perm _ _ (fmap_Permutation (bucket_at l i) _ _
                                                 (live_slots_perm l Hwf))).
  rewrite <- list_fmap_compose. f_equal. apply list_fmap_ext.
  intros k t Ht. cbn. apply bucket_of_tag_slot; [done|].
  apply (live_tags_spec l t Hwf). by eapply list_elem_of_lookup_2.
Qed.

Lemma pool_total_loop (l : dmtr_latency) (i : nat) (js : list nat) :
  wf l -> (i < LATENCY_NUM_BUCKETS)%nat ->
  Forall (fun j => (j < LATENCY_DIST_POOL_SIZE)%nat) js ->
  forall total, 0 <= total -> total + Z.of_nat (length js) * 2 ^ 32 < 2 ^ 64 ->
  for_each (fun total dist =>
              d ← deref (distPool l !! dist);
              b ← deref (Dist.buckets d !! i);
              Done (u64 (total + b))) total js
  = Done (total + sum_list_Z (bucket_at l i <$> js)).
Proof.
  intros Hwf Hi. induction 1 as [|j js Hj _ IH]; intros total H0 Hfit.
  - cbn. by rewrite Z.add_0_r.
  - cbn [for_each]. cbn [length] in Hfit.
    destruct (lookup_lt_is_Some_2 (distPool l) j) as [d Hd];
      [by rewrite (wf_pool_len l Hwf)|].
    destruct (lookup_lt_is_Some_2 (Dist.buckets d) i) as [b Hb];
      [by rewrite (dwf_len d (wf_dist l Hwf j d Hd))|].
    pose proof (bucket_at_range l i j Hwf) as Hr.
    assert (bucket_at l i j = b) as Hbj by (unfold bucket_at; by rewrite Hd; cbn; rewrite Hb).
    rewrite Hd, deref_Some, Done_bind, Hb, deref_Some, Done_bind, Done_bind.
    rewrite u64_small by lia. rewrite IH by lia.
    rewrite fmap_cons, sum_list_Z_cons, Hbj. f_equal. lia.
Qed.

Lemma pool_bucket_total_spec (l : dmtr_latency) (i : nat) :
  wf l -> (i < LATENCY_NUM_BUCKETS)%nat ->
  pool_bucket_total l i = Done (sum_list_Z (bucket_at l i <$> seq 0 (distPoolNext l))).
Proof.
  intros Hwf Hi. unfold pool_bucket_total.
  rewrite (pool_total_loop l i _ Hwf Hi); [done| |done|].
  - apply Forall_forall. intros j Hj%elem_of_seq. pose proof (wf_next l Hwf). lia.
  - rewrite length_seq. pose proof (wf_next l Hwf) as Hn.
    unfold LATENCY_DIST_POOL_SIZE in Hn. lia.
Qed.

Lemma pool_sum_range (l : dmtr_latency) (i : nat) :
  wf l -> 0 <= sum_list_Z (bucket_at l i <$> seq 0 (distPoolNext l)) <= 5 * 2 ^ 32.
Proof.
  intros Hwf.
  pose proof (sum_list_Z_bound (bucket_at l i <$> seq 0 (distPoolNext l))) as Hb.
  rewrite length_fmap, length_seq in Hb.
  pose proof (wf_next l Hwf) as Hn. unfold LATENCY_DIST_POOL_SIZE in Hn.
  assert (Forall (fun b => 0 <= b < 2 ^ 32) (bucket_at l i <$> seq 0 (distPoolNext l))).
  { apply Forall_fmap, Forall_forall. intros j _. by apply bucket_at_range. }
  specialize (Hb H). lia.
Qed.

Lemma largest_loop (l : dmtr_latency) (ks : list nat) :
  wf l -> Forall (fun i => (i < LATENCY_NUM_BUCKETS)%nat) ks ->
  forall acc, 50 <= acc <= 5 * 2 ^ 32 ->
  exists L,
    for_each (fun largestCount i =>
                total ← pool_bucket_total l i;
                Done (if largestCount <? total then total else largestCount)) acc ks
    = Done L
    /\ acc <= L <= 5 * 2 ^ 32
    /\ Forall (fun i => sum_list_Z (bucket_at l i <$> seq 0 (distPoolNext l)) <= L) ks
    /\ (L = acc
        \/ Exists (fun i => sum_list_Z (bucket_at l i <$> seq 0 (distPoolNext l)) = L) ks).
Proof.
  intros Hwf. induction 1 as [|i ks Hi _ IH]; intros acc Hacc.
  - exists acc. split; [done|]. split; [lia|]. split; [constructor|by left].
  - cbn [for_each]. rewrite (pool_bucket_total_spec l i Hwf Hi), Done_bind, Done_bind.
    pose proof (pool_sum_range l i Hwf) as Hr.
    set (T := sum_list_Z (bucket_at l i <$> seq 0 (distPoolNext l))) in *.
    destruct (IH (if acc <? T then T else acc)) as (L & HL & Hle & Hall & Hmax).
    { destruct (Z.ltb_spec acc T); lia. }
    exists L. split; [exact HL|]. split; [destruct (Z.ltb_spec acc T); lia|]. split.
    + constructor; [|done]. destruct (Z.ltb_spec acc T); lia.
    + destruct Hmax as [->|Hex]; [|right; by apply Exists_cons_tl].
      destruct (Z.ltb_spec acc T); [right; by apply Exists_cons_hd|by left].
Qed.

Lemma Latency_Dump_largest_spec (l : dmtr_latency) :
  wf l ->
  exists L, Latency_Dump_largest l = Done L
    /\ 50 <= L <= 5 * 2 ^ 32
    /\ (forall i, (i < LATENCY_NUM_BUCKETS)%nat ->
         sum_list_Z (bucket_of_tag l i <$> live_tags l) <= L)
    /\ (L = LATENCY_HISTOGRAM_WIDTH
        \/ exists i, (i < LATENCY_NUM_BUCKETS)%nat
             /\ sum_list_Z (bucket_of_tag l i <$> live_tags l) = L).
Proof.
  intros Hwf. unfold Latency_Dump_largest.
  destruct (largest_loop l (seq 0 LATENCY_NUM_BUCKETS) Hwf) with (acc := LATENCY_HISTOGRAM_WIDTH)
    as (L & HL & Hle & Hall & Hmax).
  - apply Forall_forall. intros i Hi%elem_of_seq. lia.
  - unfold LATENCY_HISTOGRAM_WIDTH. lia.
  - exists L. split; [exact HL|]. split; [unfold LATENCY_HISTOGRAM_WIDTH in Hle; lia|].
    split.
    + intros i Hi. rewrite (live_bucket_sum l i Hwf).
      rewrite Forall_forall in Hall. apply Hall. apply elem_of_seq. lia.
    + destruct Hmax as [->|Hex]; [by left|right].
      apply Exists_exists in Hex as (i & Hi%elem_of_seq & HT).
      exists i. split; [lia|]. by rewrite (live_bucket_sum l i Hwf).
Qed.

Lemma to_int_small (z : Z) : 0 <= z < 2 ^ 31 -> to_int z = z.
Proof. intros Hz. unfold to_int. rewrite Z.mod_small; lia. Qed.

Lemma bucket_of_tag_range (l : dmtr_latency) (i t : nat) :
  wf l -> 0 <= bucket_of_tag l i t < 2 ^ 32.
Proof.
  intros Hwf. unfold bucket_of_tag.
  destruct (dist_of l t) as [d|] eqn:Hd; cbn; [|lia].
  destruct (Dist.buckets d !! i) as [b|] eqn:Hb; cbn; [|lia].
  destruct (dist_of_Some l t d Hwf Hd) as (_ & _ & _ & _ & _ & Hdwf).
  apply (Forall_lookup_1 _ _ _ _ (dwf_range d Hdwf) Hb).
Qed.

Lemma bucket_of_tag_sum_nonneg (l : dmtr_latency) (i : nat) (ts : list nat) :
  wf l -> 0 <= sum_list_Z (bucket_of_tag l i <$> ts).
Proof.
  intros Hwf. apply sum_list_Z_nonneg, Forall_fmap, Forall_forall.
  intros t _. by apply bucket_of_tag_range.
Qed.

Lemma string_length_append (s1 s2 : string) :
  String.length (s1 +:+ s2) = (String.length s1 + String.length s2)%nat.
Proof.
  induction s1 as [|c s1 IH]; [done|].
  change (String c s1 +:+ s2) with (String c (s1 +:+ s2)).
  cbn [String.length]. by rewrite IH.
Qed.

Lemma string_replicate_length (n : nat) (c : ascii) :
  String.length (string_replicate n c) = n.
Proof.
  unfold string_replicate. induction n as [|n IH]; [done|].
  change (replicate (S n) c) with (c :: replicate n c).
  cbn [string_of_list_ascii String.length]. by rewrite IH.
Qed.

(** The bar of a bucket: after each tag its length is the running total
    scaled to the width, which stays within the 50 columns of [bar] when
    the scale is at least the total of the bucket. *)
Lemma bar_loop_ok (l : dmtr_latency) (L : Z) (i : nat) (ts : list nat) :
  wf l -> (i < LATENCY_NUM_BUCKETS)%nat -> 50 <= L <= 5 * 2 ^ 32 ->
  Forall (fun t => is_Some (dist_of l t)) ts ->
  forall total bar, 0 <= total ->
    String.length bar = Z.to_nat (total * LATENCY_HISTOGRAM_WIDTH / L) ->
    total + sum_list_Z (bucket_of_tag l i <$> ts) <= L ->
    exists bar',
      for_each (bar_step l L i) (total * LATENCY_HISTOGRAM_WIDTH / L, total, bar) ts
        = Done ((total + sum_list_Z (bucket_of_tag l i <$> ts))
                  * LATENCY_HISTOGRAM_WIDTH / L,
                total + sum_list_Z (bucket_of_tag l i <$> ts), bar')
      /\ String.length bar'
         = Z.to_nat ((total + sum_list_Z (bucket_of_tag l i <$> ts))
                       * LATENCY_HISTOGRAM_WIDTH / L).
Proof.
  intros Hwf Hi HL. induction 1 as [|t ts [d Hd] _ IH]; intros total bar Htot Hlen Hsum.
  - exists bar. cbn. rewrite Z.add_0_r. done.
  - rewrite fmap_cons, sum_list_Z_cons in Hsum |- *.
    destruct (slot_of_live l t d Hwf Hd) as (Hslot & Hp & _).
    destruct (dist_of_Some l t d Hwf Hd) as (_ & _ & _ & _ & _ & Hdwf).
    destruct (lookup_lt_is_Some_2 (Dist.buckets d) i) as [b Hb];
      [by rewrite (dwf_len d Hdwf)|].
    assert (bucket_of_tag l i t = b) as Hbt
      by (unfold bucket_of_tag; rewrite Hd; cbn; by rewrite Hb).
    pose proof (bucket_of_tag_range l i t Hwf) as Hbr. rewrite Hbt in Hbr, Hsum |- *.
    pose proof (bucket_of_tag_sum_nonneg l i ts Hwf) as Hrest.
    set (p := total * LATENCY_HISTOGRAM_WIDTH / L) in *.
    set (q := (total + b) * LATENCY_HISTOGRAM_WIDTH / L).
    assert (0 <= p <= q /\ q <= 50) as Hq.
    { unfold p, q, LATENCY_HISTOGRAM_WIDTH. split_and!.
      - apply Z.div_pos; lia.
      - apply Z.div_le_mono; lia.
      - apply Z.div_le_upper_bound; lia. }
    assert (Hstep : exists bar1,
              bar_step l L i (p, total, bar) t = Done (q, total + b, bar1)
              /\ String.length bar1 = Z.to_nat q).
    { unfold bar_step. rewrite Hslot, deref_Some, Done_bind, Hp, deref_Some, Done_bind.
      rewrite Hb, deref_Some, Done_bind.
      rewrite (u64_small (total + b)) by lia.
      rewrite (u64_small ((total + b) * LATENCY_HISTOGRAM_WIDTH))
        by (unfold LATENCY_HISTOGRAM_WIDTH; lia).
      fold q. rewrite (to_int_small q) by lia.
      destruct (Z.ltb_spec p q).
      - destruct (Z.leb_spec q (LATENCY_HISTOGRAM_WIDTH + 1)) as [_|Hgt];
          [|unfold LATENCY_HISTOGRAM_WIDTH in Hgt; lia].
        eexists. split; [reflexivity|].
        rewrite string_length_append, string_replicate_length, Hlen. lia.
      - assert (p = q) as Hpq by lia. exists bar. rewrite <- Hpq. by split. }
    destruct Hstep as (bar1 & Hstep & Hlen1).
    destruct (IH (total + b) bar1 ltac:(lia) Hlen1 ltac:(lia)) as (bar' & Hloop & Hlen').
    fold q in Hloop.
    exists bar'. cbn [for_each]. rewrite Hstep, Done_bind, Hloop.
    rewrite <- !Z.add_assoc in *. by split.
Qed.

Lemma last_bucket_of_tag (l : dmtr_latency) (t : nat) :
  wf l -> bucket_of_tag l 64 t = 0.
Proof.
  intros Hwf. unfold bucket_of_tag. destruct (dist_of l t) as [d|] eqn:Hd; [|done].
  destruct (dist_of_Some l t d Hwf Hd) as (_ & _ & _ & _ & _ & Hdwf).
  cbn. by rewrite (dwf_last d Hdwf).
Qed.

Lemma last_bucket_sum (l : dmtr_latency) (ts : list nat) :
  wf l -> sum_list_Z (bucket_of_tag l 64 <$> ts) = 0.
Proof.
  intros Hwf. induction ts as [|t ts IH]; [done|].
  by rewrite fmap_cons, sum_list_Z_cons, IH, last_bucket_of_tag.
Qed.

Lemma Latency_Dump_bar_spec (l : dmtr_latency) (L : Z) (i : nat) :
  wf l -> (i < LATENCY_NUM_BUCKETS)%nat -> 50 <= L <= 5 * 2 ^ 32 ->
  sum_list_Z (bucket_of_tag l i <$> live_tags l) <= L ->
  exists bar,
    Latency_Dump_bar l L i (live_tags l)
      = Done (sum_list_Z (bucket_of_tag l i <$> live_tags l) * LATENCY_HISTOGRAM_WIDTH / L,
              sum_list_Z (bucket_of_tag l i <$> live_tags l), bar)
    /\ String.length bar
       = Z.to_nat (sum_list_Z (bucket_of_tag l i <$> live_tags l)
                     * LATENCY_HISTOGRAM_WIDTH / L)
    /\ 0 <= sum_list_Z (bucket_of_tag l i <$> live_tags l) * LATENCY_HISTOGRAM_WIDTH / L
         <= LATENCY_HISTOGRAM_WIDTH.
Proof.
  intros Hwf Hi HL Hsum.
  pose proof (bucket_of_tag_sum_nonneg l i (live_tags l) Hwf) as Hnn.
  destruct (bar_loop_ok l L i (live_tags l) Hwf Hi HL) with (total := 0)
    (bar := EmptyString) as (bar & Hbar & Hlen).
  { apply Forall_forall. intros t Ht. by apply (live_tags_spec l t Hwf). }
  { done. }
  { by rewrite Z.mul_0_l, Z.div_0_l by lia. }
  { rewrite Z.add_0_l. exact Hsum. }
  rewrite Z.mul_0_l, Z.div_0_l in Hbar by lia.
  rewrite !Z.add_0_l in Hbar, Hlen.
  exists bar. rewrite Latency_Dump_bar_unfold. split; [exact Hbar|]. split; [exact Hlen|].
  unfold LATENCY_HISTOGRAM_WIDTH. split.
  - apply Z.div_pos; lia.
  - apply Z.div_le_upper_bound; lia.
Qed.

Lemma hist_step_ok (l : dmtr_latency) (L : Z) (st : Z * list hist_row) (i : nat) :
  wf l -> (i < LATENCY_NUM_BUCKETS)%nat -> 50 <= L <= 5 * 2 ^ 32 ->
  sum_list_Z (bucket_of_tag l i <$> live_tags l) <= L ->
  exists st', Latency_Dump_hist_step l L (live_tags l) st i = Done st'.
Proof.
  intros Hwf Hi HL Hsum.
  destruct (Latency_Dump_bar_spec l L i Hwf Hi HL Hsum) as (bar & Hbar & Hlen & Hpos).
  unfold Latency_Dump_hist_step. rewrite Hbar, Done_bind.
  destruct (Z.ltb_spec 0 (sum_list_Z (bucket_of_tag l i <$> live_tags l))) as [Hgt|_];
    [|by eexists].
  destruct (Z.leb_spec (sum_list_Z (bucket_of_tag l i <$> live_tags l)
                          * LATENCY_HISTOGRAM_WIDTH / L) LATENCY_HISTOGRAM_WIDTH)
    as [_|Hbad]; [|lia].
  assert (i < 64)%nat as Hlt.
  { destruct (decide (i = 64%nat)) as [->|]; [|unfold LATENCY_NUM_BUCKETS in Hi; lia].
    rewrite last_bucket_sum in Hgt by done. lia. }
  unfold shl1. destruct (decide (i < 64)%nat) as [_|?]; [|lia].
  rewrite Done_bind. by eexists.
Qed.

Lemma Latency_Dump_hist_ok (l : dmtr_latency) (L : Z) :
  wf l -> 50 <= L <= 5 * 2 ^ 32 ->
  (forall i, (i < LATENCY_NUM_BUCKETS)%nat ->
     sum_list_Z (bucket_of_tag l i <$> live_tags l) <= L) ->
  exists rows, Latency_Dump_hist l L (live_tags l) = Done rows.
Proof.
  intros Hwf HL Hsum. unfold Latency_Dump_hist.
  destruct (for_each_ok (fun _ => True) (Latency_Dump_hist_step l L (live_tags l))
              (seq 0 LATENCY_NUM_BUCKETS)) with (s := (Z.of_nat LATENCY_NUM_BUCKETS, @nil hist_row))
    as (st & Hst & _); [|done|].
  - intros st i Hi%elem_of_seq _.
    destruct (hist_step_ok l L st i Hwf ltac:(lia) HL (Hsum i ltac:(lia))) as [st' Hst'].
    by exists st'.
  - rewrite Hst, Done_bind. by eexists.
Qed.

Lemma reachable_samples_live (l : dmtr_latency) :
  reachable l -> latencies l <> [] -> distPoolNext l <> 0%nat.
Proof.
  induction 1 as [n|l l' t v Hl IH Hv Hadd _|dest summand dest' Hd IHd Hs IHs Hsum _
                 |l Hl IH]; intros Hne.
  - done.
  - destruct (LatencyAdd_spec l l' t v (reachable_wf _ l Hl) Hv Hadd)
      as (Hwf' & _ & _ & (b & _ & Hdt) & _).
    destruct (dist_of_Some l' t _ Hwf' Hdt) as (i & _ & _ & Hi & _). lia.
  - pose proof (reachable_wf _ dest Hd) as Hwd.
    destruct (Latency_Sum_spec dest summand dest' Hwd (reachable_wf _ summand Hs) Hsum)
      as (Hwf' & _ & Hlat & Hv & _).
    rewrite Hlat in Hne. specialize (IHd Hne).
    rewrite <- (live_tags_length dest Hwd) in IHd.
    destruct (live_tags dest) as [|t ts] eqn:Hts; [done|].
    assert (is_Some (dist_of dest t)) as [d Hdt].
    { apply (live_tags_spec dest t Hwd). rewrite Hts. left. }
    assert (is_Some (dist_of dest' t)) as [d' Hd'].
    { rewrite Hv. unfold merge_view. destruct (dist_of summand t); [by eexists|by exists d]. }
    destruct (dist_of_Some dest' t d' Hwf' Hd') as (i & _ & _ & Hi & _). lia.
  - apply IH. intros Hnil. apply Hne. cbn. by rewrite Hnil.
Qed.

Lemma Forall2_length_eq {A B : Type} (P : A -> B -> Prop) (xs : list A) (ys : list B) :
  Forall2 P xs ys -> length xs = length ys.
Proof. induction 1; cbn; congruence. Qed.

(** X15.  Dumping a recorder that holds at least one raw sample, and whose
    counts have stayed below [2^32], returns 0: no division by zero, no
    oversized shift, no index outside the buffer or the bar.  It prints one
    summary line per tag in use, the tail line and the histogram, and
    leaves the samples sorted; the three tail values are samples of the
    buffer, in increasing order. *)
Theorem dump_returns (l : dmtr_latency) :
  reachable_in count_small l -> latencies l <> [] ->
  exists sums p99 p999 p9999 rows,
    Latency_Dump l
      = Done ((render_summary <$> sums) ++ [tail_line p99 p999 p9999]
                ++ (render_row <$> rows),
              set_latencies l (merge_sort Z.le (latencies l)), 0)
    /\ length sums = distPoolNext l
    /\ p99 <= p999 <= p9999
    /\ p99 ∈ latencies l /\ p999 ∈ latencies l /\ p9999 ∈ latencies l.
Proof.
  intros Hl Hne. pose proof (reachable_wf _ l Hl) as Hwf.
  pose proof (reachable_in_weaken _ l Hl) as Hr.
  pose proof (reachable_samples_live l Hr Hne) as Hnext.
  pose proof (reachable_latencies_capped l Hr) as Hcap.
  destruct (Latency_Dump_summaries_ok l Hwf) as [[sums types] Hsum].
  { intros t d Hd. split; [|by apply (live_count_pos l Hl t)].
    by destruct (every_dist_view _ l t d Hwf (reachable_small_exact l Hl) Hd). }
  destruct (Latency_Dump_summaries_spec l sums types Hwf Hsum) as [-> Hall].
  set (v := merge_sort Z.le (latencies l)).
  assert (Hperm : v ≡ₚ latencies l) by apply merge_sort_Permutation.
  destruct (Latency_Dump_tail_values v) as (p99 & p999 & p9999 & Htail & Hord & H1 & H2 & H3).
  { intros Hnil. rewrite Hnil in Hperm. symmetry in Hperm.
    by apply Permutation_nil_r in Hperm. }
  { rewrite Hperm. unfold MAX_ITERATIONS in Hcap. lia. }
  { apply (Sorted_merge_sort Z.le). }
  assert (Hwf1 : wf (set_latencies l v)) by (by apply (wf_frame l)).
  destruct (Latency_Dump_largest_spec (set_latencies l v) Hwf1) as (L & HL & HLr & HLsum & _).
  destruct (Latency_Dump_hist_ok (set_latencies l v) L Hwf1 HLr HLsum) as [rows Hrows].
  exists sums, p99, p999, p9999, rows. split_and!.
  - unfold Latency_Dump. rewrite decide_False by done. rewrite Hsum, Done_bind.
    fold v. change (latencies (set_latencies l v)) with v.
    rewrite Htail, Done_bind, HL, Done_bind.
    change (live_tags l) with (live_tags (set_latencies l v)).
    by rewrite Hrows, Done_bind.
  - rewrite <- (Forall2_length_eq _ _ _ Hall). by apply live_tags_length.
  - lia.
  - lia.
  - by rewrite <- Hperm.
  - by rewrite <- Hperm.
  - by rewrite <- Hperm.
Qed.

Lemma dump_returns_witness :
  exists l out l',
    scenario_t = Done l /\ Latency_Dump l = Done (out, l', 0).
Proof.
  destruct scenario_small_state as (l & d & Hl & Hsmall & _ & _ & _ & _ & Hne).
  destruct (dump_returns l Hsmall Hne) as (sums & p99 & p999 & p9999 & rows & Hdump & _).
  exists l. eexists _, _. split; [exact Hl|exact Hdump].
Defined.

(** ** Dumping twice *)

Lemma merge_sort_idem (v : list Z) :
  merge_sort Z.le (merge_sort Z.le v) = merge_sort Z.le v.
Proof.
  apply (Sorted_unique Z.le).
  - apply (Sorted_merge_sort Z.le).
  - apply (Sorted_merge_sort Z.le).
  - apply merge_sort_Permutation.
Qed.

Lemma Latency_Dump_inv (l l' : dmtr_latency) (out : list string) (r : Z) :
  Latency_Dump l = Done (out, l', r) ->
  r = 0
  /\ (distPoolNext l = 0%nat -> out = [] /\ l' = l)
  /\ (distPoolNext l <> 0%nat ->
      l' = set_latencies l (merge_sort Z.le (latencies l))
      /\ exists sums types tail largestCount rows,
           Latency_Dump_summaries l = Done (sums, types)
           /\ Latency_Dump_tail (merge_sort Z.le (latencies l)) = Done tail
           /\ Latency_Dump_largest l = Done largestCount
           /\ Latency_Dump_hist l largestCount types = Done rows
           /\ out = (render_summary <$> sums) ++ [tail] ++ (render_row <$> rows)).
Proof.
  unfold Latency_Dump. intros H.
  destruct (decide (distPoolNext l = 0%nat)) as [H0|Hn].
  - injection H as <- <- <-. by split_and!.
  - apply bind_Done in H as ([sums types] & Hsum & H).
    apply bind_Done in H as (tail & Htail & H).
    apply bind_Done in H as (L & HL & H).
    apply bind_Done in H as (rows & Hrows & H).
    injection H as <- <- <-. split_and!; try done.
    intros _. split; [done|]. by exists sums, types, tail, L, rows.
Qed.

(** X16.  A dump that returns has returned 0 and changed nothing but the
    order of the raw samples, which it leaves sorted; dumping again prints
    the same text and leaves the recorder as it is. *)
Theorem dump_twice (l l' : dmtr_latency) (out : list string) (r : Z) :
  Latency_Dump l = Done (out, l', r) ->
  r = 0
  /\ name l' = name l /\ dists l' = dists l /\ distPool l' = distPool l
  /\ distPoolNext l' = distPoolNext l
  /\ latencies l' ≡ₚ latencies l
  /\ (distPoolNext l <> 0%nat -> Sorted Z.le (latencies l'))
  /\ Latency_Dump l' = Done (out, l', 0).
Proof.
  intros H. destruct (Latency_Dump_inv l l' out r H) as (-> & H0 & Hn).
  destruct (decide (distPoolNext l = 0%nat)) as [Hz|Hnz].
  - destruct (H0 Hz) as [-> ->]. split_and!; try done.
  - destruct (Hn Hnz) as (-> & sums & types & tail & L & rows & Hs & Ht & HL & Hr & ->).
    split_and!; try done.
    + apply merge_sort_Permutation.
    + intros _. apply (Sorted_merge_sort Z.le).
    + unfold Latency_Dump.
      change (distPoolNext (set_latencies l (merge_sort Z.le (latencies l))))
        with (distPoolNext l).
      rewrite decide_False by done.
      change (Latency_Dump_summaries (set_latencies l (merge_sort Z.le (latencies l))))
        with (Latency_Dump_summaries l).
      rewrite Hs, Done_bind.
      change (latencies (set_latencies l (merge_sort Z.le (latencies l))))
        with (merge_sort Z.le (latencies l)).
      rewrite merge_sort_idem.
      change (set_latencies (set_latencies l (merge_sort Z.le (latencies l)))
                (merge_sort Z.le (latencies l)))
        with (set_latencies l (merge_sort Z.le (latencies l))).
      change (latencies (set_latencies l (merge_sort Z.le (latencies l))))
        with (merge_sort Z.le (latencies l)).
      rewrite Ht, Done_bind.
      change (Latency_Dump_largest (set_latencies l (merge_sort Z.le (latencies l))))
        with (Latency_Dump_largest l).
      rewrite HL, Done_bind.
      change (Latency_Dump_hist (set_latencies l (merge_sort Z.le (latencies l))) L types)
        with (Latency_Dump_hist l L types).
      by rewrite Hr, Done_bind.
Qed.

Lemma dump_twice_state :
  exists l out l', recorder_gap = Done l /\ Latency_Dump l = Done (out, l', 0).
Proof.
  eexists _, _, _. split; [vm_compute; reflexivity|]. vm_compute; reflexivity.
Qed.

Lemma dump_twice_witness :
  exists l out l',
    recorder_gap = Done l /\ Latency_Dump l = Done (out, l', 0)
    /\ Latency_Dump l' = Done (out, l', 0).
Proof.
  destruct dump_twice_state as (l & out & l' & Hl & Hdump).
  exists l, out, l'. split; [exact Hl|]. split; [exact Hdump|].
  apply (dump_twice l l' out 0 Hdump).
Defined.

(** X17.  The assertion of [dmtr_dump_latency] never fails: the call
    behaves as [Latency_Dump] does, returning 0 with the same text and
    recorder when that returns and stopping the same way when it does not. *)
Theorem dmtr_dump_latency_as_dump (l : dmtr_latency) :
  dmtr_dump_latency l = Latency_Dump l.
Proof.
  unfold dmtr_dump_latency.
  destruct (Latency_Dump l) as [[[out l'] r]|f] eqn:H; [|done].
  destruct (Latency_Dump_inv l l' out r H) as (-> & _). done.
Qed.

(** ** The histogram bars *)

(** X18.  The scale of the histogram is the largest bucket total, or 50 if
    none exceeds it.  The bar of bucket [i] then has
    [floor (total * 50 / scale)] characters, at most 50: the writes to
    [bar] stay within the array. *)
Theorem bar_scaled (l : dmtr_latency) (i : nat) :
  reachable l -> (i < LATENCY_NUM_BUCKETS)%nat ->
  exists L bar,
    Latency_Dump_largest l = Done L
    /\ LATENCY_HISTOGRAM_WIDTH <= L
    /\ (forall k, (k < LATENCY_NUM_BUCKETS)%nat -> bucket_total l k <= L)
    /\ (L = LATENCY_HISTOGRAM_WIDTH
        \/ exists k, (k < LATENCY_NUM_BUCKETS)%nat /\ bucket_total l k = L)
    /\ Latency_Dump_bar l L i (live_tags l)
         = Done (bucket_total l i * LATENCY_HISTOGRAM_WIDTH / L, bucket_total l i, bar)
    /\ String.length bar = Z.to_nat (bucket_total l i * LATENCY_HISTOGRAM_WIDTH / L)
    /\ (String.length bar <= 50)%nat.
Proof.
  intros Hl Hi. pose proof (reachable_wf _ l Hl) as Hwf. unfold bucket_total.
  destruct (Latency_Dump_largest_spec l Hwf) as (L & HL & HLr & HLsum & Hmax).
  destruct (Latency_Dump_bar_spec l L i Hwf Hi HLr (HLsum i Hi)) as (bar & Hbar & Hlen & Hpos).
  exists L, bar. split; [exact HL|]. split; [unfold LATENCY_HISTOGRAM_WIDTH; lia|].
  split; [exact HLsum|]. split; [exact Hmax|]. split; [exact Hbar|]. split; [exact Hlen|].
  rewrite Hlen. unfold LATENCY_HISTOGRAM_WIDTH in *. lia.
Qed.

Lemma bar_scaled_witness :
  exists l L bar,
    recorder_a = Done l /\ Latency_Dump_largest l = Done L
    /\ Latency_Dump_bar l L 2 (live_tags l)
         = Done (bucket_total l 2 * LATENCY_HISTOGRAM_WIDTH / L, bucket_total l 2, bar)
    /\ (String.length bar <= 50)%nat.
Proof.
  destruct recorder_a_tags as (l & Ha & _).
  destruct (bar_scaled l 2 (recorder_a_reachable l Ha))
    as (L & bar & HL & _ & _ & _ & Hbar & _ & Hlen).
  - unfold LATENCY_NUM_BUCKETS. lia.
  - exists l, L, bar. split; [exact Ha|]. split; [exact HL|]. split; [exact Hbar|exact Hlen].
Defined.

(** ** One sample, and none *)

Lemma live_tags_default (l : dmtr_latency) :
  wf l -> only_default l -> is_Some (dist_of l TAG_DEFAULT) -> live_tags l = [TAG_DEFAULT].
Proof.
  intros Hwf Hod Hlive. apply Permutation_singleton_r, NoDup_Permutation.
  - apply NoDup_filter, NoDup_seq.
  - apply NoDup_singleton.
  - intros t. rewrite (live_tags_spec l t Hwf), list_elem_of_singleton. split.
    + intros [d Hd]. destruct (decide (t = TAG_DEFAULT)) as [|Hne]; [done|].
      rewrite (Hod t Hne) in Hd. done.
    + by intros ->.
Qed.

(** X19.  With a single sample the median is reported as 1 ns whatever the
    sample: half the count rounds down to zero, so the scan stops at the
    first bucket.  The min, the mean, the max and the total are the
    sample. *)
Theorem single_sample_median (n : string) (v : Z) :
  0 < v < 2 ^ 64 ->
  exists l s,
    record_all (dmtr_new_latency n) [v] = Done l
    /\ Latency_Dump_summaries l = Done ([s], [TAG_DEFAULT])
    /\ s_count s = 1
    /\ s_min s = LatencyFmtNS v /\ s_mean s = LatencyFmtNS v
    /\ s_max s = LatencyFmtNS v /\ s_total s = LatencyFmtNS v
    /\ s_median s = "1 ns"%string.
Proof.
  intros Hv.
  assert (Hod0 : only_default (dmtr_new_latency n)) by (intros t _; apply dist_of_new).
  assert (Hr : Forall (fun v => 0 <= v < 2 ^ 64) [v])
    by (apply Forall_cons_2; [lia|apply Forall_nil_2]).
  destruct (record_all_small [v] (dmtr_new_latency n)) as (l & Hrec & Hreach & Hod & Hlive);
    [apply reach_new|done|done|unfold base; rewrite dist_of_new; cbn; lia|].
  pose proof (reachable_wf _ l Hreach) as Hwf.
  destruct Hlive as [d Hd]; [right; apply Exists_cons_hd; lia|].
  destruct (record_all_fields [v] (dmtr_new_latency n) l (wf_new n) Hod0 Hr)
    as (_ & _ & _ & _ & Hc & Ht & Hmin & Hmax & _);
    [cbn; unfold MAX_ITERATIONS; lia|done|].
  rewrite (base_live l _ _ Hd) in Hc, Ht, Hmin, Hmax.
  assert (Hb0 : base (dmtr_new_latency n) TAG_DEFAULT = Dist.set_type fresh_dist TAG_DEFAULT)
    by (unfold base; by rewrite dist_of_new).
  rewrite Hb0, recorded_cons_nonzero in Hc, Ht, Hmin, Hmax by lia.
  change (recorded []) with (@nil Z) in Hc, Ht, Hmin, Hmax.
  cbn [length foldr] in Hc, Hmin, Hmax.
  rewrite sum_list_Z_cons in Ht. change (sum_list_Z []) with 0 in Ht.
  assert (Dist.count d = 1) as Hc' by (rewrite Hc; reflexivity).
  assert (Dist.total d = v) as Ht'.
  { rewrite Ht. change (Dist.total (Dist.set_type fresh_dist TAG_DEFAULT)) with 0.
    rewrite u64_small; lia. }
  assert (Dist.min d = v) as Hmin'.
  { rewrite Hmin. change (Dist.min (Dist.set_type fresh_dist TAG_DEFAULT)) with UINT64_MAX.
    unfold UINT64_MAX. lia. }
  assert (Dist.max d = v) as Hmax'.
  { rewrite Hmax. change (Dist.max (Dist.set_type fresh_dist TAG_DEFAULT)) with 0. lia. }
  clear Hc Ht Hmin Hmax. rename Hc' into Hc. rename Ht' into Ht.
  destruct (median_bucket l TAG_DEFAULT d Hreach Hd) as (mb & Hmb & Hlt & Hbelow & _ & _).
  assert (mb = 0%nat) as ->.
  { destruct mb as [|mb]; [done|]. exfalso.
    specialize (Hbelow 0%nat ltac:(lia)). rewrite Hc in Hbelow.
    destruct (dist_of_Some l _ d Hwf Hd) as (_ & _ & _ & _ & _ & Hdwf).
    pose proof (cumulative_bound d 1 Hdwf). change (1 / 2) with 0 in Hbelow. lia. }
  pose proof (Latency_Dump_summary_value l TAG_DEFAULT d 0 Hmb Hlt) as Hs.
  rewrite Hc, Ht, Hmin', Hmax', Z.div_1_r in Hs.
  specialize (Hs ltac:(lia) ltac:(unfold TAG_DEFAULT; lia)).
  destruct (Latency_Dump_summaries_ok l Hwf) as [[sums types] Hsum].
  { intros t0 d0 Hd0. split; [|by apply (live_count_pos l Hreach t0)].
    by destruct (every_dist_view _ l t0 d0 Hwf (reachable_small_exact l Hreach) Hd0). }
  destruct (Latency_Dump_summaries_spec l sums types Hwf Hsum) as [-> Hall].
  rewrite (live_tags_default l Hwf Hod) in Hsum, Hall by (by exists d).
  apply Forall2_cons_inv_l in Hall as (s' & sums' & (d' & Hd' & Hs') & Hnil & ->).
  apply Forall2_nil_inv_l in Hnil as ->.
  assert (d' = d) as -> by congruence.
  rewrite Hs in Hs'. injection Hs' as <-.
  eexists l, _. split; [exact Hrec|]. split; [exact Hsum|].
  cbn [s_min s_mean s_median s_max s_count s_total]. by split_and!.
Qed.

Lemma single_sample_median_witness :
  exists l s,
    record_all (dmtr_new_latency "one") [1000000] = Done l
    /\ Latency_Dump_summaries l = Done ([s], [TAG_DEFAULT])
    /\ s_min s = "1000 us"%string /\ s_median s = "1 ns"%string.
Proof.
  destruct (single_sample_median "one" 1000000 ltac:(lia))
    as (l & s & Hl & Hs & _ & Hmin & _ & _ & _ & Hmed).
  exists l, s. split; [exact Hl|]. split; [exact Hs|]. split; [exact Hmin|exact Hmed].
Defined.

(** X20.  A recorder in which no tag has a distribution holds no raw
    sample either, and dumping it prints nothing, changes nothing and
    returns 0. *)
Theorem empty_recorder_dump (l : dmtr_latency) :
  reachable l -> (forall t, dist_of l t = None) ->
  distPoolNext l = 0%nat /\ latencies l = []
  /\ Latency_Dump l = Done ([], l, 0) /\ dmtr_dump_latency l = Done ([], l, 0).
Proof.
  intros Hl Hnone. pose proof (reachable_wf _ l Hl) as Hwf.
  assert (distPoolNext l = 0%nat) as Hz.
  { rewrite <- (live_tags_length l Hwf).
    destruct (live_tags l) as [|t ts] eqn:Hts; [done|]. exfalso.
    assert (is_Some (dist_of l t)) as [d Hd]
      by (apply (live_tags_spec l t Hwf); rewrite Hts; left).
    by rewrite Hnone in Hd. }
  assert (Latency_Dump l = Done ([], l, 0)) as Hdump
    by (unfold Latency_Dump; by rewrite decide_True).
  split_and!; try done.
  - destruct (latencies l) as [|x xs] eqn:Hlat; [done|]. exfalso.
    apply (reachable_samples_live l Hl); [by rewrite Hlat|done].
  - unfold dmtr_dump_latency. by rewrite Hdump.
Qed.

Lemma empty_recorder_dump_witness :
  Latency_Dump (dmtr_new_latency "e") = Done ([], dmtr_new_latency "e", 0).
Proof.
  destruct (empty_recorder_dump (dmtr_new_latency "e")) as (_ & _ & H & _).
  - apply reach_new.
  - intros t. apply dist_of_new.
  - exact H.
Defined.

(** ** The effect of one recording and of one merge, tag by tag *)

(** X21.  Recording [v] under tag [t] changes the distribution of [t] only:
    its count grows by one and its total by [v], its min and max take [v]
    in, and the bucket [floor (log2 (max v 1))] grows by one; every other
    tag keeps its distribution and the recorder its name. *)
Theorem record_effect (l l' : dmtr_latency) (t : nat) (v : Z) :
  reachable l -> 0 <= v < 2 ^ 64 -> LatencyAdd l t v = Done l' ->
  name l' = name l
  /\ (forall t', t' <> t -> dist_of l' t' = dist_of l t')
  /\ exists d', dist_of l' t = Some d'
       /\ Dist.type d' = t
       /\ Dist.count d' = u64 (Dist.count (base l t) + 1)
       /\ Dist.total d' = u64 (Dist.total (base l t) + v)
       /\ Dist.min d' = Z.min (Dist.min (base l t)) v
       /\ Dist.max d' = Z.max (Dist.max (base l t)) v
       /\ forall k x, Dist.buckets (base l t) !! k = Some x ->
            Dist.buckets d' !! k
            = Some (if decide (k = Z.to_nat (Z.log2 (Z.max v 1))) then u32 (x + 1) else x).
Proof.
  intros Hl Hv Hadd. pose proof (reachable_wf _ l Hl) as Hwf.
  destruct (LatencyAdd_spec l l' t v Hwf Hv Hadd)
    as (Hwf' & Hn & _ & (b & Hb & Hd) & Ho & _).
  rewrite (bucket_index_log2 v Hv) in Hb. injection Hb as <-.
  split; [done|]. split; [done|]. eexists. split; [exact Hd|].
  destruct (dist_of_Some l' t _ Hwf' Hd) as (_ & _ & _ & _ & Hty & _).
  destruct (add_stats_min_max
              (bump (base l t) (Z.to_nat (Z.log2 (Z.max v 1))) 1) v) as [Emin Emax].
  rewrite add_stats_count, add_stats_total, Emin, Emax, add_stats_buckets.
  split_and!; try done.
  intros k x Hx. unfold bump. cbn [Dist.buckets Dist.set_buckets].
  case_decide as Hk.
  - subst k. rewrite Hx. cbn [default]. apply list_lookup_insert_eq.
    by apply lookup_lt_Some in Hx.
  - by rewrite list_lookup_insert_ne.
Qed.

Lemma record_effect_witness :
  exists l l' d',
    recorder_a = Done l /\ LatencyAdd l TAG_DEFAULT 9 = Done l'
    /\ dist_of l' TAG_DEFAULT = Some d'
    /\ Dist.count d' = u64 (Dist.count (base l TAG_DEFAULT) + 1).
Proof.
  destruct recorder_a_state as (l & l' & Ha & _ & Hadd).
  destruct (record_effect l l' TAG_DEFAULT 9 (recorder_a_reachable l Ha) ltac:(lia) Hadd)
    as (_ & _ & d' & Hd' & _ & Hc & _).
  exists l, l', d'. split; [exact Ha|]. split; [exact Hadd|]. split; [exact Hd'|exact Hc].
Defined.

(** X22.  A merge changes the destination tag by tag: a tag the summand
    does not have keeps its distribution, and a tag only the summand has
    gets a copy of the summand's distribution; the name and the raw samples
    of the destination stay. *)
Theorem merge_by_tag (dest summand dest' : dmtr_latency) (t : nat) :
  reachable dest -> reachable summand -> Latency_Sum dest summand = Done dest' ->
  name dest' = name dest /\ latencies dest' = latencies dest
  /\ (dist_of summand t = None -> dist_of dest' t = dist_of dest t)
  /\ (dist_of dest t = None -> dist_of dest' t = dist_of summand t).
Proof.
  intros Hd Hs Hsum.
  pose proof (reachable_wf _ dest Hd) as Hwd. pose proof (reachable_wf _ summand Hs) as Hws.
  destruct (Latency_Sum_spec dest summand dest' Hwd Hws Hsum) as (_ & Hn & Hlat & Hv & _).
  split; [done|]. split; [done|]. rewrite Hv. unfold merge_view. split.
  - by intros ->.
  - intros Hnone. destruct (dist_of summand t) as [ds|] eqn:Hds; [|done].
    destruct (dist_of_Some summand t ds Hws Hds) as (_ & _ & _ & _ & Ht & Hdwf).
    unfold base. rewrite Hnone. cbn [default]. by rewrite (merge_fresh_dist t ds Hdwf Ht).
Qed.

Lemma merge_by_tag_state :
  exists a b ab,
    recorder_a = Done a /\ recorder_b = Done b /\ Latency_Sum a b = Done ab
    /\ dist_of b 65%nat = None /\ dist_of a 66%nat = None.
Proof.
  eexists _, _, _. split; [vm_compute; reflexivity|]. split; [vm_compute; reflexivity|].
  split; [vm_compute; reflexivity|]. split; [vm_compute; reflexivity|].
  vm_compute; reflexivity.
Qed.

Lemma merge_by_tag_witness :
  exists a b ab,
    recorder_a = Done a /\ recorder_b = Done b /\ Latency_Sum a b = Done ab
    /\ dist_of ab 65%nat = dist_of a 65%nat /\ dist_of ab 66%nat = dist_of b 66%nat.
Proof.
  destruct merge_by_tag_state as (a & b & ab & Ha & Hb & Hab & Hnb & Hna).
  exists a, b, ab. split; [exact Ha|]. split; [exact Hb|]. split; [exact Hab|]. split.
  - destruct (merge_by_tag a b ab 65%nat (recorder_a_reachable a Ha)
                (recorder_b_reachable b Hb) Hab) as (_ & _ & H & _).
    apply H, Hnb.
  - destruct (merge_by_tag a b ab 66%nat (recorder_a_reachable a Ha)
                (recorder_b_reachable b Hb) Hab) as (_ & _ & _ & H).
    apply H, Hna.
Defined.

(** ** The rows of the histogram *)

Lemma hist_step_result (l : dmtr_latency) (L : Z) (st : Z * list hist_row) (i : nat) :
  wf l -> (i < LATENCY_NUM_BUCKETS)%nat -> 50 <= L <= 5 * 2 ^ 32 ->
  bucket_total l i <= L ->
  exists bar,
    Latency_Dump_hist_step l L (live_tags l) st i
    = Done (if 0 <? bucket_total l i
            then (Z.of_nat i,
                  st.2 ++ gap_rows st.1 (Z.of_nat i)
                       ++ [RowBar (Z.of_nat i) (bucket_total l i) bar])
            else st).
Proof.
  intros Hwf Hi HL Hsum. unfold bucket_total in *.
  destruct (Latency_Dump_bar_spec l L i Hwf Hi HL Hsum) as (bar & Hbar & Hlen & Hpos).
  exists bar. unfold Latency_Dump_hist_step. rewrite Hbar, Done_bind.
  destruct (Z.ltb_spec 0 (sum_list_Z (bucket_of_tag l i <$> live_tags l))) as [Hgt|_];
    [|done].
  destruct (Z.leb_spec (sum_list_Z (bucket_of_tag l i <$> live_tags l)
                          * LATENCY_HISTOGRAM_WIDTH / L) LATENCY_HISTOGRAM_WIDTH)
    as [_|Hbad]; [|lia].
  assert (i < 64)%nat as Hlt.
  { destruct (decide (i = 64%nat)) as [->|]; [|unfold LATENCY_NUM_BUCKETS in Hi; lia].
    rewrite last_bucket_sum in Hgt by done. lia. }
  unfold shl1. destruct (decide (i < 64)%nat) as [_|?]; [|lia].
  rewrite Done_bind. destruct st as [lp rows]. unfold hist_step.
  destruct (Z.ltb_spec 0 (sum_list_Z (bucket_of_tag l i <$> live_tags l))); [done|lia].
Qed.

Lemma omap_zero_rows (n : nat) (a : Z) : omap bar_of (zero_rows n a) = [].
Proof. revert a. induction n as [|n IH]; intros a; [done|]. cbn. apply IH. Qed.

Lemma omap_gap_rows (lp i : Z) : omap bar_of (gap_rows lp i) = [].
Proof. unfold gap_rows. destruct (lp <? i - 3); [done|apply omap_zero_rows]. Qed.

Lemma gap_rows_first (i : nat) :
  (i < LATENCY_NUM_BUCKETS)%nat ->
  gap_rows (Z.of_nat LATENCY_NUM_BUCKETS) (Z.of_nat i) = [].
Proof.
  intros Hi. unfold gap_rows, LATENCY_NUM_BUCKETS in *.
  destruct (Z.ltb_spec (Z.of_nat 65) (Z.of_nat i - 3)); [lia|].
  by replace (Z.to_nat (Z.of_nat i - (Z.of_nat 65 + 1))) with 0%nat by lia.
Qed.

(** The loop prints a bar row for each bucket with a non-zero total, in
    increasing order, and starts with one. *)
Lemma hist_loop_bars (l : dmtr_latency) (L : Z) (ks : list nat) :
  wf l -> 50 <= L <= 5 * 2 ^ 32 ->
  Forall (fun i => (i < LATENCY_NUM_BUCKETS)%nat /\ bucket_total l i <= L) ks ->
  forall st,
    (st.2 = [] /\ st.1 = Z.of_nat LATENCY_NUM_BUCKETS)
    \/ (exists r rest, st.2 = r :: rest /\ is_Some (bar_of r)) ->
    exists st',
      for_each (Latency_Dump_hist_step l L (live_tags l)) st ks = Done st'
      /\ omap bar_of st'.2
         = omap bar_of st.2
           ++ ((fun i => (Z.of_nat i, bucket_total l i))
                 <$> filter (fun i => 0 < bucket_total l i) ks)
      /\ ((st'.2 = [] /\ st'.1 = Z.of_nat LATENCY_NUM_BUCKETS)
          \/ (exists r rest, st'.2 = r :: rest /\ is_Some (bar_of r))).
Proof.
  intros Hwf HL. induction 1 as [|i ks [Hi Hsum] _ IH]; intros st Hst.
  - exists st. cbn. rewrite app_nil_r. done.
  - destruct (hist_step_result l L st i Hwf Hi HL Hsum) as [bar Hstep].
    cbn [for_each]. rewrite Hstep, Done_bind.
    destruct (Z.ltb_spec 0 (bucket_total l i)) as [Hgt|Hle].
    + rewrite filter_cons_True by done.
      destruct (IH (Z.of_nat i,
                    st.2 ++ gap_rows st.1 (Z.of_nat i)
                         ++ [RowBar (Z.of_nat i) (bucket_total l i) bar]))
        as (st' & Hloop & Hbars & Hhead).
      { right. destruct Hst as [[Hnil Hlp]|(r & rest & Hrows & Hr)].
        - cbn [fst snd]. rewrite Hnil, Hlp, (gap_rows_first i Hi). cbn.
          eexists _, _. split; [done|]. by eexists.
        - cbn [fst snd]. rewrite Hrows. cbn. by eexists _, _. }
      exists st'. split; [exact Hloop|]. split; [|exact Hhead].
      rewrite Hbars. cbn [fst snd].
      rewrite !omap_app, omap_gap_rows. cbn. by rewrite <- app_assoc.
    + rewrite filter_cons_False by lia.
      destruct (IH st Hst) as (st' & Hloop & Hbars & Hhead). by exists st'.
Qed.

(** X23.  The histogram has a bar row for each bucket whose total over the
    tags in use is not zero, and for no other; the rows come in increasing
    bucket order, each with the total of its bucket, and the first row
    printed is a bar row. *)
Theorem hist_bars (l : dmtr_latency) :
  reachable l ->
  exists L rows,
    Latency_Dump_largest l = Done L
    /\ Latency_Dump_hist l L (live_tags l) = Done rows
    /\ omap bar_of rows
       = (fun i => (Z.of_nat i, bucket_total l i))
           <$> filter (fun i => 0 < bucket_total l i) (seq 0 LATENCY_NUM_BUCKETS)
    /\ (rows = [] \/ exists r rest, rows = r :: rest /\ is_Some (bar_of r)).
Proof.
  intros Hl. pose proof (reachable_wf _ l Hl) as Hwf.
  destruct (Latency_Dump_largest_spec l Hwf) as (L & HL & HLr & HLsum & _).
  destruct (hist_loop_bars l L (seq 0 LATENCY_NUM_BUCKETS) Hwf HLr)
    with (st := (Z.of_nat LATENCY_NUM_BUCKETS, @nil hist_row))
    as (st & Hloop & Hbars & Hhead).
  - apply Forall_forall. intros i Hi%elem_of_seq.
    split; [lia|]. apply HLsum. lia.
  - by left.
  - exists L, st.2. split; [exact HL|]. split.
    + unfold Latency_Dump_hist. by rewrite Hloop, Done_bind.
    + split; [exact Hbars|]. destruct Hhead as [[Hnil _]|Hcons]; [by left|by right].
Qed.

Lemma hist_bars_state :
  exists l,
    recorder_gap = Done l
    /\ (fun i => (Z.of_nat i, bucket_total l i))
         <$> filter (fun i => 0 < bucket_total l i) (seq 0 LATENCY_NUM_BUCKETS)
       = [(0, 1); (4, 1)].
Proof. eexists. split; [vm_compute; reflexivity|]. vm_compute; reflexivity. Qed.

Lemma hist_bars_witness :
  exists l L rows,
    recorder_gap = Done l /\ Latency_Dump_largest l = Done L
    /\ Latency_Dump_hist l L (live_tags l) = Done rows
    /\ omap bar_of rows = [(0, 1); (4, 1)].
Proof.
  destruct hist_bars_state as (l & Hl & Hbars).
  destruct (hist_bars l (recorder_gap_reachable l Hl)) as (L & rows & HL & Hrows & Hb & _).
  exists l, L, rows. split; [exact Hl|]. split; [exact HL|]. split; [exact Hrows|].
  rewrite Hb. exact Hbars.
Defined.

(** ** The public functions never exhaust the pool *)

Lemma live_tags_nil (l : dmtr_latency) :
  wf l -> (forall t, dist_of l t = None) -> live_tags l = [].
Proof.
  intros Hwf Hnone. destruct (live_tags l) as [|t ts] eqn:Hts; [done|]. exfalso.
  assert (is_Some (dist_of l t)) as [d Hd]
    by (apply (live_tags_spec l t Hwf); rewrite Hts; left).
  by rewrite Hnone in Hd.
Qed.

Lemma only_default_next (l : dmtr_latency) :
  wf l -> only_default l -> (distPoolNext l <= 1)%nat.
Proof.
  intros Hwf Hod. rewrite <- (live_tags_length l Hwf).
  destruct (dist_of l TAG_DEFAULT) as [d|] eqn:Hd.
  - rewrite (live_tags_default l Hwf Hod) by (by exists d). done.
  - rewrite (live_tags_nil l Hwf); [cbn; lia|].
    intros t. destruct (decide (t = TAG_DEFAULT)) as [->|Hne]; [done|by apply Hod].
Qed.

(** X24.  A recorder handled through the public functions only ever has
    the tag ['='] and uses at most one of its five pool slots, so [abort]
    is out of reach: a merge of two such recorders returns, or stops on the
    read of a missing distribution, and never on a full pool. *)
Theorem api_never_aborts (dest summand : dmtr_latency) :
  api_reachable dest -> api_reachable summand ->
  (distPoolNext dest <= 1)%nat
  /\ (forall t, t <> TAG_DEFAULT -> dist_of dest t = None)
  /\ ((exists dest', Latency_Sum dest summand = Done dest')
      \/ Latency_Sum dest summand = Fault Undefined).
Proof.
  intros Hd Hs.
  destruct (api_reachable_inv dest Hd) as [Hwd Hod].
  destruct (api_reachable_inv summand Hs) as [Hws Hos].
  pose proof (only_default_next dest Hwd Hod) as Hnd.
  pose proof (only_default_next summand Hws Hos) as Hns.
  split; [done|]. split; [done|].
  destruct (Latency_Sum_hist_loop_ok summand (distPoolNext summand) 0 dest
              ltac:(done) Hws Hwd) as [dest1 H1].
  { unfold LATENCY_DIST_POOL_SIZE. lia. }
  unfold Latency_Sum. rewrite H1, Done_bind.
  destruct (for_each (Latency_Sum_stats summand) dest1 (seq 0 LATENCY_MAX_DIST))
    as [dest'|f] eqn:H2; [left; by exists dest'|right].
  f_equal. apply (for_each_fault (fun f => f = Undefined) _ _
                    (Latency_Sum_stats_fault summand) dest1 f H2).
Qed.

Lemma api_pair_state :
  exists dest summand,
    record_all (dmtr_new_latency "a") [3; 0; 9] = Done dest
    /\ record_all (dmtr_new_latency "b") [5] = Done summand.
Proof. eexists _, _. split; [vm_compute; reflexivity|]. vm_compute; reflexivity. Qed.

Lemma api_never_aborts_witness :
  exists dest summand,
    record_all (dmtr_new_latency "a") [3; 0; 9] = Done dest
    /\ record_all (dmtr_new_latency "b") [5] = Done summand
    /\ (distPoolNext dest <= 1)%nat.
Proof.
  destruct api_pair_state as (dest & summand & Hd & Hs).
  exists dest, summand. split; [exact Hd|]. split; [exact Hs|].
  destruct (api_never_aborts dest summand) as (H & _).
  - revert Hd. apply record_all_api; [apply api_new|].
    repeat (apply Forall_cons_2; [lia|]). apply Forall_nil_2.
  - revert Hs. apply record_all_api; [apply api_new|].
    repeat (apply Forall_cons_2; [lia|]). apply Forall_nil_2.
  - exact H.
Defined.

(** ** The mean of a recorded sequence *)

Lemma foldr_min_le_sum (a : Z) (xs : list Z) :
  xs <> [] -> foldr Z.min a xs * Z.of_nat (length xs) <= sum_list_Z xs.
Proof.
  induction xs as [|x xs IH]; [done|]. intros _.
  cbn [foldr length]. rewrite sum_list_Z_cons, Nat2Z.inj_succ.
  destruct xs as [|y ys].
  - cbn. change (sum_list_Z []) with 0. lia.
  - specialize (IH ltac:(done)).
    set (m := foldr Z.min a (y :: ys)) in *. set (n := Z.of_nat (length (y :: ys))) in *.
    assert (0 <= n) by (unfold n; lia).
    destruct (Z.min_spec x m) as [[Hlt ->]|[Hge ->]]; nia.
Qed.

Lemma sum_le_foldr_max (a : Z) (xs : list Z) :
  xs <> [] -> sum_list_Z xs <= foldr Z.max a xs * Z.of_nat (length xs).
Proof.
  induction xs as [|x xs IH]; [done|]. intros _.
  cbn [foldr length]. rewrite sum_list_Z_cons, Nat2Z.inj_succ.
  destruct xs as [|y ys].
  - cbn. change (sum_list_Z []) with 0. lia.
  - specialize (IH ltac:(done)).
    set (m := foldr Z.max a (y :: ys)) in *. set (n := Z.of_nat (length (y :: ys))) in *.
    assert (0 <= n) by (unfold n; lia).
    destruct (Z.max_spec x m) as [[Hlt ->]|[Hge ->]]; nia.
Qed.

Lemma recorded_positive (samples : list Z) :
  Forall (fun v => 0 <= v < 2 ^ 64) samples ->
  Forall (fun v => 1 <= v < 2 ^ 64) (recorded samples).
Proof.
  intros Hr. apply Forall_forall. intros v [Hnz Hv]%list_elem_of_filter.
  rewrite Forall_forall in Hr. specialize (Hr v Hv). lia.
Qed.

Lemma sum_list_Z_ge_length (xs : list Z) :
  Forall (fun v => 1 <= v < 2 ^ 64) xs -> Z.of_nat (length xs) <= sum_list_Z xs.
Proof.
  induction 1 as [|x xs Hx _ IH]; [done|].
  rewrite sum_list_Z_cons. cbn [length]. lia.
Qed.

(** X25.  As long as the samples recorded into a new recorder add up to
    less than [2^64], so that the total has not wrapped, the total is their
    sum, the count their number, and the mean the dump prints, the total
    divided by the count, lies between the min and the max. *)
Theorem mean_between (n : string) (samples : list Z) :
  Forall (fun v => 0 <= v < 2 ^ 64) samples -> recorded samples <> [] ->
  sum_list_Z (recorded samples) < 2 ^ 64 ->
  exists l d,
    record_all (dmtr_new_latency n) samples = Done l
    /\ dist_of l TAG_DEFAULT = Some d
    /\ Dist.count d = Z.of_nat (length (recorded samples))
    /\ Dist.total d = sum_list_Z (recorded samples)
    /\ Dist.min d <= Dist.total d / Dist.count d <= Dist.max d.
Proof.
  intros Hr Hne Hfit.
  assert (Hod0 : only_default (dmtr_new_latency n)) by (intros t _; apply dist_of_new).
  destruct (record_all_ok samples (dmtr_new_latency n) (wf_new n) Hod0 Hr) as [l Hl].
  destruct (record_all_fields samples (dmtr_new_latency n) l (wf_new n) Hod0 Hr)
    as (Hwf & _ & _ & _ & Hc & Ht & Hmin & Hmax & _ & _ & Hlive);
    [cbn; unfold MAX_ITERATIONS; lia|done|].
  destruct (Hlive Hne) as [d Hd]. exists l, d.
  rewrite (base_live l _ _ Hd) in Hc, Ht, Hmin, Hmax.
  assert (Hb0 : base (dmtr_new_latency n) TAG_DEFAULT = Dist.set_type fresh_dist TAG_DEFAULT)
    by (unfold base; by rewrite dist_of_new).
  rewrite Hb0 in Hc, Ht, Hmin, Hmax.
  change (Dist.count (Dist.set_type fresh_dist TAG_DEFAULT)) with 0 in Hc.
  change (Dist.total (Dist.set_type fresh_dist TAG_DEFAULT)) with 0 in Ht.
  change (Dist.min (Dist.set_type fresh_dist TAG_DEFAULT)) with UINT64_MAX in Hmin.
  change (Dist.max (Dist.set_type fresh_dist TAG_DEFAULT)) with 0 in Hmax.
  pose proof (recorded_positive samples Hr) as Hpos.
  pose proof (sum_list_Z_ge_length _ Hpos) as Hlen.
  assert (0 < Z.of_nat (length (recorded samples))) as Hn.
  { destruct (recorded samples); [done|cbn; lia]. }
  rewrite Z.add_0_l, u64_small in Hc by lia. rewrite Z.add_0_l, u64_small in Ht by lia.
  split; [done|]. split; [done|]. split; [done|]. split; [done|].
  rewrite Hc, Ht, Hmin, Hmax. split.
  - apply Z.div_le_lower_bound; [done|].
    pose proof (foldr_min_le_sum UINT64_MAX _ Hne). lia.
  - apply Z.div_le_upper_bound; [done|].
    pose proof (sum_le_foldr_max 0 _ Hne). lia.
Qed.

Lemma mean_between_witness :
  exists l d,
    scenario_t = Done l /\ dist_of l TAG_DEFAULT = Some d
    /\ Dist.min d <= Dist.total d / Dist.count d <= Dist.max d.
Proof.
  destruct (mean_between "t" [1; 2; 4; 1000; 1000000]) as (l & d & Hl & Hd & _ & _ & H).
  - repeat (apply Forall_cons_2; [lia|]). apply Forall_nil_2.
  - discriminate.
  - vm_compute. reflexivity.
  - exists l, d. split; [exact Hl|]. split; [exact Hd|exact H].
Defined.

(** ** Merged sums that do not fit their fields *)

Lemma recorded_ones (n : nat) : recorded (replicate n 1) = replicate n 1.
Proof.
  unfold recorded. induction n as [|n IH]; [done|].
  cbn [replicate]. rewrite filter_cons_True by done. by rewrite IH.
Qed.

Lemma in_bucket_ones (n : nat) : in_bucket 0 (replicate n 1) = Z.of_nat n.
Proof.
  unfold in_bucket. induction n as [|n IH]; [done|].
  cbn [replicate]. rewrite filter_cons_True by done.
  cbn [length]. lia.
Qed.

(** [n] samples of 1 ns leave [n] in bucket 0, as long as [n] fits the
    bucket. *)
Lemma record_ones (nm : string) (n : nat) :
  (0 < n)%nat -> Z.of_nat n < 2 ^ 32 ->
  exists l d, record_all (dmtr_new_latency nm) (replicate n 1) = Done l
    /\ wf l /\ only_default l
    /\ dist_of l TAG_DEFAULT = Some d
    /\ Dist.buckets d !! 0%nat = Some (Z.of_nat n).
Proof.
  intros Hn Hfit.
  assert (Hr : Forall (fun v => 0 <= v < 2 ^ 64) (replicate n 1))
    by (apply Forall_replicate; lia).
  assert (Hod : only_default (dmtr_new_latency nm))
    by (intros t _; apply dist_of_new).
  destruct (record_all_ok _ _ (wf_new nm) Hod Hr) as [l Hl].
  destruct (record_all_fields _ _ l (wf_new nm) Hod Hr) as
    (Hwf & Hod' & _ & _ & _ & _ & _ & _ & Hb & _ & Hlive); [cbn; unfold MAX_ITERATIONS; lia|exact Hl|].
  rewrite recorded_ones in Hb, Hlive.
  destruct Hlive as [d Hd]; [by destruct n; [lia|]|].
  exists l, d. split; [exact Hl|]. split; [exact Hwf|]. split; [exact Hod'|].
  split; [exact Hd|].
  rewrite (base_live l _ d Hd) in Hb.
  rewrite (Hb 0%nat 0).
  - rewrite in_bucket_ones, Z.add_0_l, u32_small by lia. done.
  - unfold base. by rewrite dist_of_new.
Qed.

(** Two recorders of [n] samples of 1 ns each, merged. *)
Lemma merge_ones (n : nat) :
  Z.of_nat n = 2 ^ 31 ->
  exists dest summand dest' dd ds d',
    record_all (dmtr_new_latency "a") (replicate n 1) = Done dest
    /\ record_all (dmtr_new_latency "b") (replicate n 1) = Done summand
    /\ Latency_Sum dest summand = Done dest'
    /\ dist_of dest TAG_DEFAULT = Some dd
    /\ dist_of summand TAG_DEFAULT = Some ds
    /\ dist_of dest' TAG_DEFAULT = Some d'
    /\ Dist.buckets dd !! 0%nat = Some (2 ^ 31)
    /\ Dist.buckets ds !! 0%nat = Some (2 ^ 31)
    /\ Dist.buckets d' !! 0%nat = Some 0.
Proof.
  intros Hn.
  assert (H31 : 2 ^ 31 = 2147483648) by reflexivity.
  assert (H32 : 2 ^ 32 = 4294967296) by reflexivity.
  destruct (record_ones "a" n) as (dest & dd & Ha & Hwd & Hod & Hdd & Hbd); [lia..|].
  destruct (record_ones "b" n) as (summand & ds & Hb & Hws & Hos & Hds & Hbs); [lia..|].
  rewrite Hn in Hbd, Hbs.
  destruct (Latency_Sum_ok dest summand Hwd Hws) as [dest' Hsum].
  { pose proof (only_default_next dest Hwd Hod).
    pose proof (only_default_next summand Hws Hos).
    unfold LATENCY_DIST_POOL_SIZE. lia. }
  { intros t d0 Hd0 _. destruct (decide (t = TAG_DEFAULT)) as [->|Hne].
    - by exists dd.
    - rewrite (Hos t Hne) in Hd0. discriminate. }
  destruct (Latency_Sum_spec dest summand dest' Hwd Hws Hsum) as (_ & _ & _ & Hv & _).
  exists dest, summand, dest', dd, ds, (stats_merge (hist_merge dd ds) ds).
  split; [exact Ha|]. split; [exact Hb|]. split; [exact Hsum|].
  split; [exact Hdd|]. split; [exact Hds|]. split.
  { rewrite Hv. unfold merge_view. by rewrite Hds, (base_live dest _ dd Hdd). }
  split; [exact Hbd|]. split; [exact Hbs|].
  rewrite stats_merge_buckets.
  exact (hist_merge_lookup dd ds 0 _ _ Hbd Hbs).
Qed.

(** The claim C3 as stated fails where a sum does not fit its field:
    recording [2^64 - 1] in one recorder and [2] in the other, the merged
    total is [1], not [2^64 + 1]; recording [2^31] samples of 1 ns in each
    of two recorders, the merged bucket 0 is [0], not [2^32]. *)
Lemma merge_shared_tag_sums_wrap :
  (exists dest summand dest' dd ds d',
     record_all (dmtr_new_latency "a") [2 ^ 64 - 1] = Done dest
     /\ record_all (dmtr_new_latency "b") [2] = Done summand
     /\ Latency_Sum dest summand = Done dest'
     /\ dist_of dest TAG_DEFAULT = Some dd
     /\ dist_of summand TAG_DEFAULT = Some ds
     /\ dist_of dest' TAG_DEFAULT = Some d'
     /\ Dist.total dd = 2 ^ 64 - 1 /\ Dist.total ds = 2
     /\ Dist.total d' = 1
     /\ Dist.total d' <> Dist.total dd + Dist.total ds)
  /\ (exists dest summand dest' dd ds d',
        record_all (dmtr_new_latency "a") (replicate (Z.to_nat (2 ^ 31)) 1) = Done dest
        /\ record_all (dmtr_new_latency "b") (replicate (Z.to_nat (2 ^ 31)) 1)
           = Done summand
        /\ Latency_Sum dest summand = Done dest'
        /\ dist_of dest TAG_DEFAULT = Some dd
        /\ dist_of summand TAG_DEFAULT = Some ds
        /\ dist_of dest' TAG_DEFAULT = Some d'
        /\ Dist.buckets dd !! 0%nat = Some (2 ^ 31)
        /\ Dist.buckets ds !! 0%nat = Some (2 ^ 31)
        /\ Dist.buckets d' !! 0%nat = Some 0).
Proof.
  split.
  - eexists _, _, _, _, _, _.
    split; [vm_compute; reflexivity|]. split; [vm_compute; reflexivity|].
    split; [vm_compute; reflexivity|]. split; [vm_compute; reflexivity|].
    split; [vm_compute; reflexivity|]. split; [vm_compute; reflexivity|].
    split; [vm_compute; reflexivity|]. split; [vm_compute; reflexivity|].
    split; [vm_compute; reflexivity|]. vm_compute. discriminate.
  - apply merge_ones, Z2Nat.id. lia.
Qed.
